(** * clearskypy.extractor.extract: a shallow embedding and its properties

    The module [src/clearskypy/extractor/extract.py] pulls atmospheric
    variables for a set of stations out of gridded dataset files.  This
    development embeds its four functions, [date_check], [extract_dataset],
    [extract_dataset_list] and [extract_for_MERRA2], and proves the
    properties the specification states about them.

    Conventions of the embedding:
    - a numpy 1-D array is a [list]; a 2-D array is an [ndarray] (column
      count plus list of rows);
    - [np.datetime64] is [option Z] (seconds), [None] being [NaT];
    - Python exceptions and the observable effects (opening a dataset file,
      printing) are explicit: a computation is a trace of events together
      with an outcome, either a returned value or a raised exception;
    - the gridded-dataset backend (xarray) is an external collaborator: its
      nearest-neighbour lookup and its temporal interpolation are section
      variables, its exact selection is a list lookup;
    - the cells of the extracted matrices are of an arbitrary type with a
      not-a-number value; where [extract_for_MERRA2] computes with them they
      are binary64 numbers, with the arithmetic of IEEE 754 as numpy has
      it; [np.exp] is the C library's and is a parameter. *)

From Stdlib Require Import Floats.
From stdpp Require Import base list strings.
From Stdlib Require Import ZArith Permutation Sorted.

#[global] Set Warnings "-inexact-float".

(** ** Outcomes, events and the monad of traced computations *)

Inductive exn : Type :=
  | IndexError | KeyError | TypeError | ValueError | OSError.

Inductive event : Type :=
  | EvOpen (path : string)      (* xr.open_dataset(path) *)
  | EvPrint (msg : string).     (* print(msg) *)

Inductive outcome (A : Type) : Type :=
  | Ret (a : A)
  | Raise (e : exn).
Arguments Ret {A} a.
Arguments Raise {A} e.

Definition Py (A : Type) : Type := list event * outcome A.

#[global] Instance outcome_ret : MRet outcome := λ A a, Ret a.
#[global] Instance outcome_bind : MBind outcome := λ A B f m,
  match m with Ret a => f a | Raise e => Raise e end.

#[global] Instance Py_ret : MRet Py := λ A a, ([], Ret a).
#[global] Instance Py_bind : MBind Py := λ A B f m,
  match m with
  | (t, Ret a) => let r := f a in (t ++ r.1, r.2)
  | (t, Raise e) => (t, Raise e)
  end.

(** A pure computation that may raise, run inside a traced one. *)
Definition lift {A} (o : outcome A) : Py A := ([], o).
Definition emit (e : event) : Py unit := ([e], Ret tt).

(** [try: m except: ...] as far as the callers below need it: the trace of
    [m] is kept, a raised exception of any kind becomes [None]. *)
Definition attempt {A} (m : Py A) : Py (option A) :=
  match m with
  | (t, Ret a) => (t, Ret (Some a))
  | (t, Raise _) => (t, Ret None)
  end.

#[global] Instance outcome_fmap : FMap outcome := λ A B f m,
  match m with Ret a => Ret (f a) | Raise e => Raise e end.

(** the two messages [extract_dataset] prints (lines 48 and 67-68) *)
Definition msg_missing_variable : string :=
  "The data set does not contain the specified variable".
Definition msg_time_mismatch : string :=
  "can not find data match specified time coordinate, exit with code -2. Maybe you want to interpolate.".

(** the paths a trace opens, in the order of the openings *)
Definition opened_paths (tr : list event) : list string :=
  omap (λ ev, match ev with EvOpen path => Some path | EvPrint _ => None end) tr.

(** Indexing [l[i]] of a Python sequence with a non-negative index. *)
Definition getitem {A} (l : list A) (i : nat) : outcome A :=
  match l !! i with Some x => Ret x | None => Raise IndexError end.

Fixpoint mapM {A B} (f : A → outcome B) (l : list A) : outcome (list B) :=
  match l with
  | [] => Ret []
  | x :: l' => y ← f x; ys ← mapM f l'; mret (y :: ys)
  end.

Fixpoint foldM {A S} (f : S → A → outcome S) (s : S) (l : list A) : outcome S :=
  match l with
  | [] => Ret s
  | x :: l' => s' ← f s x; foldM f s' l'
  end.

(** ** numpy: [np.unique(ar, return_inverse=True)]

    The model follows numpy's [_unique1d]: argsort, the mask of positions
    whose value differs from its predecessor, the masked values, and the
    inverse scattered through the sorting permutation:
    [perm = ar.argsort(); aux = ar[perm]; mask[0] = True;
     mask[1:] = aux[1:] != aux[:-1]; ret = aux[mask];
     imask = cumsum(mask) - 1; inv_idx[perm] = imask]. *)

Section NpUnique.
Context {A : Type} (leb : A → A → bool) (eqb : A → A → bool).

Fixpoint insert_sorted (p : A * nat) (l : list (A * nat)) : list (A * nat) :=
  match l with
  | [] => [p]
  | q :: l' => if leb p.1 q.1 then p :: l else q :: insert_sorted p l'
  end.

(** the sorted values paired with the positions they came from *)
Definition argsort (ar : list A) : list (A * nat) :=
  foldr insert_sorted [] (zip ar (seq 0 (length ar))).

Fixpoint change_mask (prev : A) (aux : list A) : list bool :=
  match aux with
  | [] => []
  | x :: aux' => negb (eqb x prev) :: change_mask x aux'
  end.

Definition unique_mask (aux : list A) : list bool :=
  match aux with
  | [] => []
  | x :: aux' => true :: change_mask x aux'
  end.

(** boolean-mask indexing [aux[mask]] *)
Fixpoint compress {B} (mask : list bool) (l : list B) : list B :=
  match mask, l with
  | b :: mask', x :: l' => if b then x :: compress mask' l' else compress mask' l'
  | _, _ => []
  end.

Fixpoint cumsum (acc : nat) (mask : list bool) : list nat :=
  match mask with
  | [] => []
  | b :: mask' =>
      let acc' := acc + (if b then 1 else 0) in acc' :: cumsum acc' mask'
  end.

(** [inv_idx[perm] = imask] on a freshly allocated index array *)
Definition scatter (n : nat) (perm imask : list nat) : list nat :=
  foldl (λ inv pv, <[pv.1 := pv.2]> inv) (replicate n 0) (zip perm imask).

Definition np_unique_inverse (ar : list A) : list A * list nat :=
  let sorted := argsort ar in
  let perm := sorted.*2 in
  let aux := sorted.*1 in
  let mask := unique_mask aux in
  let imask := Nat.pred <$> cumsum 0 mask in
  (compress mask aux, scatter (length ar) perm imask).

Definition np_unique (ar : list A) : list A := (np_unique_inverse ar).1.
End NpUnique.


(** ** numpy arrays *)

(** A 2-D array: [ncols] is [shape[1]], [length rows] is [shape[0]] (what
    [len] answers); every row of a well-formed array has [ncols] cells. *)
Record ndarray (A : Type) : Type := NdArray { ncols : nat; rows : list (list A) }.
Arguments NdArray {A} ncols rows.
Arguments ncols {A} n.
Arguments rows {A} n.

Definition nrows {A} (a : ndarray A) : nat := length (rows a).
Definition size {A} (a : ndarray A) : nat := nrows a * ncols a.
Definition wf_ndarray {A} (a : ndarray A) : Prop :=
  Forall (λ r, length r = ncols a) (rows a).

(** Assigning a 1-D value to a 1-D slot of [n] cells broadcasts a value of
    one cell and refuses any other length mismatch. *)
Definition broadcast_to {A} (n : nat) (v : list A) : outcome (list A) :=
  if length v =? n then Ret v
  else match v with
       | [x] => Ret (replicate n x)
       | _ => Raise ValueError
       end.

(** [a[:, s]] *)
Definition column {A} (a : ndarray A) (s : nat) : outcome (list A) :=
  if s <? ncols a then mapM (λ r, getitem r s) (rows a) else Raise IndexError.

(** [a[:, s] = v] *)
Definition set_col {A} (s : nat) (v : list A) (a : ndarray A) : outcome (ndarray A) :=
  if s <? ncols a then
    v' ← broadcast_to (nrows a) v;
    mret (NdArray (ncols a) (zip_with (λ r x, <[s:=x]> r) (rows a) v'))
  else Raise IndexError.

(** [a[s, :] = v] *)
Definition set_row {A} (s : nat) (v : list A) (a : ndarray A) : outcome (ndarray A) :=
  if s <? nrows a then
    v' ← broadcast_to (ncols a) v;
    mret (NdArray (ncols a) (<[s:=v']> (rows a)))
  else Raise IndexError.

(** [np.vstack((a, b))] of two 2-D arrays *)
Definition np_vstack {A} (a b : ndarray A) : outcome (ndarray A) :=
  if ncols a =? ncols b then Ret (NdArray (ncols a) (rows a ++ rows b))
  else Raise ValueError.

(** ** Timestamps and the temporal validator *)

(** [np.datetime64]: seconds, or [NaT]. *)
Definition datetime64 : Type := option Z.
Definition NaT : datetime64 := None.

(** Comparisons with [NaT] are false. *)
Definition le_dt (a : Z) (d : datetime64) : bool :=
  match d with Some t => (a <=? t)%Z | None => false end.
Definition dt_le (d : datetime64) (b : Z) : bool :=
  match d with Some t => (t <=? b)%Z | None => false end.

Definition date_check (date : datetime64) (date_start date_end : Z) : datetime64 :=
  if le_dt date_start date && dt_le date date_end then date else NaT.

(** the window test on a timestamp, as a boolean *)
Definition in_window (date_start date_end : Z) (t : Z) : bool :=
  (date_start <=? t)%Z && (t <=? date_end)%Z.

(** [np.isnat] *)
Definition isnat (d : datetime64) : bool :=
  match d with Some _ => false | None => true end.

(** [np.vectorize(date_check)(datearray, start, end)]: cell by cell, the
    shape kept.  [np.vectorize] refuses an input of size 0, and it hands
    the cells to [date_check] as Python objects: a [NaT] cell arrives as
    [None], for which [date_start <= date] raises [TypeError]. *)
Definition date_check_vec (datearray : ndarray datetime64) (date_start date_end : Z)
  : outcome (ndarray datetime64) :=
  if size datearray =? 0 then Raise ValueError
  else if existsb isnat (concat (rows datearray)) then Raise TypeError
  else Ret (NdArray (ncols datearray)
              (map (map (λ d, date_check d date_start date_end)) (rows datearray))).

(** [x[~np.isnat(x)]]: the entries that are timestamps, in order. *)
Definition valid_times (x : list datetime64) : list Z := omap (λ d, d) x.

(** What a caller passes as [datetime]: the literal empty list, or the
    [m × n] matrix of requested timestamps (an array never compares equal
    to [[]]). *)
Inductive time_request : Type :=
  | EmptyList
  | TimeMatrix (datetime : ndarray datetime64).

Fixpoint index_of (t : Z) (axis : list Z) : option nat :=
  match axis with
  | [] => None
  | x :: axis' => if (x =? t)%Z then Some 0 else S <$> index_of t axis'
  end.

(** ** The gridded dataset and the backend's primitives *)

Section Extractor.
(** Coordinates (degrees) with numpy's [<=] and [==] on them; cell
    values with the not-a-number value; what [np.empty] finds in the
    memory it hands out. *)
Context {coord : Type} (coord_leb coord_eqb : coord → coord → bool).
Context {V : Type} (nan : V) (uninit : nat → nat → V).
(** xarray's [method='nearest']: the position on an axis closest to a
    requested coordinate ([None]: the lookup raises). *)
Context (nearest : list coord → coord → option nat).
(** xarray's [interp] along time: the native axis, the values on it, the
    requested instant. *)
Context (interp : list Z → list V → Z → V).

(** A dataset: the native time axis, the latitude and longitude axes and
    the named fields, each indexed by position in time, latitude and
    longitude. *)
Record Dataset : Type := MkDataset {
  ds_time : list Z;
  ds_lat : list coord;
  ds_lon : list coord;
  ds_vars : list (string * (nat → nat → nat → V))
}.

(** The files under their paths ([None]: the path cannot be opened). *)
Context (fs : string → option Dataset).

Fixpoint lookup_var {F} (name : string) (vars : list (string * F)) : option F :=
  match vars with
  | [] => None
  | (n, f) :: vars' => if String.eqb n name then Some f else lookup_var name vars'
  end.

Definition or_raise {A} (e : exn) (o : option A) : outcome A :=
  match o with Some a => Ret a | None => Raise e end.

Definition xr_open_dataset (path : string) : Py Dataset :=
  _ ← emit (EvOpen path); lift (or_raise OSError (fs path)).

(** [ds.sel(lat=lats, lon=lons, method='nearest')] *)
Definition ds_sel_nearest (ds : Dataset) (lats lons : list coord) : outcome Dataset :=
  ilat ← mapM (λ c, or_raise KeyError (nearest (ds_lat ds) c)) lats;
  ilon ← mapM (λ c, or_raise KeyError (nearest (ds_lon ds) c)) lons;
  glat ← mapM (λ i, or_raise KeyError (ds_lat ds !! i)) ilat;
  glon ← mapM (λ i, or_raise KeyError (ds_lon ds !! i)) ilon;
  mret (MkDataset (ds_time ds) glat glon
          (prod_map (λ name, name) (λ f k a b, f k (ilat !!! a) (ilon !!! b)) <$> ds_vars ds)).

(** [ds[variables]] with a list of names.  The selection keeps a
    coordinate only along a dimension of a listed variable; every field
    spans time, latitude and longitude, so the selection of no variable
    has no coordinate left. *)
Definition ds_getitem_list (ds : Dataset) (variables : list string) : outcome Dataset :=
  vars ← mapM (λ name, f ← or_raise KeyError (lookup_var name (ds_vars ds));
                       mret (name, f)) variables;
  mret (match vars with
        | [] => MkDataset [] [] [] []
        | _ :: _ => MkDataset (ds_time ds) (ds_lat ds) (ds_lon ds) vars
        end).

(** [ds['time']] on a selection [ds[variables]]: the coordinate is there
    exactly when a field is (see [ds_getitem_list]). *)
Definition ds_getitem_time (ds : Dataset) : outcome (list Z) :=
  match ds_vars ds with
  | [] => Raise KeyError
  | _ :: _ => Ret (ds_time ds)
  end.

(** the values of a field along the time axis at one grid cell *)
Definition series (ds : Dataset) (f : nat → nat → nat → V) (a b : nat) : list V :=
  (λ k, f k a b) <$> seq 0 (length (ds_time ds)).

(** [ds.interp(time=ts)]; the interpolation onto an empty set of
    instants raises [ValueError] *)
Definition ds_interp_time (ds : Dataset) (ts : list Z) : outcome Dataset :=
  match ts with
  | [] => Raise ValueError
  | _ :: _ =>
      Ret (MkDataset ts (ds_lat ds) (ds_lon ds)
             (prod_map (λ name, name) (λ f k a b,
                match ts !! k with
                | Some t => interp (ds_time ds) (series ds f a b) t
                | None => nan
                end) <$> ds_vars ds))
  end.

(** [ds.sel(time=ts)]: every label must be on the native axis *)
Definition ds_sel_time (ds : Dataset) (ts : list Z) : outcome Dataset :=
  idx ← mapM (λ t, or_raise KeyError (index_of t (ds_time ds))) ts;
  mret (MkDataset ts (ds_lat ds) (ds_lon ds)
          (prod_map (λ name, name) (λ f k a b, f (idx !!! k) a b) <$> ds_vars ds)).

(** [ds[name].sel(lat=lat, lon=lon, method='nearest')]: the time axis and
    the values along it *)
Definition da_sel_point (ds : Dataset) (name : string) (lat lon : coord)
  : outcome (list Z * list V) :=
  f ← or_raise KeyError (lookup_var name (ds_vars ds));
  a ← or_raise KeyError (nearest (ds_lat ds) lat);
  b ← or_raise KeyError (nearest (ds_lon ds) lon);
  mret (ds_time ds, series ds f a b).

(** [da.sel(time=ts).data] *)
Definition da_sel_time (da : list Z * list V) (ts : list Z) : outcome (list V) :=
  mapM (λ t, k ← or_raise KeyError (index_of t da.1);
             or_raise KeyError (da.2 !! k)) ts.

Definition np_empty (r c : nat) : ndarray V :=
  NdArray c ((λ i, uninit i <$> seq 0 c) <$> seq 0 r).

(** ** [extract_dataset] *)

(** What [extract_dataset] and [extract_dataset_list] hand back: a list
    of per-variable matrices, or a Python integer. *)
Inductive pyval : Type :=
  | VarList (var : list (ndarray V))
  | PyInt (z : Z).

(** lines 44-45, the body of the first [try] *)
Definition open_selection (lats_unique lons_unique : list coord) (dataset_path : string)
    (variables : list string) : Py Dataset :=
  ds ← xr_open_dataset dataset_path;
  lift (ds' ← ds_sel_nearest ds lats_unique lons_unique;
        ds_getitem_list ds' variables).

(** line 51: the distinct valid timestamps of the whole request, sorted *)
Definition datetime_for_interp_of (datetime : ndarray datetime64) : list Z :=
  np_unique Z.leb Z.eqb (valid_times (concat (rows datetime))).

(** lines 53-58 *)
Definition datetime_for_station_of (datetime : ndarray datetime64) (nstations : nat)
  : outcome (list (list Z)) :=
  mapM (λ index_station, datetime_temp ← column datetime index_station;
                         mret (valid_times datetime_temp)) (seq 0 nstations).

(** lines 60-72; [None] when the exact selection raised.  Reading
    [dataset['time']] and the interpolation are outside any [try]. *)
Definition select_times (dataset : Dataset) (datetime_for_interp : list Z)
    (interpolate : bool) : Py (option Dataset) :=
  time ← lift (ds_getitem_time dataset);
  if 1 <? length time then
    if interpolate then
      dataset_interpolation ← lift (ds_interp_time dataset datetime_for_interp);
      mret (Some dataset_interpolation)
    else attempt (lift (ds_sel_time dataset datetime_for_interp))
  else mret (Some dataset).

(** lines 79-84, one station of the interpolation branch *)
Definition station_column (dataset_interpolation : Dataset) (index_variables : string)
    (lats lons : list coord) (datetime : ndarray datetime64)
    (datetime_for_station : list (list Z))
    (station_data : ndarray V) (index_station : nat) : outcome (ndarray V) :=
  times ← getitem datetime_for_station index_station;
  if length times =? 0 then
    (* np.full([1, len(datetime)], np.nan): one row of NaN, assigned to the
       column as a 1-D value *)
    set_col index_station (replicate (nrows datetime) nan) station_data
  else
    lat ← getitem lats index_station;
    lon ← getitem lons index_station;
    da ← da_sel_point dataset_interpolation index_variables lat lon;
    data ← da_sel_time da times;
    set_col index_station data station_data.

(** lines 89-90, one station of the static branch *)
Definition station_row (dataset_interpolation : Dataset) (index_variables : string)
    (lats lons : list coord) (station_data : ndarray V) (index_station : nat)
  : outcome (ndarray V) :=
  lat ← getitem lats index_station;
  lon ← getitem lons index_station;
  da ← da_sel_point dataset_interpolation index_variables lat lon;
  x ← getitem da.2 0;
  set_row index_station [x] station_data.

(** What the static branch has written after the stations below [k]: the
    shape is the allocated one and row [s] holds the first value along
    time of the field at the cell nearest to station [s]. *)
Definition static_rows_inv (D : Dataset) (name : string)
    (lats lons : list coord) (u : nat) (k : nat) (M : ndarray V) : Prop :=
  ncols M = 1 ∧ nrows M = u ∧ wf_ndarray M ∧ k ≤ u ∧
  ∀ s, s < k →
    ∃ lat lon da x,
      lats !! s = Some lat ∧ lons !! s = Some lon ∧
      da_sel_point D name lat lon = Ret da ∧ da.2 !! 0 = Some x ∧
      rows M !! s = Some [x].

(** What the interpolation branch has written after the stations below
    [k]: the shape is the allocated one; column [s] of a station without a
    valid timestamp is NaN from top to bottom, column [s] of any other
    station is the values selected for it at its own valid timestamps
    (assigned as numpy assigns a 1-D value to a column); the columns from
    [k] on still hold what [np.empty] found. *)
Definition interp_cols_inv (D : Dataset) (name : string) (lats lons : list coord)
    (datetime : ndarray datetime64) (datetime_for_station : list (list Z))
    (k : nat) (M : ndarray V) : Prop :=
  ncols M = length lats ∧ nrows M = nrows datetime ∧ wf_ndarray M ∧ k ≤ length lats ∧
  (∀ s, s < k →
     ∃ times, datetime_for_station !! s = Some times ∧
       ((times = [] ∧ column M s = Ret (replicate (nrows datetime) nan)) ∨
        (times ≠ [] ∧
         ∃ lat lon da data,
           lats !! s = Some lat ∧ lons !! s = Some lon ∧
           da_sel_point D name lat lon = Ret da ∧
           da_sel_time da times = Ret data ∧
           column M s = broadcast_to (nrows datetime) data))) ∧
  (∀ s, k ≤ s → s < length lats →
     column M s = Ret ((λ i, uninit i s) <$> seq 0 (nrows datetime))).

(** lines 76-91, one variable *)
Definition station_data_of (dataset_interpolation : Dataset) (lats lons : list coord)
    (lons_unique : list coord) (datetime : ndarray datetime64)
    (datetime_for_station : list (list Z)) (interpolate : bool)
    (index_variables : string) : outcome (ndarray V) :=
  if interpolate then
    foldM (station_column dataset_interpolation index_variables lats lons
             datetime datetime_for_station)
      (np_empty (nrows datetime) (length lats)) (seq 0 (length lons))
  else
    foldM (station_row dataset_interpolation index_variables lats lons)
      (np_empty (length lons_unique) 1) (seq 0 (length lons)).

Definition extract_dataset (lats lons : list coord) (dataset_path : string)
    (variables : list string) (datetime : time_request) (interpolate : bool)
  : Py pyval :=
  let lons_unique := np_unique coord_leb coord_eqb lons in
  let lats_unique := np_unique coord_leb coord_eqb lats in
  match datetime with
  | EmptyList => mret (VarList [])
  | TimeMatrix datetime =>
      opened ← attempt (open_selection lats_unique lons_unique dataset_path variables);
      match opened with
      | None =>
          _ ← emit (EvPrint msg_missing_variable);
          mret (PyInt (-1))
      | Some dataset =>
          let datetime_for_interp := datetime_for_interp_of datetime in
          datetime_for_station ← lift (datetime_for_station_of datetime (length lons));
          selected ← select_times dataset datetime_for_interp interpolate;
          match selected with
          | None =>
              _ ← emit (EvPrint msg_time_mismatch);
              mret (PyInt (-2))
          | Some dataset_interpolation =>
              var ← lift (mapM (station_data_of dataset_interpolation lats lons
                                  lons_unique datetime datetime_for_station
                                  interpolate) variables);
              mret (VarList var)
          end
      end
  end.

(** The ways a call of [extract_dataset] with a matrix request can go, read
    off its body: the first [try] fails; a station has no column in the
    request; reading the time axis or the interpolation raises; the exact
    selection fails; the matrices are assembled. *)
Inductive extract_run (lats lons : list coord) (path : string) (variables : list string)
    (datetime : ndarray datetime64) (interpolate : bool) : Py pyval → Prop :=
  | run_open_failed e :
      open_selection (np_unique coord_leb coord_eqb lats)
        (np_unique coord_leb coord_eqb lons) path variables
        = ([EvOpen path], Raise e) →
      extract_run lats lons path variables datetime interpolate
        ([EvOpen path; EvPrint msg_missing_variable], Ret (PyInt (-1)))
  | run_column_failed dataset e :
      open_selection (np_unique coord_leb coord_eqb lats)
        (np_unique coord_leb coord_eqb lons) path variables
        = ([EvOpen path], Ret dataset) →
      datetime_for_station_of datetime (length lons) = Raise e →
      extract_run lats lons path variables datetime interpolate
        ([EvOpen path], Raise e)
  | run_selection_raised dataset datetime_for_station e :
      open_selection (np_unique coord_leb coord_eqb lats)
        (np_unique coord_leb coord_eqb lons) path variables
        = ([EvOpen path], Ret dataset) →
      datetime_for_station_of datetime (length lons) = Ret datetime_for_station →
      select_times dataset (datetime_for_interp_of datetime) interpolate
        = ([], Raise e) →
      extract_run lats lons path variables datetime interpolate
        ([EvOpen path], Raise e)
  | run_selection_failed dataset datetime_for_station :
      open_selection (np_unique coord_leb coord_eqb lats)
        (np_unique coord_leb coord_eqb lons) path variables
        = ([EvOpen path], Ret dataset) →
      datetime_for_station_of datetime (length lons) = Ret datetime_for_station →
      select_times dataset (datetime_for_interp_of datetime) interpolate
        = ([], Ret None) →
      extract_run lats lons path variables datetime interpolate
        ([EvOpen path; EvPrint msg_time_mismatch], Ret (PyInt (-2)))
  | run_assembled dataset datetime_for_station dataset_interpolation :
      open_selection (np_unique coord_leb coord_eqb lats)
        (np_unique coord_leb coord_eqb lons) path variables
        = ([EvOpen path], Ret dataset) →
      datetime_for_station_of datetime (length lons) = Ret datetime_for_station →
      select_times dataset (datetime_for_interp_of datetime) interpolate
        = ([], Ret (Some dataset_interpolation)) →
      extract_run lats lons path variables datetime interpolate
        ([EvOpen path],
         VarList <$> mapM (station_data_of dataset_interpolation lats lons
                             (np_unique coord_leb coord_eqb lons) datetime
                             datetime_for_station interpolate) variables).

(** ** [extract_dataset_list] *)

Definition halfhour : Z := 1800.

(** [x == []] for the values at hand: only the empty list is equal to
    [[]]; a list of different length and an integer are not. *)
Definition is_empty_list (x : pyval) : bool :=
  match x with VarList [] => true | _ => false end.

(** [x[i]] and [x[i] = a] on a returned value: an integer is not
    subscriptable. *)
Definition subscript (x : pyval) (i : nat) : outcome (ndarray V) :=
  match x with
  | VarList var => getitem var i
  | PyInt _ => Raise TypeError
  end.

Definition store (x : pyval) (i : nat) (a : ndarray V) : outcome pyval :=
  match x with
  | VarList var =>
      if i <? length var then Ret (VarList (<[i:=a]> var)) else Raise IndexError
  | PyInt _ => Raise TypeError
  end.

(** lines 132: the request restricted to the window of a file *)
Definition restrict_request (datearray : ndarray datetime64) (dataset : Dataset)
  : outcome (ndarray datetime64) :=
  dataset_starttime ← getitem (ds_time dataset) 0;
  dataset_endtime ← or_raise IndexError (last (ds_time dataset));
  date_check_vec datearray (dataset_starttime - halfhour)%Z (dataset_endtime + halfhour)%Z.

(** lines 124-135: what one file yields, the file opened for its time
    window and [extract_dataset] run on the restricted request *)
Definition per_file_result (lats lons : list coord) (variables : list string)
    (datearray : ndarray datetime64) (interpolate : bool) (dataset_path : string)
  : Py pyval :=
  dataset ← xr_open_dataset dataset_path;
  datevecs_for_dataset ← lift (restrict_request datearray dataset);
  extract_dataset lats lons dataset_path variables
    (TimeMatrix datevecs_for_dataset) interpolate.

(** lines 124-137, one turn of the first loop *)
Definition stitch_file (lats lons : list coord) (variables : list string)
    (datearray : ndarray datetime64) (interpolate : bool)
    (var_list : list pyval) (dataset_path : string) : Py (list pyval) :=
  newvar ← per_file_result lats lons variables datearray interpolate dataset_path;
  if negb (is_empty_list newvar) then mret (var_list ++ [newvar]) else mret var_list.

Fixpoint foldPy {A S} (f : S → A → Py S) (s : S) (l : list A) : Py S :=
  match l with
  | [] => mret s
  | x :: l' => s' ← f s x; foldPy f s' l'
  end.

(** lines 122-137 *)
Definition stitch_collect (lats lons : list coord) (dataset_path_list : list string)
    (variables : list string) (datearray : ndarray datetime64) (interpolate : bool)
  : Py (list pyval) :=
  foldPy (stitch_file lats lons variables datearray interpolate) [] dataset_path_list.

(** lines 144-145 *)
Definition stack_variable (next : pyval) (var : pyval) (index_variable : nat)
  : outcome pyval :=
  a ← subscript var index_variable;
  b ← subscript next index_variable;
  c ← np_vstack a b;
  store var index_variable c.

(** lines 138-147 *)
Definition stitch_concat (variables : list string) (var_list : list pyval)
  : outcome pyval :=
  var ← getitem var_list 0;
  foldM (λ var index_varlist,
           next ← getitem var_list (index_varlist + 1);
           if is_empty_list next then Ret var
           else foldM (stack_variable next) var (seq 0 (length variables)))
    var (seq 0 (length var_list - 1)).

Definition extract_dataset_list (lats lons : list coord) (dataset_path_list : list string)
    (variables : list string) (datearray : ndarray datetime64) (interpolate : bool)
  : Py pyval :=
  var_list ← stitch_collect lats lons dataset_path_list variables datearray interpolate;
  lift (stitch_concat variables var_list).

(** the number of columns of every matrix a call returns *)
Definition out_cols (interpolate : bool) (lats : list coord) : nat :=
  if interpolate then length lats else 1.

(** *** The stitching as the specification words it

    The per-file results that are kept ([newvar != []]), and for variable
    [j] the rows of the kept matrices one after the other, in file order. *)
Definition contributing (vars : list (list (ndarray V))) : list (list (ndarray V)) :=
  base.filter (λ var, var ≠ []) vars.

Definition rows_of (var : list (ndarray V)) (j : nat) : list (list V) :=
  match var !! j with Some M => rows M | None => [] end.

Definition stitched_rows (vars : list (list (ndarray V))) (j : nat) : list (list V) :=
  concat ((λ var, rows_of var j) <$> vars).

End Extractor.

(** ** [extract_for_MERRA2]

    The cells are binary64 numbers ([float], Rocq's primitive
    floating-point numbers): products, quotients, differences and
    comparisons are those of IEEE 754, a comparison with NaN is false.
    The constants are the binary64 numbers nearest to the decimal
    literals of the source.  [np.exp] calls the exponential of the C
    library, which is not part of the repository: it is a parameter
    [np_exp]. *)

(** [a * k], [a / k] and [np.exp(a)], cell by cell *)
Definition nd_map {A B} (f : A → B) (a : ndarray A) : ndarray B :=
  NdArray (ncols a) (map (map f) (rows a)).

(** [a.T] *)
Definition transpose {A} (a : ndarray A) : ndarray A :=
  NdArray (nrows a) ((λ j, omap (λ r, r !! j) (rows a)) <$> seq 0 (ncols a)).

(** an [n × 1] column *)
Definition col_vec {A} (l : list A) : ndarray A := NdArray 1 ((λ x, [x]) <$> l).

(** numpy broadcasting of two 2-D shapes, one axis at a time *)
Definition bcast_dim (n1 n2 : nat) : outcome nat :=
  if n1 =? n2 then Ret n1
  else if n1 =? 1 then Ret n2
  else if n2 =? 1 then Ret n1
  else Raise ValueError.

(** the cell an operand contributes at position [(i, j)] of the result *)
Definition bcast_cell (a : ndarray float) (i j : nat) : float :=
  default PrimFloat.nan
    (rows a !! (if nrows a =? 1 then 0 else i) ≫=
       λ r, r !! (if ncols a =? 1 then 0 else j)).

Definition broadcast2 (f : float → float → float) (a b : ndarray float)
  : outcome (ndarray float) :=
  r ← bcast_dim (nrows a) (nrows b);
  c ← bcast_dim (ncols a) (ncols b);
  mret (NdArray c ((λ i, (λ j, f (bcast_cell a i j) (bcast_cell b i j)) <$> seq 0 c)
                     <$> seq 0 r)).

(** the cell [(i, j)] of an array *)
Definition cell {A} (a : ndarray A) (i j : nat) : option A :=
  rows a !! i ≫= λ r, r !! j.

(** line 175: geopotential to geometric height *)
Definition geometric_height (phis : float) : float := (phis / 9.80665)%float.

(** line 178 *)
Definition Ha : float := 2100%float.

(** line 182: [tot_angst[tot_angst < 0] = 0] *)
Definition clamp_negative (x : float) : float :=
  if (x <? 0)%float then 0%float else x.

(** ['sub' in s] *)
Fixpoint contains (sub s : string) : bool :=
  if String.prefix sub s then true
  else match s with
       | EmptyString => false
       | String _ s' => contains sub s'
       end.

(** lines 157-163 *)
Fixpoint classify (datadir : string) (datadirlist : list string)
  : list string * list string :=
  match datadirlist with
  | [] => ([], [])
  | file :: rest =>
      let '(dirlist, asmlist) := classify datadir rest in
      if contains "index" file then (dirlist, asmlist)
      else if contains "const_2d_asm" file then (dirlist, (datadir +:+ file) :: asmlist)
      else if contains "merra2" file then ((datadir +:+ file) :: dirlist, asmlist)
      else (dirlist, asmlist)
  end.

Definition merra2_variables : list string :=
  ["TOTEXTTAU"; "TOTSCATAU"; "TOTANGSTR"; "ALBEDO"; "TO3"; "TQV"; "PS"].

Section Merra2Numerics.
(** [np.exp] on one binary64 number *)
Context (np_exp : float → float).

(** lines 178-179 on one cell: [np.exp((h0 - h) / Ha)] with [Ha = 2100] *)
Definition scale_height_factor (h0 h : float) : float :=
  np_exp ((h0 - h) / Ha)%float.

(** lines 172-187: what follows the two extractions.  [elev] is a 2-D
    array; the model class hands it over as an [n × 1] column. *)
Definition merra2_postprocess (AOD_550 tot_aer_ext tot_angst albedo ozone water_vapour
    pressure phis : ndarray float) (elev : ndarray float) (ntimes nstations : nat)
  : outcome (list (ndarray float)) :=
  let water_vapour := nd_map (λ x, x * 0.1)%float water_vapour in
  let ozone := nd_map (λ x, x * 0.001)%float ozone in
  let h := nd_map geometric_height phis in
  let h0 := elev in
  d ← broadcast2 PrimFloat.sub h0 h;
  let scale_height := nd_map (λ x, np_exp (x / Ha)%float) d in
  AOD_550 ← broadcast2 PrimFloat.mul AOD_550 (transpose scale_height);
  water_vapour ← broadcast2 PrimFloat.mul water_vapour (transpose scale_height);
  let tot_angst := nd_map clamp_negative tot_angst in
  let nitrogen_dioxide :=
    NdArray nstations (replicate ntimes (replicate nstations 0.0002%float)) in
  mret [tot_aer_ext; AOD_550; tot_angst; ozone; albedo; water_vapour; pressure;
        nitrogen_dioxide].

(** *** The correction as the specification words it

    The factor of one station from its elevation cell and its geopotential
    cell, the row of the factors of all stations, and a matrix multiplied
    by a row, the row repeated for every row of the matrix. *)
Definition scale_height_cell (e p : float) : float :=
  scale_height_factor e (geometric_height p).

Definition scale_height_factors (elev phis : list float) : list float :=
  zip_with scale_height_cell elev phis.
End Merra2Numerics.

Definition times_row (M : ndarray float) (l : list float) : ndarray float :=
  NdArray (length l) ((λ r, zip_with PrimFloat.mul r l) <$> rows M).

Section Merra2.
Context {coord : Type} (coord_leb coord_eqb : coord → coord → bool).
Context (uninit : nat → nat → float).
Context (nearest : list coord → coord → option nat).
Context (interp : list Z → list float → Z → float).
Context (fs : string → option (@Dataset coord float)).
(** [os.listdir] *)
Context (listdir : string → list string).
Context (np_exp : float → float).

(** unpacking [[a, b, ...] = x] into exactly [n] names *)
Definition unpack (n : nat) (x : pyval) : outcome (list (ndarray float)) :=
  match x with
  | VarList var => if length var =? n then Ret var else Raise ValueError
  | PyInt _ => Raise TypeError
  end.

Definition extract_for_MERRA2 (lats lons : list coord) (times : ndarray datetime64)
    (elev : ndarray float) (datadir : string) : Py (list (ndarray float)) :=
  let '(dirlist, asmlist) := classify datadir (listdir datadir) in
  stitched ← extract_dataset_list coord_leb coord_eqb PrimFloat.nan uninit nearest
                interp fs lats lons dirlist merra2_variables times true;
  vars ← lift (unpack 7 stitched);
  asm ← lift (getitem asmlist 0);
  static ← extract_dataset coord_leb coord_eqb PrimFloat.nan uninit nearest interp fs
              lats lons asm ["PHIS"] (TimeMatrix times) false;
  phis ← lift (unpack 1 static);
  match vars, phis with
  | [AOD_550; tot_aer_ext; tot_angst; albedo; ozone; water_vapour; pressure], [phis] =>
      lift (merra2_postprocess np_exp AOD_550 tot_aer_ext tot_angst albedo ozone
              water_vapour pressure phis elev (nrows times) (length lats))
  | _, _ => lift (Raise ValueError)
  end.
End Merra2.

(** ** A concrete instance: integer coordinates and cells, two files *)

Module Sample.
(** [method='nearest'] as pandas answers it.  The axis must be strictly
    increasing or strictly decreasing: a repeated label is refused
    ([InvalidIndexError]), so is an axis in no order ([ValueError]), and
    an empty axis has no label to give ([KeyError]).  Among the labels
    the closest to [c] is taken, and the larger label when two are
    equally close. *)
Fixpoint strictly_increasing (axis : list Z) : bool :=
  match axis with
  | x :: ((y :: _) as axis') => (x <? y)%Z && strictly_increasing axis'
  | _ => true
  end.

Fixpoint strictly_decreasing (axis : list Z) : bool :=
  match axis with
  | x :: ((y :: _) as axis') => (y <? x)%Z && strictly_decreasing axis'
  | _ => true
  end.

Fixpoint nearest_from (best : nat) (bestv : Z) (i : nat) (axis : list Z) (c : Z) : nat :=
  match axis with
  | [] => best
  | x :: axis' =>
      if ((Z.abs (x - c) <? Z.abs (bestv - c)) ||
          ((Z.abs (x - c) =? Z.abs (bestv - c)) && (bestv <? x)))%Z
      then nearest_from i x (S i) axis' c
      else nearest_from best bestv (S i) axis' c
  end.

Definition nearest (axis : list Z) (c : Z) : option nat :=
  match axis with
  | [] => None
  | x :: axis' =>
      if strictly_increasing axis || strictly_decreasing axis
      then Some (nearest_from 0 x 1 axis' c)
      else None
  end.

(** linear interpolation between the two neighbours on the axis, NaN
    outside of it *)
Fixpoint interp (axis : list Z) (vals : list (option Z)) (t : Z) : option Z :=
  match axis, vals with
  | t0 :: ((t1 :: _) as axis'), v0 :: ((v1 :: _) as vals') =>
      if ((t0 <=? t) && (t <=? t1))%Z
      then a ← v0; b ← v1; Some (a + (b - a) * (t - t0) / (t1 - t0))%Z
      else interp axis' vals' t
  | _, _ => None
  end.

Definition uninit (i j : nat) : option Z := Some 0%Z.

Definition field (base : Z) (k a b : nat) : option Z :=
  Some (base + 3600 * Z.of_nat k + 10 * Z.of_nat a + Z.of_nat b)%Z.

Definition grid : list Z := [0; 10; 20]%Z.

Definition file_a : @Dataset Z (option Z) :=
  MkDataset [0; 3600; 7200]%Z grid grid [("TQV", field 0); ("PS", field 100000)].
Definition file_b : @Dataset Z (option Z) :=
  MkDataset [10800; 14400; 18000]%Z grid grid [("TQV", field 10800); ("PS", field 110800)].
Definition file_const : @Dataset Z (option Z) :=
  MkDataset [0]%Z grid grid [("PHIS", field 500)].

Definition fs (path : string) : option (@Dataset Z (option Z)) :=
  if String.eqb path "a.nc" then Some file_a
  else if String.eqb path "b.nc" then Some file_b
  else if String.eqb path "const.nc" then Some file_const
  else None.

Definition extract_dataset :=
  extract_dataset Z.leb Z.eqb None uninit nearest interp fs.
Definition extract_dataset_list :=
  extract_dataset_list Z.leb Z.eqb None uninit nearest interp fs.

Definition lats : list Z := [1; 12]%Z.
Definition lons : list Z := [2; 19]%Z.

(** station 0 asks for two instants covered by [a.nc], station 1 for two
    covered by [b.nc] *)
Definition times : ndarray datetime64 :=
  NdArray 2 [[Some 600; Some 11000]; [Some 4200; Some 15000]]%Z.

(** what [a.nc] and [b.nc] yield for that request in interpolation mode,
    for the variables [TQV] and [PS] *)
Definition var_a : list (ndarray (option Z)) :=
  [NdArray 2 [[Some 600; None]; [Some 4200; None]];
   NdArray 2 [[Some 100600; None]; [Some 104200; None]]]%Z.
Definition var_b : list (ndarray (option Z)) :=
  [NdArray 2 [[None; Some 11012]; [None; Some 15012]];
   NdArray 2 [[None; Some 111012]; [None; Some 115012]]]%Z.

(** two stations, one time row, for the post-processing of
    [extract_for_MERRA2] *)
Definition aod : ndarray float := NdArray 2 [[0.25; 0.5]]%float.
Definition tqv : ndarray float := NdArray 2 [[20; PrimFloat.nan]]%float.
Definition other : ndarray float := NdArray 2 [[1; 1]]%float.
Definition elev_cells : list float := [30; 62]%float.
Definition phis_cells : list float := [294.1995; 980.665]%float.
End Sample.

(** ** A concrete MERRA-2 directory: real-valued cells *)

Module SampleMerra2.
(** a small integer as a binary64 number *)
Definition float_of_Z (z : Z) : float := Z.iter z (λ x, x + 1)%float 0%float.

(** linear interpolation between the two neighbours on the axis, NaN
    outside of it *)
Fixpoint interp (axis : list Z) (vals : list float) (t : Z) : float :=
  match axis, vals with
  | t0 :: ((t1 :: _) as axis'), v0 :: ((v1 :: _) as vals') =>
      if ((t0 <=? t) && (t <=? t1))%Z
      then (v0 + (v1 - v0) * (float_of_Z (t - t0) / float_of_Z (t1 - t0)))%float
      else interp axis' vals' t
  | _, _ => PrimFloat.nan
  end.

Definition uninit (i j : nat) : float := 0%float.

Definition field (base : float) (k a b : nat) : float :=
  (base + float_of_Z (Z.of_nat k))%float.

Definition data_file : @Dataset Z float :=
  MkDataset [1800; 5400; 9000]%Z Sample.grid Sample.grid
    [("TOTEXTTAU", field 0.2); ("TOTSCATAU", field 0.18); ("TOTANGSTR", field 1.3);
     ("ALBEDO", field 0.15); ("TO3", field 300); ("TQV", field 20);
     ("PS", field 100000)].
(** a data file without the ozone column *)
Definition bad_file : @Dataset Z float :=
  MkDataset [1800; 5400; 9000]%Z Sample.grid Sample.grid
    [("TOTEXTTAU", field 0.2); ("TOTSCATAU", field 0.18); ("TOTANGSTR", field 1.3);
     ("ALBEDO", field 0.15); ("TQV", field 20); ("PS", field 100000)].
Definition const_file : @Dataset Z float :=
  MkDataset [0]%Z Sample.grid Sample.grid [("PHIS", field 294.1995)].

Definition fs (path : string) : option (@Dataset Z float) :=
  if String.eqb path "data/merra2_day1.nc" then Some data_file
  else if String.eqb path "data/const_2d_asm.nc" then Some const_file
  else if String.eqb path "noconst/merra2_day1.nc" then Some data_file
  else if String.eqb path "bad/merra2_day1.nc" then Some bad_file
  else if String.eqb path "bad/const_2d_asm.nc" then Some const_file
  else None.

Definition listdir (datadir : string) : list string :=
  if String.eqb datadir "data/"
  then ["index.html"; "merra2_day1.nc"; "const_2d_asm.nc"]
  else if String.eqb datadir "noconst/" then ["merra2_day1.nc"]
  else if String.eqb datadir "bad/" then ["merra2_day1.nc"; "const_2d_asm.nc"]
  else if String.eqb datadir "nodata/"
  then ["merra2_index.html"; "const_2d_asm.nc"; "notes.txt"]
  else [].

(** a stand-in for the exponential of the C library: the first terms of
    its series, with [exp(0) = 1] *)
Definition np_exp (x : float) : float :=
  (1 + x * (1 + x * (0.5 + x * (1 / 6))))%float.

Definition extract_for_MERRA2 :=
  extract_for_MERRA2 Z.leb Z.eqb uninit Sample.nearest interp fs listdir np_exp.

(** two stations, three time rows *)
Definition times : ndarray datetime64 :=
  NdArray 2 [[Some 2000; Some 2000]; [Some 4000; Some 4000]; [Some 6000; Some 6000]]%Z.
Definition elev : ndarray float := col_vec Sample.elev_cells.
End SampleMerra2.

(** * Properties *)

(** ** Monad bookkeeping *)

Lemma mapM_length {A B} (f : A → outcome B) l ys :
  mapM f l = Ret ys → length ys = length l.
Proof.
  revert ys. induction l as [|x l IH]; intros ys H; simpl in H.
  - by inversion H.
  - destruct (f x) as [y|]; [|done]. simpl in H.
    destruct (mapM f l) as [ys'|]; [|done]. simpl in H.
    inversion H; subst. simpl. f_equal. by apply IH.
Qed.

Lemma mapM_lookup {A B} (f : A → outcome B) l ys i x :
  mapM f l = Ret ys → l !! i = Some x → ∃ y, f x = Ret y ∧ ys !! i = Some y.
Proof.
  revert ys i. induction l as [|x0 l IH]; intros ys i H Hi; [done|].
  simpl in H. destruct (f x0) as [y0|] eqn:E0; [|done]. simpl in H.
  destruct (mapM f l) as [ys'|] eqn:E; [|done]. simpl in H.
  inversion H; subst. destruct i as [|i]; simpl in *.
  - inversion Hi; subst. eauto.
  - eapply IH; eauto.
Qed.

Lemma outcome_bind_Ret {A B} (m : outcome A) (f : A → outcome B) b :
  m ≫= f = Ret b → ∃ a, m = Ret a ∧ f a = Ret b.
Proof. destruct m as [a|e]; simpl; [eauto|done]. Qed.

Lemma mapM_Raise {A B} (f : A → outcome B) l x e :
  x ∈ l → f x = Raise e → ∃ e', mapM f l = Raise e'.
Proof.
  intros Hin Hx. induction l as [|y l IH]; [by apply elem_of_nil in Hin|].
  simpl. apply elem_of_cons in Hin as [<-|Hin].
  - rewrite Hx. simpl. eauto.
  - destruct (f y); simpl; [|eauto].
    destruct (IH Hin) as [e' ->]. simpl. eauto.
Qed.

Lemma mapM_Ret {A B} (f : A → outcome B) l :
  (∀ x, x ∈ l → ∃ y, f x = Ret y) → ∃ ys, mapM f l = Ret ys.
Proof.
  induction l as [|x l IH]; intros H; simpl; [eauto|].
  destruct (H x) as [y ->]; [left|]. simpl.
  destruct IH as [ys ->]; [intros; apply H; by right|]. simpl. eauto.
Qed.

Lemma foldM_seq_inv {St} (f : St → nat → outcome St) (P : nat → St → Prop) n : ∀ a s s',
  (∀ k t t', a ≤ k < a + n → P k t → f t k = Ret t' → P (S k) t') →
  P a s → foldM f s (seq a n) = Ret s' → P (a + n) s'.
Proof.
  induction n as [|n IH]; intros a s s' Hstep Ha H; simpl in H.
  - inversion H; subst. by rewrite Nat.add_0_r.
  - apply outcome_bind_Ret in H as (t & Ht & H).
    replace (a + S n) with (S a + n) by lia.
    eapply IH; [|eapply Hstep; [|done..]|done]; [|lia].
    intros k u u' Hk. apply Hstep. lia.
Qed.

Lemma foldM_seq_Ret {St} (f : St → nat → outcome St) (P : nat → St → Prop) n : ∀ a s,
  (∀ k t, a ≤ k < a + n → P k t → ∃ t', f t k = Ret t' ∧ P (S k) t') →
  P a s → ∃ s', foldM f s (seq a n) = Ret s' ∧ P (a + n) s'.
Proof.
  induction n as [|n IH]; intros a s Hstep Ha; simpl.
  - exists s. by rewrite Nat.add_0_r.
  - destruct (Hstep a s) as (t & -> & Ht); [lia|done|]. simpl.
    replace (a + S n) with (S a + n) by lia.
    apply IH; [|done]. intros k u Hk. apply Hstep. lia.
Qed.

(** ** [np.unique]: the inverse index reconstructs the input *)

Section NpUniqueFacts.
Context {A : Type} (leb : A → A → bool) (eqb : A → A → bool).
Hypothesis eqb_sound : ∀ x y, eqb x y = true → x = y.

Lemma insert_sorted_perm p l : insert_sorted leb p l ≡ₚ p :: l.
Proof.
  induction l as [|q l IH]; simpl; [done|].
  destruct (leb p.1 q.1); [done|].
  rewrite IH. apply Permutation_swap.
Qed.

Lemma argsort_perm ar : argsort leb ar ≡ₚ zip ar (seq 0 (length ar)).
Proof.
  unfold argsort. induction (zip ar (seq 0 (length ar))) as [|p l IH]; simpl; [done|].
  by rewrite insert_sorted_perm, IH.
Qed.

(** The running count of [True] cells, minus one, points at the kept
    copy of every value: [pre] is what has been kept so far. *)
Lemma cumsum_points_at aux : ∀ prev pre k x,
  pre !! Nat.pred (length pre) = Some prev →
  aux !! k = Some x →
  ∃ c, cumsum (length pre) (change_mask eqb prev aux) !! k = Some c ∧
       (pre ++ compress (change_mask eqb prev aux) aux) !! Nat.pred c = Some x.
Proof.
  induction aux as [|y aux IH]; intros prev pre k x Hlast Hk; [done|].
  simpl. destruct (eqb y prev) eqn:E; simpl.
  - apply eqb_sound in E. subst y. rewrite Nat.add_0_r.
    destruct k as [|k]; simpl in *.
    + inversion Hk; subst. exists (length pre). split; [done|].
      rewrite lookup_app_l; [done|]. by apply lookup_lt_Some in Hlast.
    + by apply IH.
  - assert (Hy : (pre ++ [y]) !! Nat.pred (length (pre ++ [y])) = Some y).
    { rewrite length_app. simpl.
      apply list_lookup_middle. lia. }
    destruct k as [|k]; simpl in *.
    + inversion Hk; subst. exists (length pre + 1). split; [done|].
      apply list_lookup_middle. lia.
    + destruct (IH y (pre ++ [y]) k x Hy Hk) as (c & Hc & Hu).
      rewrite length_app in Hc. simpl in Hc.
      exists c. split; [done|]. by rewrite <- app_assoc in Hu.
Qed.

Lemma unique_mask_points_at aux k x :
  aux !! k = Some x →
  ∃ c, cumsum 0 (unique_mask eqb aux) !! k = Some c ∧
       compress (unique_mask eqb aux) aux !! Nat.pred c = Some x.
Proof.
  destruct aux as [|y aux]; [done|]. intros Hk. simpl.
  destruct k as [|k]; simpl in *.
  - inversion Hk; subst. by exists 1.
  - destruct (cumsum_points_at aux y [y] k x) as (c & Hc & Hu); try done.
    by exists c.
Qed.

Lemma scatter_untouched (perm imask inv : list nat) p :
  p ∉ perm →
  foldl (λ inv pv, <[pv.1 := pv.2]> inv) inv (zip perm imask) !! p = inv !! p.
Proof.
  revert imask inv. induction perm as [|q perm IH]; intros imask inv Hp; [done|].
  destruct imask as [|v imask]; [done|]. simpl.
  apply not_elem_of_cons in Hp as [Hne Hp].
  rewrite IH; [|done]. by apply list_lookup_insert_ne.
Qed.

Lemma scatter_lookup (perm imask inv : list nat) k p v :
  NoDup perm → p < length inv →
  perm !! k = Some p → imask !! k = Some v →
  foldl (λ inv pv, <[pv.1 := pv.2]> inv) inv (zip perm imask) !! p = Some v.
Proof.
  revert imask inv k. induction perm as [|q perm IH]; intros imask inv k Hnd Hlt Hp Hv; [done|].
  destruct imask as [|w imask]; [done|]. simpl.
  apply NoDup_cons in Hnd as [Hq Hnd].
  destruct k as [|k]; simpl in *.
  - inversion Hp; inversion Hv; subst.
    rewrite scatter_untouched; [|done]. by apply list_lookup_insert_eq.
  - eapply IH; eauto. by rewrite length_insert.
Qed.

Lemma argsort_snd ar : (argsort leb ar).*2 ≡ₚ seq 0 (length ar).
Proof.
  rewrite argsort_perm. rewrite snd_zip; [done|]. by rewrite length_seq.
Qed.

Lemma np_unique_inverse_lookup (ar : list A) i x :
  ar !! i = Some x →
  ∃ j, (np_unique_inverse leb eqb ar).2 !! i = Some j ∧
       (np_unique_inverse leb eqb ar).1 !! j = Some x.
Proof.
  intros Hi. unfold np_unique_inverse. simpl.
  assert (Hin : (x, i) ∈ argsort leb ar).
  { rewrite argsort_perm. apply list_elem_of_lookup. exists i.
    apply lookup_zip_with_Some. exists x, i. split; [done|]. split; [done|].
    apply lookup_seq. split; [done|]. by apply lookup_lt_Some in Hi. }
  apply list_elem_of_lookup in Hin as [k Hk].
  assert (Haux : (argsort leb ar).*1 !! k = Some x) by by rewrite list_lookup_fmap, Hk.
  assert (Hperm : (argsort leb ar).*2 !! k = Some i) by by rewrite list_lookup_fmap, Hk.
  destruct (unique_mask_points_at _ k x Haux) as (c & Hc & Hu).
  exists (Nat.pred c). split; [|done].
  unfold scatter. eapply scatter_lookup; eauto.
  - rewrite argsort_snd. apply NoDup_seq.
  - rewrite length_replicate. by apply lookup_lt_Some in Hi.
  - by rewrite list_lookup_fmap, Hc.
Qed.

Lemma np_unique_elem_of (ar : list A) x : x ∈ np_unique leb eqb ar ↔ x ∈ ar.
Proof.
  split.
  - unfold np_unique, np_unique_inverse. simpl. intros Hx.
    assert (Hsub : ∀ (mask : list bool) (l : list A) y, y ∈ compress mask l → y ∈ l).
    { clear. intros mask. induction mask as [|b mask IH]; intros l y Hy; simpl in Hy; [by apply elem_of_nil in Hy|].
      destruct l as [|z l]; [by apply elem_of_nil in Hy|]. destruct b.
      - apply elem_of_cons in Hy as [->|Hy]; [left|right; by apply IH].
      - right. by apply IH. }
    apply Hsub in Hx. apply list_elem_of_fmap in Hx as ([y i] & -> & Hin).
    rewrite argsort_perm in Hin. apply list_elem_of_lookup in Hin as [k Hk].
    apply lookup_zip_with_Some in Hk as (y' & i' & Heq & Hy & _).
    inversion Heq; subst. by eapply list_elem_of_lookup_2.
  - intros Hx. apply list_elem_of_lookup in Hx as [i Hi].
    destruct (np_unique_inverse_lookup ar i x Hi) as (j & _ & Hj).
    by eapply list_elem_of_lookup_2.
Qed.
End NpUniqueFacts.

(** ** [np.unique]: the values come out sorted and without repetition *)

Section NpUniqueSorted.
Context {A : Type} (leb : A → A → bool) (eqb : A → A → bool).
Hypothesis leb_total : ∀ x y, leb x y = true ∨ leb y x = true.
Hypothesis leb_trans : ∀ x y z, leb x y = true → leb y z = true → leb x z = true.
Hypothesis leb_antisym : ∀ x y, leb x y = true → leb y x = true → x = y.
Hypothesis eqb_eq : ∀ x y, eqb x y = true ↔ x = y.

Lemma insert_sorted_sorted (p : A * nat) l :
  StronglySorted (λ q r, leb q.1 r.1 = true) l →
  StronglySorted (λ q r, leb q.1 r.1 = true) (insert_sorted leb p l).
Proof.
  induction 1 as [|q l Hl IH Hq]; simpl; [repeat constructor|].
  destruct (leb p.1 q.1) eqn:E.
  - constructor; [by constructor|]. constructor; [done|].
    eapply Forall_impl; [exact Hq|]. intros r Hr. simpl in *. by eapply leb_trans.
  - constructor; [done|].
    rewrite insert_sorted_perm. constructor; [|done].
    simpl. destruct (leb_total p.1 q.1) as [H|H]; [congruence|done].
Qed.

Lemma argsort_sorted (ar : list A) :
  StronglySorted (λ q r, leb q.1 r.1 = true) (argsort leb ar).
Proof.
  unfold argsort. induction (zip ar (seq 0 (length ar))) as [|p l IH]; simpl.
  - constructor.
  - by apply insert_sorted_sorted.
Qed.

(** Keeping the values that differ from their predecessor in a sorted
    list: what is kept is strictly increasing and lies strictly above the
    value before the list. *)
Lemma compress_change_mask_sorted (aux : list A) : ∀ prev,
  StronglySorted (λ x y, leb x y = true) aux →
  Forall (λ x, leb prev x = true) aux →
  StronglySorted (λ x y, leb x y = true ∧ x ≠ y)
    (compress (change_mask eqb prev aux) aux) ∧
  Forall (λ y, leb prev y = true ∧ prev ≠ y) (compress (change_mask eqb prev aux) aux).
Proof.
  induction aux as [|x aux IH]; intros prev Hs Hp; simpl.
  - split; constructor.
  - apply StronglySorted_inv in Hs as [Hs Hx].
    apply Forall_cons in Hp as [Hpx Hp].
    destruct (IH x Hs Hx) as [IHs IHf].
    destruct (eqb x prev) eqn:E; simpl.
    + apply eqb_eq in E. subst x. done.
    + assert (Hne : prev ≠ x).
      { intros ->. assert (eqb x x = true) by by apply eqb_eq. congruence. }
      split.
      * constructor; [done|]. done.
      * constructor; [done|].
        eapply Forall_impl; [exact IHf|]. intros y [Hxy Hny]. simpl. split.
        -- by eapply leb_trans.
        -- intros ->. apply Hny. by apply leb_antisym.
Qed.

Lemma np_unique_sorted (ar : list A) :
  StronglySorted (λ x y, leb x y = true ∧ x ≠ y) (np_unique leb eqb ar).
Proof.
  unfold np_unique, np_unique_inverse. simpl.
  assert (Hs : StronglySorted (λ x y, leb x y = true) (argsort leb ar).*1).
  { pose proof (argsort_sorted ar) as H.
    induction H as [|q l Hl IH Hq]; simpl; constructor; [done|].
    apply Forall_fmap. eapply Forall_impl; [exact Hq|]. done. }
  destruct ((argsort leb ar).*1) as [|x aux]; simpl; [constructor|].
  apply StronglySorted_inv in Hs as [Hs Hx].
  destruct (compress_change_mask_sorted aux x Hs Hx) as [IHs IHf].
  constructor; done.
Qed.

Lemma np_unique_NoDup (ar : list A) : NoDup (np_unique leb eqb ar).
Proof.
  pose proof (np_unique_sorted ar) as H.
  induction H as [|x l Hl IH Hx]; constructor; [|done].
  intros Hin. eapply Forall_forall in Hx; [|exact Hin]. by destruct Hx.
Qed.
End NpUniqueSorted.

(** ** The temporal validator *)

Lemma date_check_inside t date_start date_end :
  (date_start ≤ t ≤ date_end)%Z → date_check (Some t) date_start date_end = Some t.
Proof.
  intros [H1 H2]. unfold date_check. simpl.
  apply Z.leb_le in H1, H2. by rewrite H1, H2.
Qed.

Lemma date_check_outside t date_start date_end :
  ¬ (date_start ≤ t ≤ date_end)%Z → date_check (Some t) date_start date_end = NaT.
Proof.
  intros H. unfold date_check. simpl.
  destruct (date_start <=? t)%Z eqn:E1; [|done].
  destruct (t <=? date_end)%Z eqn:E2; [|done].
  apply Z.leb_le in E1, E2. lia.
Qed.

Lemma date_check_NaT date_start date_end : date_check NaT date_start date_end = NaT.
Proof. done. Qed.

Lemma valid_times_date_check (x : list datetime64) date_start date_end :
  valid_times ((λ d, date_check d date_start date_end) <$> x) =
  base.filter (λ t, in_window date_start date_end t = true) (valid_times x).
Proof.
  unfold valid_times. induction x as [|d x IH]; [done|].
  destruct d as [t|]; [|exact IH].
  rewrite fmap_cons. cbn [omap list_omap].
  rewrite filter_cons. unfold date_check at 1. cbn [le_dt dt_le].
  fold (in_window date_start date_end t).
  destruct (in_window date_start date_end t) eqn:E.
  - rewrite decide_True by done. f_equal. exact IH.
  - rewrite decide_False by done. exact IH.
Qed.

Lemma valid_times_no_NaT (x : list datetime64) t :
  t ∈ valid_times x ↔ Some t ∈ x.
Proof.
  unfold valid_times. rewrite list_elem_of_omap. split.
  - by intros (d & Hd & ->).
  - intros H. by exists (Some t).
Qed.

(** ** The single-file extractor *)

Section ExtractorFacts.
Context {coord : Type} (coord_leb coord_eqb : coord → coord → bool).
Context {V : Type} (nan : V) (uninit : nat → nat → V).
Context (nearest : list coord → coord → option nat).
Context (interp : list Z → list V → Z → V).
Context (fs : string → option (@Dataset coord V)).

Local Abbreviation open_selection := (open_selection nearest fs).
Local Abbreviation select_times := (select_times nan interp).
Local Abbreviation station_data_of := (station_data_of nan uninit nearest).
Local Abbreviation extract_run :=
  (extract_run coord_leb coord_eqb nan uninit nearest interp fs).
Local Abbreviation extract_dataset :=
  (extract_dataset coord_leb coord_eqb nan uninit nearest interp fs).
Local Abbreviation lons_unique lons := (np_unique coord_leb coord_eqb lons).
Local Abbreviation lats_unique lats := (np_unique coord_leb coord_eqb lats).

Lemma lookup_var_prod_map {F G} (g : F → G) name (vars : list (string * F)) :
  lookup_var name (prod_map (λ n, n) g <$> vars) = g <$> lookup_var name vars.
Proof.
  induction vars as [|[n f] vars IH]; [done|].
  simpl. by destruct (String.eqb n name).
Qed.

Lemma ds_sel_nearest_time (ds ds' : @Dataset coord V) lats lons :
  ds_sel_nearest nearest ds lats lons = Ret ds' → ds_time ds' = ds_time ds.
Proof.
  unfold ds_sel_nearest. intros H.
  repeat (apply outcome_bind_Ret in H as (? & _ & H)).
  by inversion H.
Qed.

Lemma ds_sel_nearest_vars (ds ds' : @Dataset coord V) lats lons name :
  ds_sel_nearest nearest ds lats lons = Ret ds' →
  lookup_var name (ds_vars ds) = None → lookup_var name (ds_vars ds') = None.
Proof.
  unfold ds_sel_nearest. intros H Hname.
  repeat (apply outcome_bind_Ret in H as (? & _ & H)).
  inversion H; subst; simpl. by rewrite lookup_var_prod_map, Hname.
Qed.

Lemma ds_getitem_list_time (ds ds' : @Dataset coord V) variables :
  variables ≠ [] → ds_getitem_list ds variables = Ret ds' → ds_time ds' = ds_time ds.
Proof.
  unfold ds_getitem_list. intros Hv H.
  apply outcome_bind_Ret in H as (vars & Hvars & H). apply mapM_length in Hvars.
  destruct vars as [|v vars]; [by destruct variables|]. by inversion H.
Qed.

(** a selection has fields exactly when a name is listed *)
Lemma ds_getitem_list_vars (ds ds' : @Dataset coord V) variables :
  ds_getitem_list ds variables = Ret ds' → length (ds_vars ds') = length variables.
Proof.
  unfold ds_getitem_list. intros H.
  apply outcome_bind_Ret in H as (vars & Hvars & H). apply mapM_length in Hvars.
  destruct vars as [|v vars]; inversion H; subst; simpl in *; done.
Qed.

Lemma ds_getitem_list_missing (ds : @Dataset coord V) variables name :
  name ∈ variables → lookup_var name (ds_vars ds) = None →
  ∃ e, ds_getitem_list ds variables = Raise e.
Proof.
  intros Hin Hname. unfold ds_getitem_list.
  edestruct (mapM_Raise
    (λ name, f ← or_raise KeyError (lookup_var name (ds_vars ds)); mret (name, f))
    variables name KeyError Hin) as [e ->].
  - by rewrite Hname.
  - simpl. eauto.
Qed.

(** every requested name is a field of what [ds[variables]] returns *)
Lemma ds_getitem_list_present (ds ds' : @Dataset coord V) variables name :
  ds_getitem_list ds variables = Ret ds' → name ∈ variables →
  is_Some (lookup_var name (ds_vars ds')).
Proof.
  unfold ds_getitem_list. intros H Hin.
  apply outcome_bind_Ret in H as (vars & Hvars & H).
  assert (Hname : is_Some (lookup_var name vars)).
  { clear H. revert vars Hvars.
    induction variables as [|n variables IH]; intros vars Hvars.
    - by apply elem_of_nil in Hin.
    - simpl in Hvars. apply outcome_bind_Ret in Hvars as ([n' f] & Hf & Hvars).
      apply outcome_bind_Ret in Hf as (f' & _ & Hf). inversion Hf; subst.
      apply outcome_bind_Ret in Hvars as (vars' & Hvars' & Hvars).
      inversion Hvars; subst. simpl.
      destruct (String.eqb n' name) eqn:E; [eauto|].
      apply elem_of_cons in Hin as [->|Hin].
      + by rewrite String.eqb_refl in E.
      + by apply IH. }
  destruct vars as [|v vars]; [by destruct Hname|]. by inversion H; subst.
Qed.

(** The first [try] block opens the file and does nothing else that can
    be observed. *)
Lemma open_selection_trace lats_u lons_u path variables :
  (open_selection lats_u lons_u path variables).1 = [EvOpen path].
Proof.
  unfold open_selection, xr_open_dataset. simpl.
  by destruct (fs path) as [ds|].
Qed.

Lemma open_selection_time lats_u lons_u path variables tr dataset :
  variables ≠ [] →
  open_selection lats_u lons_u path variables = (tr, Ret dataset) →
  ∃ file, fs path = Some file ∧ ds_time dataset = ds_time file.
Proof.
  unfold open_selection, xr_open_dataset. simpl. intros Hv.
  destruct (fs path) as [ds|]; simpl; [|done].
  destruct (ds_sel_nearest _ _ _ _) as [ds'|] eqn:E1; simpl; [|done].
  destruct (ds_getitem_list _ _) as [ds''|] eqn:E2; simpl; [|done].
  intros H. inversion H; subst. exists ds. split; [done|].
  apply ds_getitem_list_time in E2; [|done]. apply ds_sel_nearest_time in E1. congruence.
Qed.

(** what the first [try] block returns has a field for each listed name *)
Lemma open_selection_vars lats_u lons_u path variables tr dataset :
  open_selection lats_u lons_u path variables = (tr, Ret dataset) →
  length (ds_vars dataset) = length variables.
Proof.
  unfold open_selection, xr_open_dataset. simpl.
  destruct (fs path) as [ds|]; simpl; [|done].
  destruct (ds_sel_nearest _ _ _ _) as [ds'|] eqn:E1; simpl; [|done].
  destruct (ds_getitem_list _ _) as [ds''|] eqn:E2; simpl; [|done].
  intros H. inversion H; subst. by eapply ds_getitem_list_vars.
Qed.

(** line 60 on such a selection *)
Lemma ds_getitem_time_Ret (dataset : @Dataset coord V) :
  ds_vars dataset ≠ [] → ds_getitem_time dataset = Ret (ds_time dataset).
Proof. unfold ds_getitem_time. by destruct (ds_vars dataset). Qed.

Lemma ds_getitem_time_Raise (dataset : @Dataset coord V) :
  ds_vars dataset = [] → ds_getitem_time dataset = Raise KeyError.
Proof. unfold ds_getitem_time. by intros ->. Qed.

Lemma open_selection_missing lats_u lons_u path variables file name :
  fs path = Some file → name ∈ variables → lookup_var name (ds_vars file) = None →
  ∃ e, open_selection lats_u lons_u path variables = ([EvOpen path], Raise e).
Proof.
  intros Hfile Hin Hname. unfold open_selection, xr_open_dataset. simpl.
  rewrite Hfile. simpl.
  destruct (ds_sel_nearest _ _ _ _) as [ds'|] eqn:E1; simpl; [|eauto].
  destruct (ds_getitem_list_missing ds' variables name Hin) as [e ->]; [|eauto].
  by eapply ds_sel_nearest_vars.
Qed.

Lemma select_times_trace (dataset : @Dataset coord V) ts interpolate :
  (select_times dataset ts interpolate).1 = [].
Proof.
  unfold select_times. destruct (ds_getitem_time dataset) as [time|e]; [|done].
  cbn [lift mbind Py_bind fst snd app]. destruct (1 <? _); [|done].
  destruct interpolate.
  - by destruct (ds_interp_time nan interp dataset ts).
  - by destruct (ds_sel_time dataset ts).
Qed.

(** how the time selection returns a dataset *)
Lemma select_times_Ret (dataset D : @Dataset coord V) ts interpolate tr :
  select_times dataset ts interpolate = (tr, Ret (Some D)) →
  ds_vars dataset ≠ [] ∧
  ((1 < length (ds_time dataset) ∧ interpolate = true ∧
    ts ≠ [] ∧ ds_interp_time nan interp dataset ts = Ret D) ∨
   (1 < length (ds_time dataset) ∧ interpolate = false ∧
    ds_sel_time dataset ts = Ret D) ∨
   (length (ds_time dataset) ≤ 1 ∧ D = dataset)).
Proof.
  unfold select_times, ds_getitem_time. intros H.
  destruct (ds_vars dataset) as [|v vs] eqn:Ev; [done|]. split; [done|].
  cbn [lift mbind Py_bind fst snd app] in H.
  destruct (1 <? length (ds_time dataset)) eqn:E.
  - apply Nat.ltb_lt in E. destruct interpolate.
    + left. destruct ts as [|t ts]; [done|]. simpl in H. inversion H; subst. done.
    + right. left. destruct (ds_sel_time dataset ts) as [D'|]; simpl in H; [|done].
      inversion H; subst. done.
  - apply Nat.ltb_ge in E. right. right. inversion H; subst. done.
Qed.

(** and when it does: the selection has a field, and in interpolation
    mode on more than one time step a timestamp is requested *)
Lemma select_times_interp (dataset : @Dataset coord V) ts :
  ds_vars dataset ≠ [] → (1 < length (ds_time dataset) → ts ≠ []) →
  ∃ D, select_times dataset ts true = ([], Ret (Some D)) ∧
       ds_lat D = ds_lat dataset ∧ ds_lon D = ds_lon dataset ∧
       (length (ds_time dataset) ≤ 1 → D = dataset) ∧
       (1 < length (ds_time dataset) → ds_time D = ts) ∧
       ∀ name, is_Some (lookup_var name (ds_vars dataset)) →
               is_Some (lookup_var name (ds_vars D)).
Proof.
  intros Hv Hts. unfold select_times. rewrite ds_getitem_time_Ret by done.
  cbn [lift mbind Py_bind fst snd app].
  destruct (1 <? length (ds_time dataset)) eqn:E.
  - apply Nat.ltb_lt in E. destruct ts as [|t ts]; [by specialize (Hts E)|].
    eexists. split; [reflexivity|]. split; [done|]. split; [done|].
    split; [lia|]. split; [done|].
    intros name [f Hf]. simpl. rewrite lookup_var_prod_map, Hf. simpl. eauto.
  - apply Nat.ltb_ge in E. exists dataset. split; [done|]. split; [done|].
    split; [done|]. split; [done|]. split; [lia|]. done.
Qed.

Lemma extract_dataset_run lats lons path variables datetime interpolate :
  extract_run lats lons path variables datetime interpolate
    (extract_dataset lats lons path variables (TimeMatrix datetime) interpolate).
Proof.
  unfold extract_dataset.
  pose proof (open_selection_trace (lats_unique lats) (lons_unique lons) path variables) as Htr.
  destruct (open_selection _ _ _ _) as [tr [dataset|e]] eqn:Eopen;
    simpl in Htr; subst tr; simpl.
  2: { by eapply run_open_failed. }
  destruct (datetime_for_station_of datetime (length lons)) as [dfs|e] eqn:Edfs; simpl.
  2: { by eapply run_column_failed. }
  pose proof (select_times_trace dataset (datetime_for_interp_of datetime) interpolate)
    as Hnil.
  destruct (select_times _ _ _) as [tr [sel|e]] eqn:Esel; simpl in *; subst tr.
  2: { by eapply run_selection_raised. }
  simpl. destruct sel as [sel|]; simpl.
  - replace (_, _) with
      ([EvOpen path],
       VarList <$> mapM (station_data_of sel lats lons (lons_unique lons) datetime dfs
                           interpolate) variables).
    + by eapply run_assembled.
    + by destruct (mapM _ variables).
  - by eapply run_selection_failed.
Qed.

Lemma index_of_Some t axis j : index_of t axis = Some j → axis !! j = Some t.
Proof.
  revert j. induction axis as [|x axis IH]; intros j H; [done|].
  simpl in H. destruct (x =? t)%Z eqn:E.
  - inversion H; subst. apply Z.eqb_eq in E. by subst.
  - destruct (index_of t axis) as [j'|]; [|done]. inversion H; subst. by apply IH.
Qed.

Lemma index_of_None t axis : index_of t axis = None ↔ t ∉ axis.
Proof.
  induction axis as [|x axis IH]; simpl.
  - split; [intros _; apply not_elem_of_nil|done].
  - rewrite not_elem_of_cons. destruct (x =? t)%Z eqn:E.
    + apply Z.eqb_eq in E. split; [done|]. intros [? _]. congruence.
    + apply Z.eqb_neq in E. destruct (index_of t axis); simpl.
      * split; [done|]. intros [_ H]. by apply IH in H.
      * split; [|done]. intros _. split; [congruence|]. by apply IH.
Qed.

Lemma datetime_for_interp_elem_of (datetime : ndarray datetime64) t :
  t ∈ datetime_for_interp_of datetime ↔ Some t ∈ concat (rows datetime).
Proof.
  unfold datetime_for_interp_of. rewrite np_unique_elem_of.
  - apply valid_times_no_NaT.
  - intros x y. apply Z.eqb_eq.
Qed.

Lemma ds_sel_time_missing (dataset : @Dataset coord V) ts t :
  t ∈ ts → t ∉ ds_time dataset → ∃ e, ds_sel_time dataset ts = Raise e.
Proof.
  intros Hin Hout. unfold ds_sel_time.
  edestruct (mapM_Raise (λ t, or_raise KeyError (index_of t (ds_time dataset)))
               ts t KeyError Hin) as [e ->].
  - apply index_of_None in Hout. by rewrite Hout.
  - simpl. eauto.
Qed.

(** Exact selection, when every label is on the native axis: the labels
    become the time axis and each field is read at the native position of
    its label. *)
Lemma ds_sel_time_exact (dataset : @Dataset coord V) ts :
  (∀ t, t ∈ ts → t ∈ ds_time dataset) →
  ∃ idx, Forall2 (λ t j, ds_time dataset !! j = Some t) ts idx ∧
    ds_sel_time dataset ts =
      Ret (MkDataset ts (ds_lat dataset) (ds_lon dataset)
             (prod_map (λ name, name) (λ f k a b, f (idx !!! k) a b)
                <$> ds_vars dataset)).
Proof.
  intros Hall. unfold ds_sel_time.
  destruct (mapM_Ret (λ t, or_raise KeyError (index_of t (ds_time dataset))) ts)
    as [idx Hidx].
  - intros t Ht. destruct (index_of t (ds_time dataset)) as [j|] eqn:E; [by exists j|].
    apply index_of_None in E. by apply Hall in Ht.
  - exists idx. rewrite Hidx. split; [|done]. clear Hall.
    revert idx Hidx. induction ts as [|t ts IH]; intros idx Hidx; simpl in Hidx.
    + inversion Hidx. constructor.
    + apply outcome_bind_Ret in Hidx as (j & Hj & Hidx).
      apply outcome_bind_Ret in Hidx as (idx' & Hidx' & Hidx).
      inversion Hidx; subst. constructor; [|by apply IH].
      destruct (index_of t (ds_time dataset)) eqn:E; [|done].
      inversion Hj; subst. by apply index_of_Some.
Qed.

(** The guard of lines 39-41 on the literal empty list: the call returns
    the empty result list at once; this is a normal return, it is neither
    of the failure integers -1 and -2, and no dataset file is opened (the
    trace of the call is empty). *)
Lemma empty_request_returns_empty lats lons dataset_path variables interpolate :
  extract_dataset lats lons dataset_path variables EmptyList interpolate
    = ([], Ret (VarList [])) ∧
  VarList (V:=V) [] ≠ PyInt (-1) ∧ VarList (V:=V) [] ≠ PyInt (-2) ∧
  ∀ path, EvOpen path ∉
    (extract_dataset lats lons dataset_path variables EmptyList interpolate).1.
Proof.
  repeat split; try done. intros path. simpl. apply not_elem_of_nil.
Qed.

(** C3: when the file opens and a requested variable name is not one of
    its fields, the call returns the integer -1 (after printing its
    message): no exception reaches the caller and there is no list of
    matrices, not even a partial one. *)
Theorem missing_variable_returns_minus_one lats lons dataset_path variables datetime
    interpolate file name :
  fs dataset_path = Some file →
  name ∈ variables →
  lookup_var name (ds_vars file) = None →
  extract_dataset lats lons dataset_path variables (TimeMatrix datetime) interpolate
    = ([EvOpen dataset_path; EvPrint msg_missing_variable], Ret (PyInt (-1))).
Proof.
  intros Hfile Hin Hname.
  destruct (open_selection_missing (lats_unique lats) (lons_unique lons)
              dataset_path variables file name Hfile Hin Hname) as [e He].
  pose proof (extract_dataset_run lats lons dataset_path variables datetime interpolate)
    as Hrun.
  inversion Hrun as [e' Hopen Heq|ds e' Hopen|ds dfs e' Hopen|ds dfs Hopen
                     |ds dfs sel Hopen];
    rewrite He in Hopen; done.
Qed.

(** C4: exact mode ([interpolate=False]) on a file whose native time axis
    has more than one step, once the file is open with the requested
    variables, of which there is at least one, and every station has its
    column in the request.  If a valid
    requested timestamp is not on the native axis the call returns the
    integer -2 and no matrices; if all of them are, the exact selection
    succeeds: its time axis is the sorted set of requested timestamps, each
    field is read at the native position of its label (no interpolation),
    and the call goes on to assemble the matrices from it. *)
Theorem exact_mode_time_mismatch lats lons dataset_path variables datetime
    dataset datetime_for_station :
  open_selection (lats_unique lats) (lons_unique lons) dataset_path variables
    = ([EvOpen dataset_path], Ret dataset) →
  variables ≠ [] →
  datetime_for_station_of datetime (length lons) = Ret datetime_for_station →
  1 < length (ds_time dataset) →
  ((∃ t, Some t ∈ concat (rows datetime) ∧ t ∉ ds_time dataset) →
     extract_dataset lats lons dataset_path variables (TimeMatrix datetime) false
       = ([EvOpen dataset_path; EvPrint msg_time_mismatch], Ret (PyInt (-2)))) ∧
  ((∀ t, Some t ∈ concat (rows datetime) → t ∈ ds_time dataset) →
     ∃ idx dataset_interpolation,
       Forall2 (λ t j, ds_time dataset !! j = Some t) (datetime_for_interp_of datetime) idx ∧
       dataset_interpolation =
         MkDataset (datetime_for_interp_of datetime) (ds_lat dataset) (ds_lon dataset)
           (prod_map (λ name, name) (λ f k a b, f (idx !!! k) a b) <$> ds_vars dataset) ∧
       ds_sel_time dataset (datetime_for_interp_of datetime) = Ret dataset_interpolation ∧
       extract_dataset lats lons dataset_path variables (TimeMatrix datetime) false
         = ([EvOpen dataset_path],
            VarList <$> mapM (station_data_of dataset_interpolation lats lons
                                (lons_unique lons) datetime datetime_for_station false)
                          variables)).
Proof.
  intros Hopen Hv Hdfs Hsize.
  pose proof (extract_dataset_run lats lons dataset_path variables datetime false) as Hrun.
  assert (Hsel : select_times dataset (datetime_for_interp_of datetime) false
                 = attempt (lift (ds_sel_time dataset (datetime_for_interp_of datetime)))).
  { unfold select_times. rewrite ds_getitem_time_Ret.
    - cbn [lift mbind Py_bind fst snd app]. apply Nat.ltb_lt in Hsize. rewrite Hsize.
      by destruct (attempt _).
    - apply open_selection_vars in Hopen. intros Hnil. rewrite Hnil in Hopen.
      by destruct variables. }
  split.
  - intros (t & Hin & Hout).
    apply datetime_for_interp_elem_of in Hin.
    destruct (ds_sel_time_missing dataset _ t Hin Hout) as [e He].
    rewrite He in Hsel.
    inversion Hrun as [e' Ho|ds e' Ho Hd|ds dfs e' Ho Hd Hs|ds dfs Ho Hd Hs
                       |ds dfs sel Ho Hd Hs];
      rewrite Hopen in Ho; try done.
    + rewrite Hdfs in Hd. done.
    + inversion Ho; subst ds. rewrite Hsel in Hs. done.
    + inversion Ho; subst ds. rewrite Hsel in Hs. done.
  - intros Hall.
    destruct (ds_sel_time_exact dataset (datetime_for_interp_of datetime)) as (idx & Hidx & He).
    { intros t Ht. apply Hall. by apply datetime_for_interp_elem_of. }
    rewrite He in Hsel. eexists idx, _. split; [done|]. split; [done|]. split; [done|].
    inversion Hrun as [e' Ho|ds e' Ho Hd|ds dfs e' Ho Hd Hs|ds dfs Ho Hd Hs
                       |ds dfs sel Ho Hd Hs];
      rewrite Hopen in Ho; try done.
    + rewrite Hdfs in Hd. done.
    + inversion Ho; subst ds. rewrite Hsel in Hs. done.
    + inversion Ho; subst ds. rewrite Hsel in Hs. done.
    + inversion Ho; subst ds. rewrite Hsel in Hs. rewrite Hdfs in Hd.
      inversion Hs; inversion Hd; subst. done.
Qed.

(** *** The request restricted to the window of a file *)

Lemma mapM_getitem_fmap {A B} (f : A → B) (rs : list (list A)) s :
  mapM (λ r, getitem r s) (map (map f) rs) = map f <$> mapM (λ r, getitem r s) rs.
Proof.
  induction rs as [|r rs IH]; [done|]. simpl. rewrite IH.
  unfold getitem. change (map f r) with (f <$> r). rewrite list_lookup_fmap.
  destruct (r !! s); simpl; [|done]. by destruct (mapM _ rs).
Qed.

Lemma column_nd_map {A B} (f : A → B) n (rs : list (list A)) s :
  column (NdArray n (map (map f) rs)) s = map f <$> column (NdArray n rs) s.
Proof.
  unfold column. simpl. destruct (s <? n); [|done]. apply mapM_getitem_fmap.
Qed.

Lemma restrict_request_window datearray (dataset : @Dataset coord V) req :
  restrict_request datearray dataset = Ret req →
  ∃ first_time last_time,
    ds_time dataset !! 0 = Some first_time ∧ last (ds_time dataset) = Some last_time ∧
    size datearray ≠ 0 ∧
    req = NdArray (ncols datearray)
            (map (map (λ d, date_check d (first_time - halfhour) (last_time + halfhour)))
               (rows datearray)).
Proof.
  unfold restrict_request, getitem. intros H.
  destruct (ds_time dataset !! 0) as [t0|]; [|done]. simpl in H.
  destruct (last (ds_time dataset)) as [t1|]; [|done]. simpl in H.
  unfold date_check_vec in H. destruct (size datearray =? 0) eqn:E; [done|].
  destruct (existsb isnat (concat (rows datearray))); [done|].
  apply Nat.eqb_neq in E. inversion H. by exists t0, t1.
Qed.

(** the stitcher's restriction returns only for a request without NaT *)
Lemma restrict_request_no_NaT datearray (dataset : @Dataset coord V) req :
  restrict_request datearray dataset = Ret req →
  existsb isnat (concat (rows datearray)) = false.
Proof.
  unfold restrict_request, getitem. intros H.
  destruct (ds_time dataset !! 0) as [t0|]; [|done]. simpl in H.
  destruct (last (ds_time dataset)) as [t1|]; [|done]. simpl in H.
  unfold date_check_vec in H. destruct (size datearray =? 0) eqn:E; [done|].
  by destruct (existsb isnat (concat (rows datearray))).
Qed.

(** and it is the validator applied to every cell, for a request of
    positive size without NaT and a file with a time axis *)
Lemma restrict_request_Ret datearray (dataset : @Dataset coord V) first_time last_time :
  ds_time dataset !! 0 = Some first_time → last (ds_time dataset) = Some last_time →
  size datearray ≠ 0 → existsb isnat (concat (rows datearray)) = false →
  restrict_request datearray dataset
  = Ret (NdArray (ncols datearray)
           (map (map (λ d, date_check d (first_time - halfhour) (last_time + halfhour)))
              (rows datearray))).
Proof.
  intros H0 H1 Hsize Hnat. unfold restrict_request, getitem. rewrite H0. simpl.
  rewrite H1. simpl. unfold date_check_vec. apply Nat.eqb_neq in Hsize.
  by rewrite Hsize, Hnat.
Qed.

(** C2: the temporal validator keeps a timestamp inside the inclusive
    window and answers NaT outside of it (and for NaT itself); in the
    stitcher the window of a file is its first native time minus 30
    minutes to its last plus 30 minutes, and the valid-time sequence that
    [extract_dataset] then builds for a station is exactly the station's
    requested timestamps that lie in that window, in their order: the NaT
    entries are removed, not kept as placeholders. *)
Theorem temporal_validator_filters datearray (dataset : @Dataset coord V) req nstations
    datetime_for_station :
  restrict_request datearray dataset = Ret req →
  datetime_for_station_of req nstations = Ret datetime_for_station →
  (∀ t date_start date_end,
     ((date_start ≤ t ≤ date_end)%Z → date_check (Some t) date_start date_end = Some t) ∧
     (¬ (date_start ≤ t ≤ date_end)%Z → date_check (Some t) date_start date_end = NaT) ∧
     date_check NaT date_start date_end = NaT) ∧
  ∃ first_time last_time,
    ds_time dataset !! 0 = Some first_time ∧ last (ds_time dataset) = Some last_time ∧
    length datetime_for_station = nstations ∧
    ∀ s, s < nstations →
      ∃ requested,
        column datearray s = Ret requested ∧
        datetime_for_station !! s =
          Some (base.filter
                  (λ t, in_window (first_time - 1800) (last_time + 1800) t = true)
                  (valid_times requested)).
Proof.
  intros Hreq Hdfs. split.
  { intros t a b. split; [apply date_check_inside|]. split; [apply date_check_outside|].
    apply date_check_NaT. }
  apply restrict_request_window in Hreq as (t0 & t1 & H0 & H1 & _ & ->).
  exists t0, t1. split; [done|]. split; [done|]. split.
  { apply mapM_length in Hdfs. by rewrite length_seq in Hdfs. }
  intros s Hs. unfold datetime_for_station_of in Hdfs.
  destruct (mapM_lookup _ _ _ s s Hdfs) as (y & Hy & Hlook).
  { apply lookup_seq. lia. }
  apply outcome_bind_Ret in Hy as (col' & Hcol' & Hy). inversion Hy; subst y.
  rewrite column_nd_map in Hcol'.
  destruct (column (NdArray (ncols datearray) (rows datearray)) s) as [col|] eqn:Ecol;
    [|done].
  simpl in Hcol'. inversion Hcol'; subst col'.
  exists col. split; [by destruct datearray|].
  rewrite Hlook. f_equal. apply valid_times_date_check.
Qed.
End ExtractorFacts.

(** ** The coordinate resolver *)

Section CoordinateResolver.
Context {coord : Type} (coord_leb coord_eqb : coord → coord → bool).
Hypothesis coord_eqb_sound : ∀ x y, coord_eqb x y = true → x = y.

(** C7: for latitude and longitude sequences of equal length and every
    station index [i], the inverse index of [np.unique] at [i] points, in
    the unique values, at the station's own latitude, and likewise for the
    longitude: the pair of coordinates is recovered exactly. *)
Theorem coordinate_dedup_roundtrip (lats lons : list coord) i :
  length lats = length lons → i < length lats →
  ∃ lat lon lats_index_i lons_index_i,
    lats !! i = Some lat ∧ lons !! i = Some lon ∧
    (np_unique_inverse coord_leb coord_eqb lats).2 !! i = Some lats_index_i ∧
    np_unique coord_leb coord_eqb lats !! lats_index_i = Some lat ∧
    (np_unique_inverse coord_leb coord_eqb lons).2 !! i = Some lons_index_i ∧
    np_unique coord_leb coord_eqb lons !! lons_index_i = Some lon.
Proof.
  intros Hlen Hi.
  destruct (lookup_lt_is_Some_2 lats i Hi) as [lat Hlat].
  destruct (lookup_lt_is_Some_2 lons i) as [lon Hlon]; [lia|].
  destruct (np_unique_inverse_lookup coord_leb coord_eqb coord_eqb_sound lats i lat Hlat)
    as (j & Hj & Hu).
  destruct (np_unique_inverse_lookup coord_leb coord_eqb coord_eqb_sound lons i lon Hlon)
    as (k & Hk & Hv).
  by exists lat, lon, j, k.
Qed.
End CoordinateResolver.

(** ** Static extraction ([interpolate=False]) *)

Lemma mapM_Forall2 {A B} (f : A → outcome B) l ys :
  mapM f l = Ret ys → Forall2 (λ x y, f x = Ret y) l ys.
Proof.
  revert ys. induction l as [|x l IH]; intros ys H; simpl in H.
  - inversion H. constructor.
  - apply outcome_bind_Ret in H as (y & Hy & H).
    apply outcome_bind_Ret in H as (ys' & Hys & H).
    inversion H; subst. constructor; [done|]. by apply IH.
Qed.

Lemma compress_length {B} (mask : list bool) (l : list B) :
  length (compress mask l) ≤ length l.
Proof.
  revert l. induction mask as [|b mask IH]; intros l; simpl; [lia|].
  destruct l as [|x l]; [done|]. simpl. specialize (IH l). destruct b; simpl; lia.
Qed.

Lemma np_unique_length_le {A} (leb eqb : A → A → bool) (ar : list A) :
  length (np_unique leb eqb ar) ≤ length ar.
Proof.
  unfold np_unique, np_unique_inverse. simpl.
  etrans; [apply compress_length|].
  rewrite length_fmap. rewrite (Permutation_length (argsort_perm leb ar)).
  rewrite length_zip_with, length_seq. lia.
Qed.

Lemma broadcast_to_same {A} (v : list A) : broadcast_to (length v) v = Ret v.
Proof. unfold broadcast_to. by rewrite Nat.eqb_refl. Qed.

Lemma set_row_Ret {A} s (x : A) (a a' : ndarray A) :
  ncols a = 1 → set_row s [x] a = Ret a' →
  s < nrows a ∧ a' = NdArray 1 (<[s:=[x]]> (rows a)).
Proof.
  unfold set_row. intros Hc H. destruct (s <? nrows a) eqn:E; [|done].
  apply Nat.ltb_lt in E. split; [done|].
  rewrite Hc in H. by inversion H.
Qed.

Section StaticFacts.
Context {coord : Type} (coord_leb coord_eqb : coord → coord → bool).
Context {V : Type} (nan : V) (uninit : nat → nat → V).
Context (nearest : list coord → coord → option nat).
Context (interp : list Z → list V → Z → V).
Context (fs : string → option (@Dataset coord V)).

Local Abbreviation station_row := (station_row nearest).
Local Abbreviation da_sel_point := (da_sel_point nearest).
Local Abbreviation open_selection := (open_selection nearest fs).
Local Abbreviation select_times := (select_times nan interp).
Local Abbreviation station_data_of := (station_data_of nan uninit nearest).
Local Abbreviation extract_dataset :=
  (extract_dataset coord_leb coord_eqb nan uninit nearest interp fs).
Local Abbreviation lons_unique lons := (np_unique coord_leb coord_eqb lons).
Local Abbreviation lats_unique lats := (np_unique coord_leb coord_eqb lats).

Local Abbreviation static_rows_inv := (static_rows_inv (V:=V) nearest).

Lemma np_empty_shape r c :
  ncols (np_empty uninit r c) = c ∧ nrows (np_empty uninit r c) = r ∧
  wf_ndarray (np_empty uninit r c).
Proof.
  unfold np_empty, nrows, wf_ndarray. simpl.
  rewrite length_fmap, length_seq. repeat split.
  apply Forall_fmap, Forall_forall. intros i _. simpl.
  by rewrite length_fmap, length_seq.
Qed.

Lemma station_row_step D name lats lons u k M M' :
  static_rows_inv D name lats lons u k M →
  station_row D name lats lons M k = Ret M' →
  static_rows_inv D name lats lons u (S k) M'.
Proof.
  intros (Hc & Hr & Hwf & Hk & Hrows) H. unfold station_row in H.
  apply outcome_bind_Ret in H as (lat & Hlat & H).
  apply outcome_bind_Ret in H as (lon & Hlon & H).
  apply outcome_bind_Ret in H as (da & Hda & H).
  apply outcome_bind_Ret in H as (x & Hx & H).
  apply set_row_Ret in H as [Hlt ->]; [|done].
  unfold getitem in Hlat, Hlon, Hx.
  destruct (lats !! k) as [lat'|] eqn:Elat; [|done].
  destruct (lons !! k) as [lon'|] eqn:Elon; [|done].
  destruct (da.2 !! 0) as [x'|] eqn:Ex; [|done].
  inversion Hlat; inversion Hlon; inversion Hx; subst.
  unfold nrows in Hlt, Hk.
  refine (conj _ (conj _ (conj _ (conj _ _)))); unfold nrows, wf_ndarray; simpl.
  - done.
  - by rewrite length_insert.
  - unfold wf_ndarray in Hwf. rewrite Hc in Hwf. by apply Forall_insert.
  - unfold nrows. lia.
  - intros s Hs. destruct (decide (s = k)) as [->|Hne].
    + exists lat, lon, da, x. repeat split; try done.
      by apply list_lookup_insert_eq.
    + destruct (Hrows s) as (lat' & lon' & da' & x' & ? & ? & ? & ? & ?); [lia|].
      exists lat', lon', da', x'. repeat split; try done.
      by rewrite list_lookup_insert_ne.
Qed.

Lemma station_data_static D name lats lons (lu : list coord) datetime dfs M :
  station_data_of D lats lons lu datetime dfs false name = Ret M →
  static_rows_inv D name lats lons (length lu) (length lons) M.
Proof.
  unfold station_data_of. intros H.
  apply (foldM_seq_inv _ (static_rows_inv D name lats lons (length lu))) in H; [done| |].
  - intros k M1 M2 _. apply station_row_step.
  - destruct (np_empty_shape (length lu) 1) as (Hc & Hr & Hwf).
    refine (conj Hc (conj Hr (conj Hwf (conj _ _)))); [lia|]. intros s Hs. lia.
Qed.

(** C8: whenever a call with [interpolate=False] returns matrices, each of
    them has one column and as many rows as there are unique longitudes
    (the allocated shape), every row is a single cell, and row [s] holds
    the one static value of station [s]: the first value along time of the
    field at the grid cell nearest to the station.  The rows are then as
    many as the stations. *)
Theorem static_extraction_shape lats lons dataset_path variables datetime tr var :
  extract_dataset lats lons dataset_path variables datetime false
    = (tr, Ret (VarList var)) →
  Forall (λ M, ncols M = 1 ∧ nrows M = length (lons_unique lons) ∧ wf_ndarray M ∧
               nrows M = length lons) var ∧
  ∀ request, datetime = TimeMatrix request →
    ∃ dataset dataset_interpolation,
      open_selection (lats_unique lats) (lons_unique lons) dataset_path variables
        = ([EvOpen dataset_path], Ret dataset) ∧
      select_times dataset (datetime_for_interp_of request) false
        = ([], Ret (Some dataset_interpolation)) ∧
      Forall2 (λ name M,
          ∀ s, s < length lons →
            ∃ lat lon da x,
              lats !! s = Some lat ∧ lons !! s = Some lon ∧
              da_sel_point dataset_interpolation name lat lon = Ret da ∧
              da.2 !! 0 = Some x ∧ rows M !! s = Some [x])
        variables var.
Proof.
  intros H. destruct datetime as [|request].
  { inversion H; subst. split; [constructor|]. intros request Heq. done. }
  pose proof (extract_dataset_run coord_leb coord_eqb nan uninit nearest interp fs
                lats lons dataset_path variables request false) as Hrun.
  rewrite H in Hrun.
  inversion Hrun as [| | | |dataset dfs D Hopen Hdfs Hsel [Htr Hres]]; subst.
  destruct (mapM _ variables) as [var'|] eqn:Evar; [|done].
  simpl in Hres. inversion Hres; subst var'. clear Hres.
  apply mapM_Forall2 in Evar.
  assert (Hinv : Forall2 (λ name M,
            static_rows_inv D name lats lons (length (lons_unique lons)) (length lons) M)
            variables var).
  { eapply Forall2_impl; [exact Evar|]. intros name M HM. simpl in HM.
    by apply station_data_static in HM. }
  split.
  - eapply Forall2_Forall_r; [exact Hinv|]. apply Forall_forall.
    intros name _ M (Hc & Hr & Hwf & Hle & _).
    refine (conj Hc (conj Hr (conj Hwf _))).
    pose proof (np_unique_length_le coord_leb coord_eqb lons). lia.
  - intros request' Heq. inversion Heq; subst request'.
    exists dataset, D. split; [done|]. split; [done|].
    eapply Forall2_impl; [exact Hinv|]. intros name M (_ & _ & _ & _ & Hrows). exact Hrows.
Qed.
End StaticFacts.

(** ** The multi-file stitcher *)

Lemma foldM_shifted_index {A St} (g : St → A → outcome St) (rest : list A) : ∀ pre s,
  0 < length pre →
  foldM (λ s i, x ← getitem (pre ++ rest) (i + 1); g s x) s
    (seq (length pre - 1) (length rest))
  = foldM g s rest.
Proof.
  induction rest as [|x rest IH]; intros pre s Hpre; [done|].
  assert (Hx : getitem (pre ++ x :: rest) (length pre - 1 + 1) = Ret x).
  { unfold getitem. rewrite (list_lookup_middle pre rest x); [done|lia]. }
  cbn [length seq foldM]. rewrite Hx. simpl.
  destruct (g s x) as [s'|]; simpl; [|done].
  specialize (IH (pre ++ [x]) s'). rewrite length_app in IH. simpl in IH.
  replace (length pre + 1 - 1) with (S (length pre - 1)) in IH by lia.
  rewrite <- app_assoc in IH. simpl in IH. apply IH. lia.
Qed.

Lemma broadcast_to_length {A} n (v v' : list A) :
  broadcast_to n v = Ret v' → length v' = n.
Proof.
  unfold broadcast_to. destruct (length v =? n) eqn:E.
  - apply Nat.eqb_eq in E. intros H. by inversion H; subst.
  - destruct v as [|x [|y v]]; try done. intros H. inversion H.
    apply length_replicate.
Qed.

Lemma set_col_shape {A} s (v : list A) (a a' : ndarray A) :
  set_col s v a = Ret a' →
  ncols a' = ncols a ∧ nrows a' = nrows a ∧ (wf_ndarray a → wf_ndarray a').
Proof.
  unfold set_col. destruct (s <? ncols a); [|done]. intros H.
  apply outcome_bind_Ret in H as (v' & Hv & H). inversion H; subst. clear H.
  apply broadcast_to_length in Hv. unfold nrows, wf_ndarray in *. simpl.
  split; [done|]. split.
  - rewrite length_zip_with. lia.
  - intros Hwf. clear Hv. revert v'.
    induction Hwf as [|r rs Hr Hwf IH]; intros v'; [constructor|].
    destruct v' as [|x v']; [constructor|]. simpl. constructor; [|apply IH].
    by rewrite length_insert.
Qed.

Section StitcherFacts.
Context {coord : Type} (coord_leb coord_eqb : coord → coord → bool).
Context {V : Type} (nan : V) (uninit : nat → nat → V).
Context (nearest : list coord → coord → option nat).
Context (interp : list Z → list V → Z → V).
Context (fs : string → option (@Dataset coord V)).

Local Abbreviation station_data_of := (station_data_of nan uninit nearest).
Local Abbreviation station_column := (station_column nan nearest).
Local Abbreviation extract_dataset :=
  (extract_dataset coord_leb coord_eqb nan uninit nearest interp fs).
Local Abbreviation per_file_result :=
  (per_file_result coord_leb coord_eqb nan uninit nearest interp fs).
Local Abbreviation stitch_file :=
  (stitch_file coord_leb coord_eqb nan uninit nearest interp fs).
Local Abbreviation stitch_collect :=
  (stitch_collect coord_leb coord_eqb nan uninit nearest interp fs).
Local Abbreviation extract_dataset_list :=
  (extract_dataset_list coord_leb coord_eqb nan uninit nearest interp fs).

Lemma station_data_shape D lats lons (lu : list coord) datetime dfs interpolate name M :
  station_data_of D lats lons lu datetime dfs interpolate name = Ret M →
  ncols M = out_cols interpolate lats ∧ wf_ndarray M ∧
  nrows M = (if interpolate then nrows datetime else length lu).
Proof.
  destruct interpolate.
  - unfold station_data_of. intros H.
    apply (foldM_seq_inv _
             (λ _ M, ncols M = length lats ∧ wf_ndarray M ∧ nrows M = nrows datetime))
      in H; [done| |].
    + intros k M1 M2 _ (Hc & Hwf & Hr) Hstep. unfold station_column in Hstep.
      apply outcome_bind_Ret in Hstep as (times & _ & Hstep).
      assert (∃ s v, set_col s v M1 = Ret M2) as (s & v & Hset).
      { destruct (length times =? 0); [eauto|].
        apply outcome_bind_Ret in Hstep as (? & _ & Hstep).
        apply outcome_bind_Ret in Hstep as (? & _ & Hstep).
        apply outcome_bind_Ret in Hstep as (? & _ & Hstep).
        apply outcome_bind_Ret in Hstep as (? & _ & Hstep). eauto. }
      apply set_col_shape in Hset as (Hc' & Hr' & Hwf').
      split; [congruence|]. split; [auto|congruence].
    + destruct (np_empty_shape uninit (nrows datetime) (length lats)) as (Hc & Hr & Hwf).
      done.
  - intros H. apply station_data_static in H as (Hc & Hr & Hwf & _). done.
Qed.

(** A call that returns matrices for a matrix request returns one per
    variable, all with the same number of columns. *)
Lemma extract_dataset_shape lats lons path variables request interpolate tr var :
  extract_dataset lats lons path variables (TimeMatrix request) interpolate
    = (tr, Ret (VarList var)) →
  length var = length variables ∧
  Forall (λ M, ncols M = out_cols interpolate lats ∧ wf_ndarray M ∧
               nrows M = (if interpolate then nrows request
                          else length (np_unique coord_leb coord_eqb lons))) var.
Proof.
  intros H.
  pose proof (extract_dataset_run coord_leb coord_eqb nan uninit nearest interp fs
                lats lons path variables request interpolate) as Hrun.
  rewrite H in Hrun.
  inversion Hrun as [| | | |dataset dfs D Hopen Hdfs Hsel [Htr Hres]]; subst.
  destruct (mapM _ variables) as [var'|] eqn:Evar; [|done].
  simpl in Hres. inversion Hres; subst var'. clear Hres.
  split; [by apply mapM_length in Evar|].
  apply mapM_Forall2 in Evar.
  eapply Forall2_Forall_r; [exact Evar|]. apply Forall_forall.
  intros name _ M HM. by apply station_data_shape in HM.
Qed.

(** *** The first loop: what is accumulated *)

Lemma stitch_file_Ret lats lons variables datearray interpolate acc path tr r :
  per_file_result lats lons variables datearray interpolate path = (tr, Ret r) →
  stitch_file lats lons variables datearray interpolate acc path
  = (tr, Ret (if is_empty_list r then acc else acc ++ [r])).
Proof.
  intros H. unfold stitch_file. rewrite H. simpl.
  destruct (is_empty_list r); simpl; by rewrite app_nil_r.
Qed.

Lemma stitch_collect_from lats lons variables datearray interpolate paths : ∀ results acc,
  Forall2 (λ path r, ∃ tr,
     per_file_result lats lons variables datearray interpolate path = (tr, Ret r))
    paths results →
  ∃ tr, foldPy (stitch_file lats lons variables datearray interpolate) acc paths
        = (tr, Ret (acc ++ base.filter (λ r, is_empty_list r = false) results)).
Proof.
  induction paths as [|path paths IH]; intros results acc Hall.
  - apply Forall2_nil_inv_l in Hall as ->. exists []. simpl.
    by rewrite filter_nil, app_nil_r.
  - apply Forall2_cons_inv_l in Hall as (r & results' & [tr Hr] & Hall & ->).
    cbn [foldPy]. rewrite (stitch_file_Ret _ _ _ _ _ _ _ _ _ Hr).
    rewrite filter_cons. destruct (is_empty_list r) eqn:E.
    + rewrite decide_False by done.
      destruct (IH results' acc Hall) as [tr' Htr']. simpl. rewrite Htr'. simpl. eauto.
    + rewrite decide_True by done.
      destruct (IH results' (acc ++ [r]) Hall) as [tr' Htr']. simpl. rewrite Htr'. simpl.
      rewrite <- app_assoc. simpl. eauto.
Qed.

(** *** The second loop: stacking *)

(** two per-file results of the same layout stacked variable by variable *)
Lemma stack_variables (a b : list (ndarray V)) c n :
  length a = n → length b = n →
  Forall (λ M, ncols M = c) a → Forall (λ M, ncols M = c) b →
  ∃ out, foldM (stack_variable (VarList b)) (VarList a) (seq 0 n) = Ret (VarList out) ∧
    length out = n ∧ Forall (λ M, ncols M = c) out ∧
    ∀ j, rows_of out j = rows_of a j ++ rows_of b j.
Proof.
  intros Ha Hb Hca Hcb.
  destruct (foldM_seq_Ret (stack_variable (VarList b))
    (λ k var, ∃ l, var = VarList l ∧ length l = n ∧ Forall (λ M, ncols M = c) l ∧
       ∀ j, rows_of l j = if j <? k then rows_of a j ++ rows_of b j else rows_of a j)
    n 0 (VarList a)) as (var & Hvar & l & -> & Hl & Hcl & Hrows).
  - intros k var Hk (l & -> & Hl & Hcl & Hrows).
    destruct (lookup_lt_is_Some_2 l k) as [Mk HMk]; [lia|].
    destruct (lookup_lt_is_Some_2 b k) as [Nk HNk]; [lia|].
    assert (HcM : ncols Mk = c).
    { eapply Forall_lookup_1 in Hcl; [|exact HMk]. done. }
    assert (HcN : ncols Nk = c).
    { eapply Forall_lookup_1 in Hcb; [|exact HNk]. done. }
    exists (VarList (<[k := NdArray (ncols Mk) (rows Mk ++ rows Nk)]> l)). split.
    + unfold stack_variable, subscript, getitem, np_vstack, store.
      rewrite HMk, HNk. simpl. rewrite HcM, HcN, Nat.eqb_refl. simpl.
      assert ((k <? length l) = true) as -> by (apply Nat.ltb_lt; lia). done.
    + eexists. split; [done|]. split; [by rewrite length_insert|]. split.
      * apply Forall_insert; [done|]. done.
      * intros j. unfold rows_of. destruct (decide (j = k)) as [->|Hne].
        -- rewrite list_lookup_insert_eq by lia. simpl.
           assert ((k <? S k) = true) as -> by (apply Nat.ltb_lt; lia).
           specialize (Hrows k). unfold rows_of in Hrows. rewrite HMk in Hrows.
           rewrite Nat.ltb_irrefl in Hrows. rewrite Hrows. by rewrite HNk.
        -- rewrite list_lookup_insert_ne by done.
           specialize (Hrows j). unfold rows_of in Hrows. rewrite Hrows.
           destruct (j <? k) eqn:E1; destruct (j <? S k) eqn:E2; try done.
           ++ apply Nat.ltb_lt in E1. apply Nat.ltb_ge in E2. lia.
           ++ apply Nat.ltb_ge in E1. apply Nat.ltb_lt in E2. lia.
  - exists a. done.
  - exists l. split; [done|]. split; [done|]. split; [done|].
    intros j. rewrite (Hrows j). simpl. destruct (j <? n) eqn:E; [done|].
    apply Nat.ltb_ge in E. unfold rows_of.
    rewrite (lookup_ge_None_2 a j), (lookup_ge_None_2 b j) by lia. done.
Qed.

Lemma stitch_tail (variables : list string) (vars : list (list (ndarray V))) c : ∀ a,
  length a = length variables → Forall (λ M, ncols M = c) a →
  Forall (λ var, length var = length variables ∧ Forall (λ M, ncols M = c) var) vars →
  ∃ out,
    foldM (λ var next,
             if is_empty_list next then Ret var
             else foldM (stack_variable next) var (seq 0 (length variables)))
      (VarList a) (VarList <$> vars) = Ret (VarList out) ∧
    length out = length variables ∧
    ∀ j, rows_of out j = rows_of a j ++ stitched_rows vars j.
Proof.
  induction vars as [|b vars IH]; intros a Ha Hca Hall.
  - exists a. split; [done|]. split; [done|]. intros j.
    unfold stitched_rows. simpl. by rewrite app_nil_r.
  - apply Forall_cons in Hall as [[Hb Hcb] Hall].
    destruct (stack_variables a b c (length variables) Ha Hb Hca Hcb)
      as (ab & Hab & Hlab & Hcab & Hrows).
    destruct (IH ab Hlab Hcab Hall) as (out & Hout & Hlout & Hrout).
    exists out. split; [|split; [done|]].
    + rewrite fmap_cons. cbn [foldM]. destruct b as [|M b].
      * simpl. simpl in Hb. destruct variables; [|done]. simpl in Hab.
        inversion Hab; subst ab. exact Hout.
      * cbn [is_empty_list]. rewrite Hab. exact Hout.
    + intros j. rewrite Hrout, Hrows. unfold stitched_rows. simpl.
      by rewrite app_assoc.
Qed.

(** the second loop runs over the results after the first one *)
Lemma stitch_concat_cons (variables : list string) (v0 : @pyval V) tail :
  stitch_concat variables (v0 :: tail)
  = foldM (λ var next,
             if is_empty_list next then Ret var
             else foldM (stack_variable next) var (seq 0 (length variables)))
      v0 tail.
Proof.
  unfold stitch_concat. cbn [getitem lookup list_lookup].
  simpl. rewrite Nat.sub_0_r.
  pose proof (foldM_shifted_index
    (λ var next, if is_empty_list next then Ret var
                 else foldM (stack_variable next) var (seq 0 (length variables)))
    tail [v0] v0) as Hshift.
  simpl in Hshift. rewrite <- Hshift by lia. done.
Qed.

Lemma stitch_concat_stacks (variables : list string) (vars : list (list (ndarray V))) c :
  vars ≠ [] →
  Forall (λ var, length var = length variables ∧ Forall (λ M, ncols M = c) var) vars →
  ∃ out, stitch_concat variables (VarList <$> vars) = Ret (VarList out) ∧
    length out = length variables ∧
    ∀ j, rows_of out j = stitched_rows vars j.
Proof.
  intros Hne Hall. destruct vars as [|a vars]; [done|].
  apply Forall_cons in Hall as [[Ha Hca] Hall].
  destruct (stitch_tail variables vars c a Ha Hca Hall) as (out & Hout & Hlen & Hrows).
  exists out. split; [|split; [done|]].
  - rewrite fmap_cons, stitch_concat_cons. exact Hout.
  - intros j. rewrite Hrows. done.
Qed.

Lemma Py_bind_Ret {A B} (m : Py A) (f : A → Py B) tr b :
  m ≫= f = (tr, Ret b) →
  ∃ t1 a t2, m = (t1, Ret a) ∧ f a = (t2, Ret b) ∧ tr = t1 ++ t2.
Proof.
  destruct m as [t1 [a|e]]; unfold mbind, Py_bind; [|done].
  destruct (f a) as [t2 o] eqn:E. simpl. intros H. inversion H; subst.
  by exists t1, a, t2.
Qed.

Lemma per_file_result_inv lats lons variables datearray interpolate path tr r :
  per_file_result lats lons variables datearray interpolate path = (tr, Ret r) →
  ∃ dataset request tr',
    fs path = Some dataset ∧ restrict_request datearray dataset = Ret request ∧
    extract_dataset lats lons path variables (TimeMatrix request) interpolate = (tr', Ret r).
Proof.
  unfold per_file_result. intros H.
  apply Py_bind_Ret in H as (t1 & dataset & t2 & Hopen & H & _).
  apply Py_bind_Ret in H as (t3 & request & tr' & Hreq & H & _).
  exists dataset, request, tr'. split; [|split; [|done]].
  - unfold xr_open_dataset in Hopen. simpl in Hopen.
    destruct (fs path); simpl in Hopen; [|done]. by inversion Hopen.
  - unfold lift in Hreq. by inversion Hreq.
Qed.

Lemma filter_VarList (vars : list (list (ndarray V))) :
  base.filter (λ r, is_empty_list r = false) (VarList <$> vars)
  = VarList <$> contributing vars.
Proof.
  unfold contributing. induction vars as [|var vars IH]; [done|].
  rewrite fmap_cons. destruct var as [|M var].
  - rewrite filter_cons_False by (simpl; done).
    rewrite filter_cons_False by (intros H; by apply H). exact IH.
  - rewrite filter_cons_True by done. rewrite filter_cons_True by done.
    rewrite fmap_cons. by rewrite IH.
Qed.

Lemma stitched_rows_length (vars : list (list (ndarray V))) j :
  length (stitched_rows vars j) = sum_list_with (λ var, length (rows_of var j)) vars.
Proof.
  unfold stitched_rows. induction vars as [|var vars IH]; [done|].
  rewrite fmap_cons. cbn [concat sum_list_with]. rewrite length_app. by rewrite IH.
Qed.

(** a call on a matrix request that returns a list was asked for at least
    one variable and returns at least one matrix *)
Lemma returned_list_not_empty lats lons path variables request interpolate tr var :
  extract_dataset lats lons path variables (TimeMatrix request) interpolate
    = (tr, Ret (VarList var)) →
  variables ≠ [] ∧ var ≠ [].
Proof.
  intros H.
  pose proof (extract_dataset_run coord_leb coord_eqb nan uninit nearest interp fs
                lats lons path variables request interpolate) as Hrun.
  rewrite H in Hrun.
  inversion Hrun as [| | | |dataset dfs D Hopen Hdfs Hsel [Htr Hres]]; subst.
  apply (select_times_Ret nan interp) in Hsel as (Hv & _).
  apply (open_selection_vars nearest fs) in Hopen.
  assert (Hvars : variables ≠ []).
  { intros ->. by destruct (ds_vars dataset). }
  split; [done|]. destruct (mapM _ variables) as [var'|] eqn:E; [|done].
  simpl in Hres. inversion Hres; subst var'. apply mapM_length in E.
  intros ->. by destruct variables.
Qed.

(** what a file yields once it is open, for a request the validator
    accepts: the result of [extract_dataset] on the request with every
    cell outside the window of the file replaced by NaT *)
Lemma per_file_result_windowed lats lons variables datearray interpolate path dataset
    first_time last_time :
  fs path = Some dataset →
  ds_time dataset !! 0 = Some first_time → last (ds_time dataset) = Some last_time →
  size datearray ≠ 0 → existsb isnat (concat (rows datearray)) = false →
  per_file_result lats lons variables datearray interpolate path
  = let r := extract_dataset lats lons path variables
               (TimeMatrix (NdArray (ncols datearray)
                  (map (map (λ d, date_check d (first_time - 1800) (last_time + 1800)))
                     (rows datearray)))) interpolate in
    (EvOpen path :: r.1, r.2).
Proof.
  intros Hfs H0 H1 Hsize Hnat. unfold per_file_result, xr_open_dataset.
  rewrite Hfs. cbn [or_raise]. cbn -[extract_dataset restrict_request].
  rewrite (restrict_request_Ret datearray dataset first_time last_time H0 H1 Hsize Hnat).
  unfold halfhour. cbn -[extract_dataset].
  by destruct (extract_dataset _ _ _ _ _ _) as [t [r|e]].
Qed.


(** In interpolation mode every file that returns matrices returns them
    with as many rows as the request has, also for the timestamps outside
    its window: each file adds that many rows. *)
Lemma per_file_row_count_interp lats lons variables datearray path tr var j :
  per_file_result lats lons variables datearray true path = (tr, Ret (VarList var)) →
  j < length variables →
  length (rows_of var j) = nrows datearray.
Proof.
  intros Hrun Hj.
  apply per_file_result_inv in Hrun as (dataset & request & tr' & _ & Hreq & Hrun).
  apply restrict_request_window in Hreq as (t0 & t1 & _ & _ & _ & ->).
  apply extract_dataset_shape in Hrun as [Hlen Hshape].
  destruct (lookup_lt_is_Some_2 var j) as [M HM]; [lia|].
  unfold rows_of. rewrite HM.
  eapply Forall_lookup_1 in Hshape; [|exact HM]. destruct Hshape as (_ & _ & Hrows).
  unfold nrows in *. simpl in Hrows. by rewrite length_map in Hrows.
Qed.

(** *** Integers among the per-file results *)

Lemma foldM_raise_at {A St} (f : St → A → outcome St) (l : list A) x : ∀ s,
  x ∈ l → (∀ s, ∃ e, f s x = Raise e) → ∃ e, foldM f s l = Raise e.
Proof.
  induction l as [|y l IH]; intros s Hin Hx; [by apply elem_of_nil in Hin|].
  simpl. apply elem_of_cons in Hin as [<-|Hin].
  - destruct (Hx s) as [e ->]. simpl. eauto.
  - destruct (f s y) as [s'|e]; simpl; [by apply IH|eauto].
Qed.

Lemma stack_into_int_raises (variables : list string) z (next : @pyval V) :
  variables ≠ [] → is_empty_list next = false →
  (if is_empty_list next then Ret (PyInt z)
   else foldM (stack_variable next) (PyInt z) (seq 0 (length variables)))
  = Raise TypeError.
Proof.
  intros Hv ->. by destruct variables.
Qed.

Lemma stack_int_raises (variables : list string) z (var : @pyval V) :
  variables ≠ [] →
  ∃ e, (if is_empty_list (V:=V) (PyInt z) then Ret var
        else foldM (stack_variable (PyInt z)) var (seq 0 (length variables)))
       = Raise e.
Proof.
  intros Hv. destruct variables as [|v variables]; [done|].
  cbn [length seq foldM is_empty_list].
  assert (∃ e, stack_variable (PyInt z) var 0 = Raise e) as [e ->].
  { unfold stack_variable. destruct (subscript var 0); simpl; eauto. }
  simpl. eauto.
Qed.

(** C10: the stitcher keeps every per-file result that is not the empty
    list.  An integer that [extract_dataset] returned for a file (-1 or -2)
    is therefore one of the accumulated results, and the concatenation step
    runs on a list that contains it; no branch looks for it.  What then
    happens is an accident of that step: alone in the list the integer is
    returned as the result of the whole call, and with a second result and
    at least one variable the subscripting of the integer raises. *)
Theorem sentinel_flows_into_concatenation lats lons dataset_path_list variables
    datearray interpolate (results : list pyval) :
  Forall2 (λ path r, ∃ tr,
     per_file_result lats lons variables datearray interpolate path = (tr, Ret r))
    dataset_path_list results →
  ∃ tr var_list,
    var_list = base.filter (λ r, is_empty_list r = false) results ∧
    stitch_collect lats lons dataset_path_list variables datearray interpolate
      = (tr, Ret var_list) ∧
    extract_dataset_list lats lons dataset_path_list variables datearray interpolate
      = (tr, stitch_concat variables var_list) ∧
    (∀ z, PyInt z ∈ results → PyInt z ∈ var_list) ∧
    (∀ z, var_list = [PyInt z] → stitch_concat variables var_list = Ret (PyInt z)) ∧
    (∀ z, PyInt z ∈ var_list → 2 ≤ length var_list → variables ≠ [] →
       ∃ e, stitch_concat variables var_list = Raise e).
Proof.
  intros Hall.
  destruct (stitch_collect_from lats lons variables datearray interpolate
              dataset_path_list results [] Hall) as [tr Htr].
  simpl in Htr. exists tr, (base.filter (λ r, is_empty_list r = false) results).
  split; [done|]. split; [exact Htr|]. split.
  { unfold extract_dataset_list, stitch_collect. rewrite Htr. simpl.
    by rewrite app_nil_r. }
  split.
  { intros z Hz. by apply list_elem_of_filter. }
  split.
  { intros z ->. done. }
  intros z Hz Hlen Hv.
  assert (Hkept : Forall (λ r, is_empty_list r = false)
                    (base.filter (λ r, is_empty_list r = false) results)).
  { apply Forall_forall. intros r Hr. by apply list_elem_of_filter in Hr as [? _]. }
  destruct (base.filter _ results) as [|v0 [|v1 rest]]; simpl in Hlen; try lia.
  rewrite stitch_concat_cons.
  apply elem_of_cons in Hz as [<-|Hz].
  - apply Forall_cons in Hkept as [_ Hkept]. apply Forall_cons in Hkept as [Hv1 _].
    cbn [foldM]. rewrite (stack_into_int_raises variables z v1 Hv Hv1). simpl. eauto.
  - eapply (foldM_raise_at _ (v1 :: rest) (PyInt z)); [done|].
    intros var. by apply stack_int_raises.
Qed.
End StitcherFacts.

(** ** What happens before the first dataset access *)

Lemma Py_bind_trace_prefix {A B} (m : Py A) (f : A → Py B) ev tr :
  m.1 = ev :: tr → ∃ tr', (m ≫= f).1 = ev :: tr'.
Proof.
  destruct m as [t [a|e]]; simpl; intros ->; unfold mbind, Py_bind; simpl; eauto.
Qed.

Section AccessFacts.
Context {coord : Type} (coord_leb coord_eqb : coord → coord → bool).
Context {V : Type} (nan : V) (uninit : nat → nat → V).
Context (nearest : list coord → coord → option nat).
Context (interp : list Z → list V → Z → V).
Context (fs : string → option (@Dataset coord V)).

Local Abbreviation extract_dataset :=
  (extract_dataset coord_leb coord_eqb nan uninit nearest interp fs).
Local Abbreviation per_file_result :=
  (per_file_result coord_leb coord_eqb nan uninit nearest interp fs).
Local Abbreviation stitch_file :=
  (stitch_file coord_leb coord_eqb nan uninit nearest interp fs).
Local Abbreviation stitch_collect :=
  (stitch_collect coord_leb coord_eqb nan uninit nearest interp fs).
Local Abbreviation extract_dataset_list :=
  (extract_dataset_list coord_leb coord_eqb nan uninit nearest interp fs).

Lemma extract_dataset_opens_first lats lons path variables request interpolate :
  ∃ tr, (extract_dataset lats lons path variables (TimeMatrix request) interpolate).1
        = EvOpen path :: tr.
Proof.
  pose proof (extract_dataset_run coord_leb coord_eqb nan uninit nearest interp fs
                lats lons path variables request interpolate) as Hrun.
  destruct Hrun; simpl; eauto.
Qed.

(** whatever the array holds, the call opens the file first and does not
    return the empty list *)
Lemma array_request_not_recognised lats lons path variables request interpolate :
  ∃ tr o, extract_dataset lats lons path variables (TimeMatrix request) interpolate
          = (EvOpen path :: tr, o) ∧ o ≠ Ret (VarList []).
Proof.
  destruct (extract_dataset_opens_first lats lons path variables request interpolate)
    as [tr Htr].
  destruct (extract_dataset _ _ _ _ _ _) as [t o] eqn:E. simpl in Htr. subst t.
  exists tr, o. split; [done|]. intros ->.
  by apply (returned_list_not_empty coord_leb coord_eqb nan uninit nearest interp fs)
    in E as [_ E].
Qed.

Lemma extract_dataset_list_opens_first lats lons path paths variables datearray
    interpolate :
  ∃ tr, (extract_dataset_list lats lons (path :: paths) variables datearray
           interpolate).1 = EvOpen path :: tr.
Proof.
  assert (H0 : (xr_open_dataset fs path).1 = EvOpen path :: []).
  { unfold xr_open_dataset. simpl. by destruct (fs path). }
  destruct (Py_bind_trace_prefix _
    (λ dataset, datevecs_for_dataset ← lift (restrict_request datearray dataset);
                extract_dataset lats lons path variables
                  (TimeMatrix datevecs_for_dataset) interpolate) _ _ H0) as [tr1 H1].
  destruct (Py_bind_trace_prefix _
    (λ newvar, if negb (is_empty_list newvar) then mret ([] ++ [newvar]) else mret [])
    _ _ H1) as [tr2 H2].
  destruct (Py_bind_trace_prefix _
    (λ s', foldPy (stitch_file lats lons variables datearray interpolate) s' paths)
    _ _ H2) as [tr3 H3].
  destruct (Py_bind_trace_prefix _
    (λ var_list, lift (stitch_concat variables var_list)) _ _ H3) as [tr4 H4].
  exists tr4. exact H4.
Qed.

(** C5, as the code has it: the entry points compare the lengths of the
    latitude and longitude sequences nowhere.  When the lengths differ,
    [extract_dataset] with a matrix request and [extract_dataset_list] with
    a non-empty file list begin by opening the (first) dataset file, so
    that any failure the mismatch causes comes after that access, and
    [extract_dataset] with the empty list as request returns the empty
    result without failing. *)
Theorem length_mismatch_not_checked lats lons dataset_path dataset_path_list variables
    request interpolate :
  length lats ≠ length lons →
  (∃ tr o, extract_dataset lats lons dataset_path variables (TimeMatrix request)
             interpolate = (EvOpen dataset_path :: tr, o)) ∧
  (∃ tr o, extract_dataset_list lats lons (dataset_path :: dataset_path_list) variables
             request interpolate = (EvOpen dataset_path :: tr, o)) ∧
  extract_dataset lats lons dataset_path variables EmptyList interpolate
    = ([], Ret (VarList [])).
Proof.
  intros _. split; [|split; [|done]].
  - destruct (extract_dataset_opens_first lats lons dataset_path variables request
                interpolate) as [tr Htr].
    destruct (extract_dataset _ _ _ _ _ _) as [t o]. simpl in Htr. subst t. eauto.
  - destruct (extract_dataset_list_opens_first lats lons dataset_path dataset_path_list
                variables request interpolate) as [tr Htr].
    destruct (extract_dataset_list _ _ _ _ _ _) as [t o]. simpl in Htr. subst t. eauto.
Qed.
End AccessFacts.

(** ** The scale-height correction of [extract_for_MERRA2] *)

(** *** The factor at equal heights

    Binary64 subtraction of a finite number from an equal one gives a
    zero, and a zero divided by 2100 is a zero. *)

Lemma SFcompare_finite_Eq s1 m1 e1 s2 m2 e2 :
  SFcompare (S754_finite s1 m1 e1) (S754_finite s2 m2 e2) = Some Eq →
  s1 = s2 ∧ m1 = m2 ∧ e1 = e2.
Proof.
  simpl. destruct s1, s2; try done; destruct (Z.compare_spec e1 e2) as [He|He|He];
    try done; intros H; inversion H as [Hc]; clear H.
  - apply (f_equal CompOpp) in Hc. rewrite CompOpp_involutive in Hc. simpl in Hc.
    apply Pos.compare_eq in Hc. done.
  - apply Pos.compare_eq in Hc. done.
Qed.

Lemma float_of_spec (x : float) sf : Prim2SF x = sf → x = SF2Prim sf.
Proof. intros <-. symmetry. apply SF2Prim_Prim2SF. Qed.

Lemma sub_of_equal_finite (x y : float) :
  PrimFloat.is_finite x = true → PrimFloat.eqb x y = true →
  (x - y)%float = 0%float ∨ (x - y)%float = PrimFloat.neg_zero.
Proof.
  intros Hfin Heq. rewrite FloatAxioms.eqb_spec in Heq. unfold SFeqb in Heq.
  assert (Hsub : ∃ s, Prim2SF (x - y) = S754_zero s).
  { rewrite sub_spec. destruct (Prim2SF x) as [sx|sx| |sx mx ex] eqn:Ex.
    - destruct (Prim2SF y) as [sy|sy| |sy my ey]; simpl in Heq.
      + destruct sx, sy; simpl; eauto.
      + by destruct sy.
      + done.
      + by destruct sy.
    - apply float_of_spec in Ex. subst x. by destruct sx.
    - apply float_of_spec in Ex. by subst x.
    - destruct (Prim2SF y) as [sy|sy| |sy my ey] eqn:Ey.
      + simpl in Heq. by destruct sx.
      + simpl in Heq. by destruct sy.
      + done.
      + destruct (SFcompare _ _) as [[| |]|] eqn:Ec; try done.
        apply SFcompare_finite_Eq in Ec as (-> & -> & ->).
        unfold SF64sub, SFsub. rewrite Z.sub_diag. simpl. eauto. }
  destruct Hsub as [s Hs]. apply float_of_spec in Hs. rewrite Hs.
  destruct s; [right|left]; reflexivity.
Qed.

(** *** Broadcasting a per-station row over a matrix *)

Lemma bcast_dim_same n : bcast_dim n n = Ret n.
Proof. unfold bcast_dim. by rewrite Nat.eqb_refl. Qed.

Lemma bcast_dim_one n : bcast_dim n 1 = Ret n.
Proof.
  unfold bcast_dim. destruct (n =? 1) eqn:E; [|done].
  apply Nat.eqb_eq in E. by subst.
Qed.

Lemma bcast_cell_lookup (a : ndarray float) i j r x :
  i < nrows a → j < ncols a → rows a !! i = Some r → r !! j = Some x →
  bcast_cell a i j = x.
Proof.
  intros Hi Hj Hr Hx. unfold bcast_cell.
  assert (rows a !! (if nrows a =? 1 then 0 else i) = Some r) as ->.
  { destruct (nrows a =? 1) eqn:E; [|done]. apply Nat.eqb_eq in E.
    assert (i = 0) as -> by lia. done. }
  cbn [mbind option_bind].
  destruct (ncols a =? 1) eqn:E.
  - apply Nat.eqb_eq in E. assert (j = 0) as Hj0 by lia. subst j. by rewrite Hx.
  - by rewrite Hx.
Qed.

Lemma bcast_cell_row (l : list float) i j y :
  l !! j = Some y → bcast_cell (NdArray (length l) [l]) i j = y.
Proof.
  intros Hy. unfold bcast_cell, nrows. cbn [rows ncols length Nat.eqb lookup list_lookup].
  cbn [mbind option_bind]. apply lookup_lt_Some in Hy as Hj.
  destruct (length l =? 1) eqn:E.
  - apply Nat.eqb_eq in E. assert (j = 0) as Hj0 by lia. subst j. by rewrite Hy.
  - by rewrite Hy.
Qed.

Lemma bcast_cell_col_vec (l : list float) i x :
  l !! i = Some x → bcast_cell (col_vec l) i 0 = x.
Proof.
  intros Hx. apply (bcast_cell_lookup (col_vec l) i 0 [x] x).
  - unfold nrows, col_vec. simpl. rewrite length_fmap. by apply lookup_lt_Some in Hx.
  - simpl. lia.
  - unfold col_vec. simpl. by rewrite list_lookup_fmap, Hx.
  - done.
Qed.

Lemma broadcast2_col_vec f (a b : list float) :
  length a = length b →
  broadcast2 f (col_vec a) (col_vec b) = Ret (col_vec (zip_with f a b)).
Proof.
  intros Hlen. unfold broadcast2. unfold nrows at 1 2. simpl.
  rewrite !length_fmap, <- Hlen, bcast_dim_same. simpl.
  unfold col_vec. do 2 f_equal. apply list_eq. intros i.
  rewrite !list_lookup_fmap. rewrite lookup_zip_with.
  destruct (decide (i < length a)) as [Hi|Hi].
  - destruct (lookup_lt_is_Some_2 a i Hi) as [x Hx].
    destruct (lookup_lt_is_Some_2 b i) as [y Hy]; [lia|].
    rewrite lookup_seq_lt by done. rewrite Hx, Hy. simpl.
    fold (col_vec a) (col_vec b).
    rewrite (bcast_cell_col_vec a i x), (bcast_cell_col_vec b i y) by done.
    done.
  - rewrite lookup_seq_ge by lia. rewrite (lookup_ge_None_2 a) by lia. done.
Qed.

Lemma nd_map_col_vec {A B} (g : A → B) (l : list A) :
  nd_map g (col_vec l) = col_vec (g <$> l).
Proof.
  unfold nd_map, col_vec. simpl. f_equal.
  change (map (map g) ((λ x, [x]) <$> l)) with (map g <$> ((λ x, [x]) <$> l)).
  rewrite <- !list_fmap_compose. done.
Qed.

Lemma transpose_col_vec {A} (l : list A) :
  transpose (col_vec l) = NdArray (length l) [l].
Proof.
  assert (H : omap (λ r : list A, r !! 0) ((λ x, [x]) <$> l) = l).
  { induction l as [|x l IH]; [done|]. rewrite fmap_cons. cbn [omap list_omap].
    simpl. f_equal. exact IH. }
  unfold transpose, col_vec, nrows. simpl. rewrite length_fmap. by rewrite H.
Qed.

(** the matrix times the row, the row repeated for every row of the matrix *)
Lemma broadcast2_row f (M : ndarray float) (l : list float) :
  wf_ndarray M → ncols M = length l →
  broadcast2 f M (NdArray (length l) [l])
  = Ret (NdArray (length l) ((λ r, zip_with f r l) <$> rows M)).
Proof.
  intros Hwf Hc. unfold broadcast2. unfold nrows at 2. simpl.
  rewrite bcast_dim_one. simpl. rewrite Hc, bcast_dim_same. simpl.
  do 2 f_equal. apply list_eq. intros i. rewrite !list_lookup_fmap.
  destruct (decide (i < nrows M)) as [Hi|Hi].
  - rewrite lookup_seq_lt by done. unfold nrows in Hi.
    destruct (lookup_lt_is_Some_2 (rows M) i Hi) as [r Hr]. rewrite Hr. simpl.
    f_equal. assert (Hlr : length r = length l).
    { eapply Forall_lookup_1 in Hwf; [|exact Hr]. simpl in Hwf. congruence. }
    apply list_eq. intros j. rewrite list_lookup_fmap, lookup_zip_with.
    destruct (decide (j < length l)) as [Hj|Hj].
    + rewrite lookup_seq_lt by done.
      destruct (lookup_lt_is_Some_2 r j) as [x Hx]; [lia|].
      destruct (lookup_lt_is_Some_2 l j Hj) as [y Hy].
      rewrite Hx, Hy. simpl. f_equal. f_equal.
      * apply (bcast_cell_lookup M i j r x); [done|lia|done|done].
      * by apply bcast_cell_row.
    + rewrite lookup_seq_ge by lia. rewrite (lookup_ge_None_2 r) by lia. done.
  - rewrite lookup_seq_ge by lia. unfold nrows in Hi.
    rewrite (lookup_ge_None_2 (rows M)) by lia. done.
Qed.

Section ScaleHeight.
Context (np_exp : float → float).
(** the exponential of a zero is exactly 1, as the C standard has it *)
Hypothesis np_exp_zero : np_exp 0%float = 1%float.
Hypothesis np_exp_neg_zero : np_exp PrimFloat.neg_zero = 1%float.

Lemma scale_height_factor_equal h0 h :
  PrimFloat.is_finite h0 = true → PrimFloat.eqb h0 h = true →
  scale_height_factor np_exp h0 h = 1%float.
Proof.
  intros Hfin Heq. unfold scale_height_factor.
  destruct (sub_of_equal_finite h0 h Hfin Heq) as [-> | ->].
  - change (0 / Ha)%float with 0%float. exact np_exp_zero.
  - change (PrimFloat.neg_zero / Ha)%float with PrimFloat.neg_zero.
    exact np_exp_neg_zero.
Qed.

Lemma scale_height_factors_eq (elev phis : list float) :
  (λ x, np_exp (x / Ha)%float) <$>
    zip_with PrimFloat.sub elev (geometric_height <$> phis)
  = scale_height_factors np_exp elev phis.
Proof.
  unfold scale_height_factors. revert phis.
  induction elev as [|e elev IH]; intros [|p phis]; try done.
  simpl. f_equal. apply IH.
Qed.

Lemma scale_height_factors_lookup (elev phis : list float) s e p :
  elev !! s = Some e → phis !! s = Some p →
  scale_height_factors np_exp elev phis !! s
  = Some (scale_height_factor np_exp e (geometric_height p)).
Proof.
  intros He Hp. unfold scale_height_factors. rewrite lookup_zip_with.
  rewrite He. simpl. rewrite Hp. done.
Qed.

End ScaleHeight.

(** ** When the static extraction returns *)

Lemma column_wf {A} (a : ndarray A) s :
  wf_ndarray a → s < ncols a → ∃ col, column a s = Ret col.
Proof.
  intros Hwf Hs. unfold column.
  assert ((s <? ncols a) = true) as -> by by apply Nat.ltb_lt.
  apply mapM_Ret. intros r Hr. unfold getitem.
  eapply Forall_forall in Hwf; [|exact Hr]. simpl in Hwf.
  destruct (lookup_lt_is_Some_2 r s) as [x ->]; [lia|]. eauto.
Qed.

Lemma datetime_for_station_of_wf (request : ndarray datetime64) n :
  wf_ndarray request → n ≤ ncols request →
  ∃ dfs, datetime_for_station_of request n = Ret dfs.
Proof.
  intros Hwf Hn. unfold datetime_for_station_of. apply mapM_Ret.
  intros s Hs. apply elem_of_seq in Hs.
  destruct (column_wf request s Hwf) as [col ->]; [lia|]. simpl. eauto.
Qed.

Section StaticReturns.
Context {coord : Type} (coord_leb coord_eqb : coord → coord → bool).
Context {V : Type} (nan : V) (uninit : nat → nat → V).
Context (nearest : list coord → coord → option nat).
Context (interp : list Z → list V → Z → V).
Context (fs : string → option (@Dataset coord V)).

Local Abbreviation open_selection := (open_selection nearest fs).
Local Abbreviation select_times := (select_times nan interp).
Local Abbreviation station_row := (station_row nearest).
Local Abbreviation station_data_of := (station_data_of nan uninit nearest).
Local Abbreviation extract_dataset :=
  (extract_dataset coord_leb coord_eqb nan uninit nearest interp fs).
Local Abbreviation lons_unique lons := (np_unique coord_leb coord_eqb lons).
Local Abbreviation lats_unique lats := (np_unique coord_leb coord_eqb lats).

Lemma open_selection_present lats_u lons_u path variables tr dataset name :
  open_selection lats_u lons_u path variables = (tr, Ret dataset) →
  name ∈ variables → is_Some (lookup_var name (ds_vars dataset)).
Proof.
  unfold open_selection, xr_open_dataset. simpl.
  destruct (fs path) as [ds|]; simpl; [|done].
  destruct (ds_sel_nearest _ _ _ _) as [ds'|] eqn:E1; simpl; [|done].
  destruct (ds_getitem_list _ _) as [ds''|] eqn:E2; simpl; [|done].
  intros H Hin. inversion H; subst. by eapply ds_getitem_list_present.
Qed.

Lemma select_times_present (dataset D : @Dataset coord V) ts interpolate name :
  select_times dataset ts interpolate = ([], Ret (Some D)) →
  is_Some (lookup_var name (ds_vars dataset)) → is_Some (lookup_var name (ds_vars D)).
Proof.
  intros H [f Hf].
  apply (select_times_Ret nan interp) in H
    as (_ & [(_ & _ & _ & H)|[(_ & _ & H)|(_ & ->)]]); [| |eauto].
  - unfold ds_interp_time in H. destruct ts as [|t ts]; [done|].
    inversion H; subst. simpl. rewrite lookup_var_prod_map, Hf. simpl. eauto.
  - unfold ds_sel_time in H.
    destruct (mapM _ ts) as [idx|]; simpl in H; [|done].
    inversion H; subst. simpl. rewrite lookup_var_prod_map, Hf. simpl. eauto.
Qed.

Lemma station_data_static_returns (D : @Dataset coord V) name lats lons
    (lu : list coord) request dfs :
  is_Some (lookup_var name (ds_vars D)) →
  ds_time D ≠ [] →
  length lons ≤ length lats → length lons ≤ length lu →
  (∀ s lat lon, lats !! s = Some lat → lons !! s = Some lon →
     is_Some (nearest (ds_lat D) lat) ∧ is_Some (nearest (ds_lon D) lon)) →
  ∃ M, station_data_of D lats lons lu request dfs false name = Ret M.
Proof.
  intros [f Hf] Htime Hlats Hlu Hnear. unfold station_data_of.
  destruct (foldM_seq_Ret (station_row D name lats lons)
    (λ _ M, ncols M = 1 ∧ nrows M = length lu) (length lons) 0
    (np_empty uninit (length lu) 1)) as (M & HM & _); [| |eauto].
  - intros k M Hk [Hc Hr].
    destruct (lookup_lt_is_Some_2 lats k) as [lat Hlat]; [lia|].
    destruct (lookup_lt_is_Some_2 lons k) as [lon Hlon]; [lia|].
    destruct (Hnear k lat lon Hlat Hlon) as [[a Ha] [b Hb]].
    destruct (ds_time D) as [|t0 ts] eqn:Et; [done|].
    exists (NdArray 1 (<[k := [f 0 a b]]> (rows M))). split.
    + unfold station_row, getitem, da_sel_point, series.
      rewrite Hlat. cbn [mbind outcome_bind]. rewrite Hlon. cbn [mbind outcome_bind].
      rewrite Hf. cbn [or_raise mbind outcome_bind]. rewrite Ha.
      cbn [or_raise mbind outcome_bind]. rewrite Hb, Et. simpl.
      unfold set_row. assert ((k <? nrows M) = true) as -> by (apply Nat.ltb_lt; lia).
      rewrite Hc. simpl. done.
    + unfold nrows. simpl. rewrite length_insert. done.
  - destruct (np_empty_shape uninit (length lu) 1) as (Hc & Hr & _). done.
Qed.

(** X25: the static extraction returns its matrices once the file is open with
    the requested variables, every station has a column in the request,
    the time selection succeeds on a non-empty axis, each station has both
    coordinates and a nearest grid cell, and no longitude is repeated
    (there are as many unique longitudes as stations). *)
Lemma static_extraction_returns lats lons dataset_path variables request dataset D :
  open_selection (lats_unique lats) (lons_unique lons) dataset_path variables
    = ([EvOpen dataset_path], Ret dataset) →
  wf_ndarray request → length lons ≤ ncols request →
  select_times dataset (datetime_for_interp_of request) false = ([], Ret (Some D)) →
  ds_time D ≠ [] →
  length lons ≤ length lats →
  length lons ≤ length (lons_unique lons) →
  (∀ s lat lon, lats !! s = Some lat → lons !! s = Some lon →
     is_Some (nearest (ds_lat D) lat) ∧ is_Some (nearest (ds_lon D) lon)) →
  ∃ var, extract_dataset lats lons dataset_path variables (TimeMatrix request) false
         = ([EvOpen dataset_path], Ret (VarList var)).
Proof.
  intros Hopen Hwf Hcols Hsel Htime Hlats Hlu Hnear.
  destruct (datetime_for_station_of_wf request (length lons) Hwf Hcols) as [dfs Hdfs].
  pose proof (extract_dataset_run coord_leb coord_eqb nan uninit nearest interp fs
                lats lons dataset_path variables request false) as Hrun.
  destruct Hrun as [e' Ho|ds e' Ho Hd|ds dfs' e' Ho Hd Hs|ds dfs' Ho Hd Hs
                    |ds dfs' sel Ho Hd Hs];
    rewrite Hopen in Ho; try done; inversion Ho; subst ds.
  - rewrite Hdfs in Hd. done.
  - rewrite Hsel in Hs. done.
  - rewrite Hsel in Hs. done.
  - rewrite Hsel in Hs. inversion Hs; subst sel.
    destruct (mapM_Ret (station_data_of D lats lons (lons_unique lons) request dfs' false)
                variables) as [var Hvar].
    + intros name Hname. apply station_data_static_returns; try done.
      eapply select_times_present; [exact Hsel|].
      by eapply open_selection_present.
    + exists var. rewrite Hvar. done.
Qed.
End StaticReturns.

(** ** When the interpolating extraction returns *)

Lemma broadcast_to_Ret {A} n (v : list A) :
  length v = n ∨ length v = 1 → ∃ v', broadcast_to n v = Ret v'.
Proof.
  intros [H|H]; unfold broadcast_to.
  - apply Nat.eqb_eq in H. rewrite H. eauto.
  - destruct (length v =? n); [eauto|]. destruct v as [|x [|y v]]; try done. eauto.
Qed.

Lemma set_col_Ret {A} s (v : list A) (a : ndarray A) :
  s < ncols a → length v = nrows a ∨ length v = 1 →
  ∃ a', set_col s v a = Ret a' ∧ ncols a' = ncols a ∧ nrows a' = nrows a.
Proof.
  intros Hs Hv. destruct (broadcast_to_Ret (nrows a) v Hv) as [v' Hv'].
  exists (NdArray (ncols a) (zip_with (λ r x, <[s:=x]> r) (rows a) v')).
  assert (Hset : set_col s v a
                 = Ret (NdArray (ncols a) (zip_with (λ r x, <[s:=x]> r) (rows a) v'))).
  { unfold set_col. assert ((s <? ncols a) = true) as -> by by apply Nat.ltb_lt.
    by rewrite Hv'. }
  split; [done|]. by apply set_col_shape in Hset as (? & ? & _).
Qed.

Lemma column_elem_of {A} (a : ndarray A) s col x :
  column a s = Ret col → x ∈ col → x ∈ concat (rows a).
Proof.
  unfold column. destruct (s <? ncols a); [|done]. intros Hcol Hx.
  apply mapM_Forall2 in Hcol. apply list_elem_of_lookup in Hx as [i Hi].
  destruct (Forall2_lookup_r _ _ _ _ _ Hcol Hi) as (r & Hr & Hget).
  unfold getitem in Hget. destruct (r !! s) as [y|] eqn:Ey; [|done].
  inversion Hget; subst y. apply list_elem_of_In, in_concat. exists r.
  split; apply list_elem_of_In; by eapply list_elem_of_lookup_2.
Qed.

Section InterpReturns.
Context {coord : Type} (coord_leb coord_eqb : coord → coord → bool).
Context {V : Type} (nan : V) (uninit : nat → nat → V).
Context (nearest : list coord → coord → option nat).
Context (interp : list Z → list V → Z → V).
Context (fs : string → option (@Dataset coord V)).

Local Abbreviation open_selection := (open_selection nearest fs).
Local Abbreviation select_times := (select_times nan interp).
Local Abbreviation station_column := (station_column nan nearest).
Local Abbreviation station_data_of := (station_data_of nan uninit nearest).
Local Abbreviation extract_dataset :=
  (extract_dataset coord_leb coord_eqb nan uninit nearest interp fs).
Local Abbreviation lons_unique lons := (np_unique coord_leb coord_eqb lons).
Local Abbreviation lats_unique lats := (np_unique coord_leb coord_eqb lats).

Lemma da_sel_time_Ret (axis : list Z) (vals : list V) (times : list Z) :
  length vals = length axis → (∀ t, t ∈ times → t ∈ axis) →
  ∃ data, da_sel_time (axis, vals) times = Ret data ∧ length data = length times.
Proof.
  intros Hlen Hall. unfold da_sel_time.
  destruct (mapM_Ret (λ t, k ← or_raise KeyError (index_of t axis);
                           or_raise KeyError (vals !! k)) times) as [data Hdata].
  - intros t Ht. apply Hall in Ht.
    destruct (index_of t axis) as [k|] eqn:Ek.
    + apply index_of_Some in Ek. apply lookup_lt_Some in Ek.
      destruct (lookup_lt_is_Some_2 vals k) as [x Hx]; [lia|].
      exists x. simpl. by rewrite Hx.
    + by apply index_of_None in Ek.
  - exists data. split; [done|]. by apply mapM_length in Hdata.
Qed.

Lemma station_data_interp_returns (D : @Dataset coord V) name lats lons
    (lu : list coord) request dfs :
  is_Some (lookup_var name (ds_vars D)) →
  length lons ≤ length lats →
  (∀ s, s < length lons →
     ∃ times, dfs !! s = Some times ∧
       (times = [] ∨ length times = nrows request ∨ length times = 1) ∧
       ∀ t, t ∈ times → t ∈ ds_time D) →
  (∀ s lat lon, lats !! s = Some lat → lons !! s = Some lon →
     is_Some (nearest (ds_lat D) lat) ∧ is_Some (nearest (ds_lon D) lon)) →
  ∃ M, station_data_of D lats lons lu request dfs true name = Ret M.
Proof.
  intros [f Hf] Hlats Hdfs Hnear. unfold station_data_of.
  destruct (foldM_seq_Ret (station_column D name lats lons request dfs)
    (λ _ M, ncols M = length lats ∧ nrows M = nrows request) (length lons) 0
    (np_empty uninit (nrows request) (length lats))) as (M & HM & _); [| |eauto].
  - intros k M Hk [Hc Hr].
    destruct (Hdfs k) as (times & Htimes & Hcount & Haxis); [lia|].
    unfold station_column, getitem. rewrite Htimes. cbn [mbind outcome_bind].
    destruct (length times =? 0) eqn:E0.
    + destruct (set_col_Ret k (replicate (nrows request) nan) M) as (M' & -> & ? & ?).
      * lia.
      * left. by rewrite length_replicate.
      * exists M'. split; [done|]. split; congruence.
    + apply Nat.eqb_neq in E0.
      destruct (lookup_lt_is_Some_2 lats k) as [lat Hlat]; [lia|].
      destruct (lookup_lt_is_Some_2 lons k) as [lon Hlon]; [lia|].
      destruct (Hnear k lat lon Hlat Hlon) as [[a Ha] [b Hb]].
      rewrite Hlat. cbn [mbind outcome_bind]. rewrite Hlon. cbn [mbind outcome_bind].
      unfold da_sel_point. rewrite Hf. cbn [or_raise mbind outcome_bind].
      rewrite Ha. cbn [or_raise mbind outcome_bind]. rewrite Hb.
      cbn [or_raise mbind outcome_bind mret outcome_ret].
      destruct (da_sel_time_Ret (ds_time D) (series D f a b) times) as (data & -> & Hdata).
      * unfold series. by rewrite length_fmap, length_seq.
      * exact Haxis.
      * cbn [mbind outcome_bind].
        destruct (set_col_Ret k data M) as (M' & -> & ? & ?).
        -- lia.
        -- destruct Hcount as [->|[Hn|H1]]; [done|left; congruence|right; congruence].
        -- exists M'. split; [done|]. split; congruence.
  - destruct (np_empty_shape uninit (nrows request) (length lats)) as (Hc & Hr & _). done.
Qed.

(** X26: the interpolating extraction returns its matrices once the file is
    open with the requested variables, of which there is at least one,
    every station has both coordinates, a column in the request and a
    nearest grid cell, and the valid timestamps of each station are none,
    one, or as many as the request has rows (the column assignment accepts
    nothing else); for a file with more than one time step some timestamp
    of the request must be valid (the interpolation refuses an empty set),
    for a file with a single time step the requested timestamps must be
    that step. *)
Lemma interp_extraction_returns lats lons dataset_path variables request dataset :
  open_selection (lats_unique lats) (lons_unique lons) dataset_path variables
    = ([EvOpen dataset_path], Ret dataset) →
  variables ≠ [] →
  wf_ndarray request → length lons ≤ ncols request → length lons ≤ length lats →
  (1 < length (ds_time dataset) → ∃ t, Some t ∈ concat (rows request)) →
  (∀ s col, s < length lons → column request s = Ret col →
     valid_times col = [] ∨ length (valid_times col) = nrows request ∨
     length (valid_times col) = 1) →
  (length (ds_time dataset) ≤ 1 →
     ∀ t, Some t ∈ concat (rows request) → t ∈ ds_time dataset) →
  (∀ s lat lon, lats !! s = Some lat → lons !! s = Some lon →
     is_Some (nearest (ds_lat dataset) lat) ∧ is_Some (nearest (ds_lon dataset) lon)) →
  ∃ var, extract_dataset lats lons dataset_path variables (TimeMatrix request) true
         = ([EvOpen dataset_path], Ret (VarList var)).
Proof.
  intros Hopen Hv Hwf Hcols Hlats Hsome Hcount Hstatic Hnear.
  pose proof (extract_dataset_run coord_leb coord_eqb nan uninit nearest interp fs
                lats lons dataset_path variables request true) as Hrun.
  destruct (datetime_for_station_of_wf request (length lons) Hwf Hcols) as [dfs Hdfs].
  assert (Hsel : ∃ D, select_times dataset (datetime_for_interp_of request) true
                      = ([], Ret (Some D)) ∧
                   ds_lat D = ds_lat dataset ∧ ds_lon D = ds_lon dataset ∧
                   (∀ t, Some t ∈ concat (rows request) → t ∈ ds_time D) ∧
                   ∀ name, is_Some (lookup_var name (ds_vars dataset)) →
                           is_Some (lookup_var name (ds_vars D))).
  { destruct (select_times_interp nan interp dataset (datetime_for_interp_of request))
      as (D & HD & Hla & Hlo & Hone & Hmany & Hnames).
    - apply (open_selection_vars nearest fs) in Hopen. intros Hnil.
      rewrite Hnil in Hopen. by destruct variables.
    - intros Hlen Hnil. destruct (Hsome Hlen) as [t Ht].
      apply datetime_for_interp_elem_of in Ht. rewrite Hnil in Ht.
      by apply elem_of_nil in Ht.
    - exists D. split; [done|]. split; [done|]. split; [done|]. split; [|done].
      intros t Ht. destruct (decide (1 < length (ds_time dataset))) as [Hl|Hl].
      + rewrite (Hmany Hl). by apply datetime_for_interp_elem_of.
      + rewrite (Hone ltac:(lia)). apply Hstatic; [lia|done]. }
  destruct Hsel as (D & Hsel & HlatD & HlonD & Haxis & Hnames).
  destruct Hrun as [e' Ho|ds e' Ho Hd|ds dfs' e' Ho Hd Hs|ds dfs' Ho Hd Hs
                    |ds dfs' sel Ho Hd Hs];
    rewrite Hopen in Ho; try done; inversion Ho; subst ds.
  - rewrite Hdfs in Hd. done.
  - rewrite Hsel in Hs. done.
  - rewrite Hsel in Hs. done.
  - rewrite Hsel in Hs. inversion Hs; subst sel.
    rewrite Hdfs in Hd. inversion Hd; subst dfs'.
    destruct (mapM_Ret (station_data_of D lats lons (lons_unique lons) request dfs true)
                variables) as [var Hvar].
    + intros name Hname. apply station_data_interp_returns.
      * apply Hnames. by eapply open_selection_present.
      * done.
      * intros s Hs'. unfold datetime_for_station_of in Hdfs.
        destruct (mapM_lookup _ _ _ s s Hdfs) as (times & Htimes & Hlook).
        { apply lookup_seq. lia. }
        apply outcome_bind_Ret in Htimes as (col & Hcol & Htimes).
        inversion Htimes; subst times. exists (valid_times col).
        split; [done|]. split; [by eapply Hcount|].
        intros t Ht. apply Haxis. apply valid_times_no_NaT in Ht.
        by eapply column_elem_of.
      * rewrite HlatD, HlonD. exact Hnear.
    + exists var. rewrite Hvar. done.
Qed.
End InterpReturns.

(** ** [extract_for_MERRA2] around its post-processing *)

Section Merra2Facts.
Context {coord : Type} (coord_leb coord_eqb : coord → coord → bool).
Context (uninit : nat → nat → float).
Context (nearest : list coord → coord → option nat).
Context (interp : list Z → list float → Z → float).
Context (fs : string → option (@Dataset coord float)).
Context (listdir : string → list string).
Context (np_exp : float → float).

(** When the stitcher returns the seven matrices and the static extraction
    the geopotential, the pipeline is the post-processing of them (the two
    traces one after the other). *)
Lemma extract_for_MERRA2_postprocess lats lons times elev datadir dirlist asm asmlist
    tr1 tr2 AOD_550 tot_aer_ext tot_angst albedo ozone water_vapour pressure phis :
  classify datadir (listdir datadir) = (dirlist, asm :: asmlist) →
  extract_dataset_list coord_leb coord_eqb PrimFloat.nan uninit nearest interp fs
    lats lons dirlist merra2_variables times true
    = (tr1, Ret (VarList [AOD_550; tot_aer_ext; tot_angst; albedo; ozone;
                          water_vapour; pressure])) →
  extract_dataset coord_leb coord_eqb PrimFloat.nan uninit nearest interp fs
    lats lons asm ["PHIS"] (TimeMatrix times) false
    = (tr2, Ret (VarList [phis])) →
  extract_for_MERRA2 coord_leb coord_eqb uninit nearest interp fs listdir np_exp
    lats lons times elev datadir
  = (tr1 ++ tr2,
     merra2_postprocess np_exp AOD_550 tot_aer_ext tot_angst albedo ozone water_vapour
       pressure phis elev (nrows times) (length lats)).
Proof.
  intros Hcls Hstitched Hstatic. unfold extract_for_MERRA2.
  rewrite Hcls, Hstitched. cbn -[extract_dataset].
  rewrite Hstatic. cbn. by rewrite !app_nil_r.
Qed.
End Merra2Facts.

(** ** The concrete instance at work *)

(** two stations on the same longitude: one unique longitude, two rows to
    write *)
Example repeated_longitude_raises :
  Sample.extract_dataset [1; 12]%Z [2; 2]%Z "const.nc" ["PHIS"]
    (TimeMatrix Sample.times) false
  = ([EvOpen "const.nc"], Raise IndexError).
Proof. reflexivity. Qed.

(** two latitudes that snap to the same grid line: the selected latitude
    axis holds that label twice and the lookup of a station on it is
    refused *)
Example repeated_grid_label_raises :
  ∃ e, Sample.extract_dataset [1; 2]%Z [2; 19]%Z "const.nc" ["PHIS"]
         (TimeMatrix Sample.times) false
       = ([EvOpen "const.nc"], Raise e).
Proof. eexists. reflexivity. Qed.

(** the rows follow the file list, whatever the times of the files *)
Example rows_follow_the_file_list :
  Sample.extract_dataset_list Sample.lats Sample.lons ["b.nc"; "a.nc"] ["TQV"]
    Sample.times true
  = ([EvOpen "b.nc"; EvOpen "b.nc"; EvOpen "a.nc"; EvOpen "a.nc"],
     Ret (VarList [NdArray 2 [[None; Some 11012]; [None; Some 15012];
                              [Some 600; None]; [Some 4200; None]]%Z])).
Proof. reflexivity. Qed.

(** C6: a request that holds no timestamp, given as the documented array
    (here one row of NaT for the two stations), is not what the guard
    [datetime == []] recognises.  On a file with several time steps the
    file is opened and the interpolation onto the empty set of instants
    raises; on a file with a single time step the file is opened and a
    matrix of NaN is returned.  In neither case is the result the empty
    list, and in both the file has been opened. *)
Theorem all_NaT_request_opens_the_file :
  Sample.extract_dataset Sample.lats Sample.lons "a.nc" ["TQV"]
    (TimeMatrix (NdArray 2 [[NaT; NaT]])) true
  = ([EvOpen "a.nc"], Raise ValueError) ∧
  Sample.extract_dataset Sample.lats Sample.lons "const.nc" ["PHIS"]
    (TimeMatrix (NdArray 2 [[NaT; NaT]])) true
  = ([EvOpen "const.nc"], Ret (VarList [NdArray 2 [[None; None]]])).
Proof. split; reflexivity. Qed.

(** exact mode with every requested time on the native axis *)
Example exact_mode_on_the_axis :
  Sample.extract_dataset Sample.lats Sample.lons "a.nc" ["TQV"]
    (TimeMatrix (NdArray 2 [[Some 3600; Some 7200]]%Z)) false
  = ([EvOpen "a.nc"], Ret (VarList [NdArray 1 [[Some 3600]; [Some 3612]]%Z])).
Proof. reflexivity. Qed.

(** * Further properties of the extractor *)

(** ** Reading a column back *)

Lemma mapM_fmap_Ret {A B} (f : A → outcome B) (g : A → B) l :
  (∀ x, x ∈ l → f x = Ret (g x)) → mapM f l = Ret (g <$> l).
Proof.
  induction l as [|x l IH]; intros H; [done|].
  simpl. rewrite (H x) by left. simpl. rewrite IH; [done|].
  intros y Hy. apply H. by right.
Qed.

Lemma mapM_Raise_inv {A B} (f : A → outcome B) l e :
  mapM f l = Raise e → ∃ x, x ∈ l ∧ f x = Raise e.
Proof.
  induction l as [|x l IH]; [done|]. simpl.
  destruct (f x) as [y|e'] eqn:E; simpl.
  - destruct (mapM f l) as [ys|e'] eqn:E'; simpl; [done|].
    intros H. inversion H; subst. destruct IH as (z & Hz & Hf); [done|].
    exists z. split; [by right|done].
  - intros H. inversion H; subst. exists x. split; [left|done].
Qed.

Lemma column_set_col_eq {A} s (v : list A) (a a' : ndarray A) :
  wf_ndarray a → set_col s v a = Ret a' →
  column a' s = broadcast_to (nrows a) v.
Proof.
  unfold set_col. intros Hwf H. destruct (s <? ncols a) eqn:Es; [|done].
  apply outcome_bind_Ret in H as (v' & Hv & H). inversion H; subst. clear H.
  rewrite Hv. apply broadcast_to_length in Hv.
  unfold column. simpl. rewrite Es. apply Nat.ltb_lt in Es.
  unfold wf_ndarray, nrows in *. revert v' Hv.
  induction Hwf as [|r rs Hr Hwf IH]; intros v' Hv.
  - by destruct v'.
  - destruct v' as [|x v']; [done|]. simpl in Hv. simpl.
    assert (getitem (<[s:=x]> r) s = Ret x) as ->.
    { unfold getitem. by rewrite list_lookup_insert_eq by lia. }
    simpl. rewrite (IH v') by lia. done.
Qed.

Lemma column_set_col_ne {A} s s' (v : list A) (a a' : ndarray A) :
  set_col s v a = Ret a' → s' ≠ s → column a' s' = column a s'.
Proof.
  unfold set_col. intros H Hne. destruct (s <? ncols a) eqn:Es; [|done].
  apply outcome_bind_Ret in H as (v' & Hv & H). inversion H; subst. clear H.
  apply broadcast_to_length in Hv.
  unfold column. simpl. destruct (s' <? ncols a); [|done].
  unfold nrows in Hv. revert v' Hv.
  induction (rows a) as [|r rs IH]; intros v' Hv.
  - by destruct v'.
  - destruct v' as [|x v']; [done|]. simpl in Hv. simpl.
    assert (getitem (<[s:=x]> r) s' = getitem r s') as ->.
    { unfold getitem. by rewrite list_lookup_insert_ne by done. }
    destruct (getitem r s'); simpl; [|done]. rewrite (IH v') by lia. done.
Qed.

Lemma set_col_in_range {A} s (v : list A) (a a' : ndarray A) :
  set_col s v a = Ret a' → s < ncols a.
Proof.
  unfold set_col. destruct (s <? ncols a) eqn:E; [|done]. intros _.
  by apply Nat.ltb_lt.
Qed.

Lemma da_sel_time_on_axis {V} (da : list Z * list V) ts data t :
  da_sel_time da ts = Ret data → t ∈ ts → t ∈ da.1.
Proof.
  unfold da_sel_time. intros H Ht. apply mapM_Forall2 in H.
  apply list_elem_of_lookup in Ht as [i Hi].
  destruct (Forall2_lookup_l _ _ _ _ _ H Hi) as (x & _ & Hx).
  destruct (index_of t da.1) as [k|] eqn:E; [|done].
  apply index_of_Some in E. by eapply list_elem_of_lookup_2.
Qed.

(** ** The interpolation branch, station by station *)

Section InterpFacts.
Context {coord : Type} (coord_leb coord_eqb : coord → coord → bool).
Context {V : Type} (nan : V) (uninit : nat → nat → V).
Context (nearest : list coord → coord → option nat).
Context (interp : list Z → list V → Z → V).
Context (fs : string → option (@Dataset coord V)).

Local Abbreviation open_selection := (open_selection nearest fs).
Local Abbreviation select_times := (select_times nan interp).
Local Abbreviation station_column := (station_column nan nearest).
Local Abbreviation station_data_of := (station_data_of nan uninit nearest).
Local Abbreviation interp_cols_inv := (interp_cols_inv (V:=V) nan uninit nearest).
Local Abbreviation extract_dataset :=
  (extract_dataset coord_leb coord_eqb nan uninit nearest interp fs).
Local Abbreviation lons_unique lons := (np_unique coord_leb coord_eqb lons).
Local Abbreviation lats_unique lats := (np_unique coord_leb coord_eqb lats).

Lemma column_np_empty r c s :
  s < c → column (np_empty uninit r c) s = Ret ((λ i, uninit i s) <$> seq 0 r).
Proof.
  intros Hs. unfold column, np_empty. simpl.
  assert ((s <? c) = true) as -> by by apply Nat.ltb_lt.
  induction (seq 0 r) as [|i l IH]; [done|].
  rewrite !fmap_cons. cbn [mapM].
  assert (getitem (uninit i <$> seq 0 c) s = Ret (uninit i s)) as ->.
  { unfold getitem. by rewrite list_lookup_fmap, lookup_seq_lt. }
  simpl. by rewrite IH.
Qed.

Lemma station_column_step (D : @Dataset coord V) name lats lons request dfs k M M' :
  interp_cols_inv D name lats lons request dfs k M →
  station_column D name lats lons request dfs M k = Ret M' →
  interp_cols_inv D name lats lons request dfs (S k) M'.
Proof.
  intros (Hc & Hr & Hwf & Hk & Hdone & Hrest) H. unfold station_column in H.
  apply outcome_bind_Ret in H as (times & Htimes & H).
  unfold getitem in Htimes. destruct (dfs !! k) as [times'|] eqn:Edfs; [|done].
  inversion Htimes; subst times'. clear Htimes.
  assert (∃ v, set_col k v M = Ret M' ∧
     ((times = [] ∧ v = replicate (nrows request) nan) ∨
      (times ≠ [] ∧ ∃ lat lon da,
         lats !! k = Some lat ∧ lons !! k = Some lon ∧
         da_sel_point nearest D name lat lon = Ret da ∧
         da_sel_time da times = Ret v))) as (v & Hset & Hv).
  { destruct (length times =? 0) eqn:E0.
    - apply Nat.eqb_eq in E0. apply nil_length_inv in E0. eauto.
    - apply Nat.eqb_neq in E0.
      apply outcome_bind_Ret in H as (lat & Hlat & H).
      apply outcome_bind_Ret in H as (lon & Hlon & H).
      apply outcome_bind_Ret in H as (da & Hda & H).
      apply outcome_bind_Ret in H as (data & Hdata & H).
      unfold getitem in Hlat, Hlon.
      destruct (lats !! k) as [lat'|] eqn:Elat; [|done].
      destruct (lons !! k) as [lon'|] eqn:Elon; [|done].
      inversion Hlat; inversion Hlon; subst.
      exists data. split; [done|]. right. split.
      + intros ->. done.
      + by exists lat, lon, da. }
  clear H.
  pose proof (set_col_in_range _ _ _ _ Hset) as Hlt.
  pose proof (column_set_col_eq _ _ _ _ Hwf Hset) as Hcol.
  destruct (set_col_shape _ _ _ _ Hset) as (Hc' & Hr' & Hwf').
  refine (conj _ (conj _ (conj _ (conj _ (conj _ _))))).
  - congruence.
  - congruence.
  - auto.
  - lia.
  - intros s Hs. destruct (decide (s = k)) as [->|Hne].
    + exists times. split; [done|]. rewrite Hcol, Hr.
      destruct Hv as [[-> ->]|(Hne & lat & lon & da & Hlat & Hlon & Hda & Hdata)].
      * left. split; [done|]. unfold broadcast_to.
        by rewrite length_replicate, Nat.eqb_refl.
      * right. split; [done|]. by exists lat, lon, da, v.
    + destruct (Hdone s) as (ts & Hts & Hcase); [lia|].
      exists ts. split; [done|].
      rewrite (column_set_col_ne _ _ _ _ _ Hset Hne). exact Hcase.
  - intros s Hs Hs'. rewrite (column_set_col_ne _ s _ _ _ Hset) by lia.
    apply Hrest; lia.
Qed.

Lemma station_data_interp_inv (D : @Dataset coord V) name lats lons (lu : list coord)
    request dfs M :
  station_data_of D lats lons lu request dfs true name = Ret M →
  interp_cols_inv D name lats lons request dfs (length lons) M.
Proof.
  unfold station_data_of. intros H.
  apply (foldM_seq_inv _ (interp_cols_inv D name lats lons request dfs)) in H; [done| |].
  - intros k M1 M2 _. apply station_column_step.
  - destruct (np_empty_shape uninit (nrows request) (length lats)) as (Hc & Hr & Hwf).
    refine (conj Hc (conj Hr (conj Hwf (conj _ (conj _ _))))); [lia| |].
    + intros s Hs. lia.
    + intros s _ Hs. by apply column_np_empty.
Qed.

(** The assembly of a call that returned matrices, read back from the run. *)
Lemma assembled_run lats lons path variables request interpolate tr var :
  extract_dataset lats lons path variables (TimeMatrix request) interpolate
    = (tr, Ret (VarList var)) →
  ∃ dataset D dfs,
    open_selection (lats_unique lats) (lons_unique lons) path variables
      = ([EvOpen path], Ret dataset) ∧
    select_times dataset (datetime_for_interp_of request) interpolate
      = ([], Ret (Some D)) ∧
    datetime_for_station_of request (length lons) = Ret dfs ∧
    tr = [EvOpen path] ∧
    Forall2 (λ name M,
       station_data_of D lats lons (lons_unique lons) request dfs interpolate name = Ret M)
      variables var.
Proof.
  intros H.
  pose proof (extract_dataset_run coord_leb coord_eqb nan uninit nearest interp fs
                lats lons path variables request interpolate) as Hrun.
  rewrite H in Hrun.
  inversion Hrun as [| | | |dataset dfs D Hopen Hdfs Hsel [Htr Hres]]; subst.
  destruct (mapM _ variables) as [var'|] eqn:Evar; [|done].
  simpl in Hres. inversion Hres; subst var'. clear Hres.
  exists dataset, D, dfs. repeat (split; [done|]). by apply mapM_Forall2.
Qed.

(** X1: whenever a call with [interpolate=True] returns matrices, there is
    one per variable, of [len(datetime)] rows and [len(lats)] columns; the
    column of a station none of whose requested timestamps is valid is NaN
    throughout; the column of any other station holds the values of the
    field at the station's nearest cell, selected at the station's own
    valid timestamps from the interpolated dataset and assigned to the
    whole column; and a column beyond the last station (more latitudes
    than longitudes) is left as [np.empty] allocated it. *)
Theorem interpolation_assembly lats lons dataset_path variables request tr var :
  extract_dataset lats lons dataset_path variables (TimeMatrix request) true
    = (tr, Ret (VarList var)) →
  ∃ dataset dataset_interpolation datetime_for_station,
    open_selection (lats_unique lats) (lons_unique lons) dataset_path variables
      = ([EvOpen dataset_path], Ret dataset) ∧
    select_times dataset (datetime_for_interp_of request) true
      = ([], Ret (Some dataset_interpolation)) ∧
    datetime_for_station_of request (length lons) = Ret datetime_for_station ∧
    length var = length variables ∧
    Forall2 (λ name M,
       interp_cols_inv dataset_interpolation name lats lons request
         datetime_for_station (length lons) M) variables var.
Proof.
  intros H. apply assembled_run in H as (dataset & D & dfs & Ho & Hs & Hd & _ & Hall).
  exists dataset, D, dfs. repeat (split; [done|]). split.
  - symmetry. by eapply Forall2_length.
  - eapply Forall2_impl; [exact Hall|]. intros name M HM.
    by apply station_data_interp_inv in HM.
Qed.

(** X2: with more longitudes than latitudes and at least one variable, a
    call with a matrix request never returns matrices, in either mode: the
    station loop runs over the longitudes and the station right after the
    last latitude cannot be served, so the call ends in an exception
    (unless it has returned -1 or -2 before). *)
Theorem more_longitudes_than_latitudes lats lons dataset_path variables request
    interpolate :
  length lats < length lons → variables ≠ [] →
  (∃ z, (extract_dataset lats lons dataset_path variables (TimeMatrix request)
           interpolate).2 = Ret (PyInt z)) ∨
  (∃ e, (extract_dataset lats lons dataset_path variables (TimeMatrix request)
           interpolate).2 = Raise e).
Proof.
  intros Hlen Hv.
  destruct (extract_dataset lats lons dataset_path variables (TimeMatrix request)
              interpolate) as [tr [[var|z]|e]] eqn:E; simpl; [|eauto..].
  exfalso.
  apply assembled_run in E as (dataset & D & dfs & _ & _ & _ & _ & Hall).
  destruct variables as [|name variables]; [done|].
  apply Forall2_cons_inv_l in Hall as (M & var' & HM & _ & _).
  destruct interpolate.
  - apply station_data_interp_inv in HM as (_ & _ & _ & Hk & _). lia.
  - apply (station_data_static nan uninit nearest) in HM as (_ & _ & _ & _ & Hrows).
    destruct (Hrows (length lats) Hlen) as (lat & _ & _ & _ & Hlat & _).
    apply lookup_lt_Some in Hlat. lia.
Qed.

(** X3: interpolation mode on a file with a single time step.  The time
    selection is skipped, so each station's valid timestamps are looked up
    exactly on the one-step axis: if a station asks for a timestamp that is
    not the file's step and a variable is requested, the call ends in an
    exception after opening the file; nothing is interpolated and no value
    is reused for other times. *)
Theorem single_step_file_needs_its_own_time lats lons dataset_path variables request
    dataset s requested t :
  open_selection (lats_unique lats) (lons_unique lons) dataset_path variables
    = ([EvOpen dataset_path], Ret dataset) →
  length (ds_time dataset) ≤ 1 →
  s < length lons → column request s = Ret requested →
  Some t ∈ requested → t ∉ ds_time dataset →
  variables ≠ [] →
  ∃ e, extract_dataset lats lons dataset_path variables (TimeMatrix request) true
       = ([EvOpen dataset_path], Raise e).
Proof.
  intros Hopen Hstep Hs Hcol Ht Hoff Hv.
  pose proof (extract_dataset_run coord_leb coord_eqb nan uninit nearest interp fs
                lats lons dataset_path variables request true) as Hrun.
  assert (Hsel : select_times dataset (datetime_for_interp_of request) true
                 = ([], Ret (Some dataset))).
  { destruct (select_times_interp nan interp dataset (datetime_for_interp_of request))
      as (D & HD & _ & _ & Hone & _).
    - apply (open_selection_vars nearest fs) in Hopen. intros Hnil.
      rewrite Hnil in Hopen. by destruct variables.
    - lia.
    - by rewrite <- (Hone Hstep) at 2. }
  destruct Hrun as [e' Ho|ds e' Ho Hd|ds dfs e' Ho Hd Hsl|ds dfs Ho Hd Hsl
                    |ds dfs sel Ho Hd Hsl];
    rewrite Hopen in Ho; try done; inversion Ho; subst ds.
  - eauto.
  - rewrite Hsel in Hsl. done.
  - rewrite Hsel in Hsl. done.
  - rewrite Hsel in Hsl. inversion Hsl; subst sel.
    destruct (mapM _ variables) as [var|e] eqn:Evar; simpl; [|eauto].
    exfalso. apply mapM_Forall2 in Evar.
    destruct variables as [|name variables]; [done|].
    apply Forall2_cons_inv_l in Evar as (M & var' & HM & _ & _).
    apply station_data_interp_inv in HM as (_ & _ & _ & _ & Hdone & _).
    destruct (Hdone s Hs) as (times & Htimes & Hcase).
    unfold datetime_for_station_of in Hd.
    destruct (mapM_lookup _ _ _ s s Hd) as (times' & Htimes' & Hlook).
    { apply lookup_seq. lia. }
    rewrite Hcol in Htimes'. simpl in Htimes'. inversion Htimes'; subst times'.
    rewrite Hlook in Htimes. inversion Htimes; subst times.
    assert (Hin : t ∈ valid_times requested) by by apply valid_times_no_NaT.
    destruct Hcase as [[Hnil _]|(_ & lat & lon & da & data & _ & _ & Hda & Hdata & _)].
    + rewrite Hnil in Hin. by apply elem_of_nil in Hin.
    + apply (da_sel_time_on_axis da _ data t Hdata) in Hin.
      unfold da_sel_point in Hda.
      apply outcome_bind_Ret in Hda as (f & _ & Hda).
      apply outcome_bind_Ret in Hda as (a & _ & Hda).
      apply outcome_bind_Ret in Hda as (b & _ & Hda).
      inversion Hda; subst da. simpl in Hin. done.
Qed.
(** X24: interpolation mode fills the column of a station by assigning
    the values at its valid timestamps to all the rows of the column.  A
    station whose valid timestamps are neither none, nor one, nor as many
    as the request has rows makes that assignment fail: with at least one
    variable the call returns no matrices.  This is the case of a station
    whose timestamps fall only partly into the window of a file. *)
Theorem partly_valid_column_no_result lats lons dataset_path variables request
    s requested :
  s < length lons → column request s = Ret requested →
  length (valid_times requested) ≠ 0 →
  length (valid_times requested) ≠ 1 →
  length (valid_times requested) ≠ nrows request →
  variables ≠ [] →
  (∃ z, (extract_dataset lats lons dataset_path variables (TimeMatrix request)
           true).2 = Ret (PyInt z)) ∨
  (∃ e, (extract_dataset lats lons dataset_path variables (TimeMatrix request)
           true).2 = Raise e).
Proof.
  intros Hs Hcol H0 H1 Hn Hv.
  destruct (extract_dataset lats lons dataset_path variables (TimeMatrix request)
              true) as [tr [[var|z]|e]] eqn:E; simpl; [|eauto..].
  exfalso.
  apply assembled_run in E as (dataset & D & dfs & _ & _ & Hdfs & _ & Hall).
  destruct variables as [|name variables]; [done|].
  apply Forall2_cons_inv_l in Hall as (M & var' & HM & _ & _).
  apply station_data_interp_inv in HM as (Hc & Hr & Hwf & Hk & Hdone & _).
  destruct (Hdone s Hs) as (times & Htimes & Hcase).
  unfold datetime_for_station_of in Hdfs.
  destruct (mapM_lookup _ _ _ s s Hdfs) as (times' & Hf & Htimes').
  { by apply lookup_seq. }
  rewrite Hcol in Hf. simpl in Hf. inversion Hf; subst times'.
  rewrite Htimes in Htimes'. inversion Htimes'; subst times.
  destruct Hcase as [[Hnil _]|(_ & lat & lon & da & data & _ & _ & _ & Hdata & HMs)].
  - by rewrite Hnil in H0.
  - unfold da_sel_time in Hdata. apply mapM_length in Hdata.
    destruct (column_wf M s Hwf) as [col Hcol']; [lia|].
    rewrite Hcol' in HMs. unfold broadcast_to in HMs.
    destruct (length data =? nrows request) eqn:En.
    + apply Nat.eqb_eq in En. lia.
    + destruct data as [|x [|y data]]; simpl in Hdata; [lia|lia|done].
Qed.

End InterpFacts.

(** ** How a call with a matrix request can end *)

Lemma column_Raise {A} (a : ndarray A) s e : column a s = Raise e → e = IndexError.
Proof.
  unfold column. destruct (s <? ncols a).
  - intros H. apply mapM_Raise_inv in H as (r & _ & Hr).
    unfold getitem in Hr. destruct (r !! s); by inversion Hr.
  - intros H. by inversion H.
Qed.

Section OutcomeFacts.
Context {coord : Type} (coord_leb coord_eqb : coord → coord → bool).
Context {V : Type} (nan : V) (uninit : nat → nat → V).
Context (nearest : list coord → coord → option nat).
Context (interp : list Z → list V → Z → V).
Context (fs : string → option (@Dataset coord V)).

Local Abbreviation open_selection := (open_selection nearest fs).
Local Abbreviation select_times := (select_times nan interp).
Local Abbreviation station_data_of := (station_data_of nan uninit nearest).
Local Abbreviation extract_dataset :=
  (extract_dataset coord_leb coord_eqb nan uninit nearest interp fs).
Local Abbreviation lons_unique lons := (np_unique coord_leb coord_eqb lons).
Local Abbreviation lats_unique lats := (np_unique coord_leb coord_eqb lats).

(** X4: a call with a matrix request ends in one of four ways and no
    other.  It opens its own file once, first, and opens nothing else; it
    prints (one message) exactly when it returns an integer; the integer
    is -1 or -2 and nothing else, and -2 only with [interpolate=False];
    otherwise it raises, or it returns one matrix per variable. *)
Theorem extract_dataset_outcomes lats lons dataset_path variables request interpolate :
  extract_dataset lats lons dataset_path variables (TimeMatrix request) interpolate
    = ([EvOpen dataset_path; EvPrint msg_missing_variable], Ret (PyInt (-1))) ∨
  (interpolate = false ∧
   extract_dataset lats lons dataset_path variables (TimeMatrix request) interpolate
     = ([EvOpen dataset_path; EvPrint msg_time_mismatch], Ret (PyInt (-2)))) ∨
  (∃ e, extract_dataset lats lons dataset_path variables (TimeMatrix request) interpolate
        = ([EvOpen dataset_path], Raise e)) ∨
  (∃ var, extract_dataset lats lons dataset_path variables (TimeMatrix request)
            interpolate = ([EvOpen dataset_path], Ret (VarList var)) ∧
          length var = length variables).
Proof.
  pose proof (extract_dataset_run coord_leb coord_eqb nan uninit nearest interp fs
                lats lons dataset_path variables request interpolate) as Hrun.
  destruct Hrun as [e Ho|ds e Ho Hd|ds dfs e Ho Hd Hs|ds dfs Ho Hd Hs
                    |ds dfs sel Ho Hd Hs].
  - by left.
  - right. right. left. eauto.
  - right. right. left. eauto.
  - right. left. split; [|done].
    destruct interpolate; [|done]. unfold select_times in Hs.
    destruct (ds_getitem_time ds) as [time|]; [|done].
    cbn [lift mbind Py_bind fst snd app] in Hs.
    destruct (1 <? length time); [|done].
    by destruct (ds_interp_time nan interp ds (datetime_for_interp_of request)).
  - right. right. destruct (mapM _ variables) as [var|e] eqn:E; simpl.
    + right. exists var. split; [done|]. by apply mapM_length in E.
    + left. eauto.
Qed.

(** X5: a file that cannot be opened is not reported as such: the bare
    [except] of the first [try] catches the failure, the call prints the
    message about a missing variable and returns -1. *)
Theorem unopenable_file_returns_minus_one lats lons dataset_path variables request
    interpolate :
  fs dataset_path = None →
  extract_dataset lats lons dataset_path variables (TimeMatrix request) interpolate
    = ([EvOpen dataset_path; EvPrint msg_missing_variable], Ret (PyInt (-1))).
Proof.
  intros Hfs.
  assert (Hopen : open_selection (lats_unique lats) (lons_unique lons) dataset_path
                    variables = ([EvOpen dataset_path], Raise OSError)).
  { unfold open_selection, xr_open_dataset. simpl. by rewrite Hfs. }
  pose proof (extract_dataset_run coord_leb coord_eqb nan uninit nearest interp fs
                lats lons dataset_path variables request interpolate) as Hrun.
  destruct Hrun as [e Ho|ds e Ho Hd|ds dfs e Ho Hd Hs|ds dfs Ho Hd Hs
                    |ds dfs sel Ho Hd Hs];
    rewrite Hopen in Ho; done.
Qed.

(** X6: a request matrix with fewer columns than there are longitudes.
    Once the file is open with the requested variables, reading the column
    of the first station that has none raises [IndexError]; this happens
    after the file access and before any time selection, so neither -2 nor
    a matrix can come out. *)
Theorem request_with_too_few_columns lats lons dataset_path variables request
    interpolate dataset :
  open_selection (lats_unique lats) (lons_unique lons) dataset_path variables
    = ([EvOpen dataset_path], Ret dataset) →
  ncols request < length lons →
  extract_dataset lats lons dataset_path variables (TimeMatrix request) interpolate
    = ([EvOpen dataset_path], Raise IndexError).
Proof.
  intros Hopen Hcols.
  assert (Hdfs : datetime_for_station_of request (length lons) = Raise IndexError).
  { unfold datetime_for_station_of.
    destruct (mapM _ (seq 0 (length lons))) as [dfs|e] eqn:E.
    - exfalso. destruct (mapM_lookup _ _ _ (ncols request) (ncols request) E)
        as (y & Hy & _).
      { apply lookup_seq. lia. }
      unfold column in Hy. rewrite Nat.ltb_irrefl in Hy. done.
    - apply mapM_Raise_inv in E as (s & _ & Hs).
      destruct (column request s) as [col|e'] eqn:Ec; [done|].
      apply column_Raise in Ec. simpl in Hs. inversion Hs; by subst. }
  pose proof (extract_dataset_run coord_leb coord_eqb nan uninit nearest interp fs
                lats lons dataset_path variables request interpolate) as Hrun.
  destruct Hrun as [e Ho|ds e Ho Hd|ds dfs e Ho Hd Hs|ds dfs Ho Hd Hs
                    |ds dfs sel Ho Hd Hs];
    rewrite Hopen in Ho; try done; rewrite Hdfs in Hd; try done.
  by inversion Hd.
Qed.
End OutcomeFacts.

(** ** Stations on the same longitude *)

Section RepeatedLongitude.
Context {coord : Type} (coord_leb coord_eqb : coord → coord → bool).
Context {V : Type} (nan : V) (uninit : nat → nat → V).
Context (nearest : list coord → coord → option nat).
Context (interp : list Z → list V → Z → V).
Context (fs : string → option (@Dataset coord V)).
Hypothesis leb_total : ∀ x y, coord_leb x y = true ∨ coord_leb y x = true.
Hypothesis leb_trans :
  ∀ x y z, coord_leb x y = true → coord_leb y z = true → coord_leb x z = true.
Hypothesis leb_antisym : ∀ x y, coord_leb x y = true → coord_leb y x = true → x = y.
Hypothesis eqb_eq : ∀ x y, coord_eqb x y = true ↔ x = y.

Local Abbreviation extract_dataset :=
  (extract_dataset coord_leb coord_eqb nan uninit nearest interp fs).

Lemma np_unique_full_length_NoDup (l : list coord) :
  length l ≤ length (np_unique coord_leb coord_eqb l) → NoDup l.
Proof.
  intros Hlen.
  apply NoDup_ListNoDup.
  apply NoDup_incl_NoDup with (l := np_unique coord_leb coord_eqb l).
  - apply NoDup_ListNoDup. by apply np_unique_NoDup.
  - done.
  - intros x Hx. apply list_elem_of_In. apply list_elem_of_In in Hx.
    exact (proj1 (np_unique_elem_of coord_leb coord_eqb (λ a b, proj1 (eqb_eq a b)) l x) Hx).
Qed.

Lemma static_matrices_need_distinct_longitudes lats lons dataset_path variables
    request tr var i j x :
  lons !! i = Some x → lons !! j = Some x → i ≠ j → variables ≠ [] →
  extract_dataset lats lons dataset_path variables (TimeMatrix request) false
    ≠ (tr, Ret (VarList var)).
Proof.
  intros Hi Hj Hne Hv E.
  apply assembled_run in E as (dataset & D & dfs & _ & _ & _ & _ & Hall).
  destruct variables as [|name variables]; [done|].
  apply Forall2_cons_inv_l in Hall as (M & var' & HM & _ & _).
  apply (station_data_static nan uninit nearest) in HM as (_ & _ & _ & Hk & _).
  apply np_unique_full_length_NoDup in Hk.
  apply Hne. by eapply NoDup_lookup.
Qed.

(** X7: static mode ([interpolate=False]) with two stations on the same
    longitude and at least one variable never returns matrices: the
    result array has one row per unique longitude, the loop writes one row
    per station, and the write for the last stations is out of range. *)
Theorem repeated_longitude_no_static_result lats lons dataset_path variables request
    i j x :
  lons !! i = Some x → lons !! j = Some x → i ≠ j → variables ≠ [] →
  (∃ z, (extract_dataset lats lons dataset_path variables (TimeMatrix request)
           false).2 = Ret (PyInt z)) ∨
  (∃ e, (extract_dataset lats lons dataset_path variables (TimeMatrix request)
           false).2 = Raise e).
Proof.
  intros Hi Hj Hne Hv.
  pose proof (static_matrices_need_distinct_longitudes lats lons dataset_path
                variables request) as Hno.
  destruct (extract_dataset lats lons dataset_path variables (TimeMatrix request)
              false) as [tr [[var|z]|e]] eqn:E; simpl; [|eauto..].
  exfalso. exact (Hno tr var i j x Hi Hj Hne Hv eq_refl).
Qed.
End RepeatedLongitude.

(** ** The stitcher: failures, file accesses and row counts *)

Lemma opened_paths_app tr1 tr2 :
  opened_paths (tr1 ++ tr2) = opened_paths tr1 ++ opened_paths tr2.
Proof.
  unfold opened_paths. apply omap_app.
Qed.

Section StitcherMore.
Context {coord : Type} (coord_leb coord_eqb : coord → coord → bool).
Context {V : Type} (nan : V) (uninit : nat → nat → V).
Context (nearest : list coord → coord → option nat).
Context (interp : list Z → list V → Z → V).
Context (fs : string → option (@Dataset coord V)).

Local Abbreviation extract_dataset :=
  (extract_dataset coord_leb coord_eqb nan uninit nearest interp fs).
Local Abbreviation per_file_result :=
  (per_file_result coord_leb coord_eqb nan uninit nearest interp fs).
Local Abbreviation stitch_file :=
  (stitch_file coord_leb coord_eqb nan uninit nearest interp fs).
Local Abbreviation stitch_collect :=
  (stitch_collect coord_leb coord_eqb nan uninit nearest interp fs).
Local Abbreviation extract_dataset_list :=
  (extract_dataset_list coord_leb coord_eqb nan uninit nearest interp fs).

(** the first loop with its trace: the traces of the files one after the
    other, and the results that are not the empty list *)
Lemma stitch_collect_traced lats lons variables datearray interpolate paths :
  ∀ (runs : list (list event * pyval)) acc,
  Forall2 (λ path run,
     per_file_result lats lons variables datearray interpolate path
       = (run.1, Ret run.2)) paths runs →
  foldPy (stitch_file lats lons variables datearray interpolate) acc paths
  = (concat (runs.*1),
     Ret (acc ++ base.filter (λ r, is_empty_list r = false) (runs.*2))).
Proof.
  induction paths as [|path paths IH]; intros runs acc Hall.
  - apply Forall2_nil_inv_l in Hall as ->. simpl. by rewrite filter_nil, app_nil_r.
  - apply Forall2_cons_inv_l in Hall as ([tr r] & runs' & Hr & Hall & ->).
    simpl in Hr. cbn [foldPy]. rewrite (stitch_file_Ret coord_leb coord_eqb nan uninit nearest interp fs
               lats lons variables datearray interpolate acc path tr r Hr).
    rewrite !fmap_cons. cbn [fst snd concat].
    destruct (is_empty_list r) eqn:E.
    + rewrite filter_cons_False by (simpl; congruence).
      cbn [mbind Py_bind]. rewrite (IH runs' acc Hall). done.
    + rewrite filter_cons_True by done.
      cbn [mbind Py_bind]. rewrite (IH runs' (acc ++ [r]) Hall). simpl.
      by rewrite <- app_assoc.
Qed.

Lemma foldPy_raise {A St} (f : St → A → Py St) (pre : list A) x rest : ∀ s tr s',
  foldPy f s pre = (tr, Ret s') →
  ∀ tr' e, f s' x = (tr', Raise e) →
  foldPy f s (pre ++ x :: rest) = (tr ++ tr', Raise e).
Proof.
  induction pre as [|y pre IH]; intros s tr s' Hpre tr' e Hx.
  - simpl in Hpre. inversion Hpre; subst. cbn [app foldPy]. rewrite Hx. done.
  - cbn [app foldPy] in *.
    apply Py_bind_Ret in Hpre as (t1 & s1 & t2 & Hy & Hrest & ->).
    rewrite Hy. cbn [mbind Py_bind]. rewrite (IH s1 t2 s' Hrest tr' e Hx).
    simpl. by rewrite app_assoc.
Qed.

(** X8: the stitcher opens every file itself, outside any [try], before
    it calls [extract_dataset].  When the files before it have been
    processed and a file cannot be opened, the whole call ends there with
    the error of the failed opening: no -1 is produced for that file and
    the files after it are not touched. *)
Theorem stitcher_unopenable_file lats lons variables datearray interpolate
    pre path rest (results : list pyval) :
  Forall2 (λ p r, ∃ tr,
     per_file_result lats lons variables datearray interpolate p = (tr, Ret r))
    pre results →
  fs path = None →
  ∃ tr, extract_dataset_list lats lons (pre ++ path :: rest) variables datearray
          interpolate = (tr ++ [EvOpen path], Raise OSError).
Proof.
  intros Hall Hfs.
  destruct (stitch_collect_from coord_leb coord_eqb nan uninit nearest interp fs
              lats lons variables datearray interpolate pre results [] Hall)
    as [tr Htr].
  exists tr. unfold extract_dataset_list, stitch_collect.
  erewrite foldPy_raise; [done|exact Htr|].
  unfold stitch_file, per_file_result, xr_open_dataset. simpl. by rewrite Hfs.
Qed.

Lemma no_variable_raises lats lons path request interpolate dataset :
  open_selection nearest fs (np_unique coord_leb coord_eqb lats)
    (np_unique coord_leb coord_eqb lons) path [] = ([EvOpen path], Ret dataset) →
  wf_ndarray request → length lons ≤ ncols request →
  extract_dataset lats lons path [] (TimeMatrix request) interpolate
    = ([EvOpen path], Raise KeyError).
Proof.
  intros Hopen Hwf Hcols.
  destruct (datetime_for_station_of_wf request (length lons) Hwf Hcols) as [dfs Hdfs].
  assert (Hsel : select_times nan interp dataset (datetime_for_interp_of request)
                   interpolate = ([], Raise KeyError)).
  { unfold select_times. rewrite ds_getitem_time_Raise; [done|].
    apply (open_selection_vars nearest fs) in Hopen.
    by destruct (ds_vars dataset). }
  pose proof (extract_dataset_run coord_leb coord_eqb nan uninit nearest interp fs
                lats lons path [] request interpolate) as Hrun.
  destruct Hrun as [e Ho|ds e Ho Hd|ds dfs' e Ho Hd Hs|ds dfs' Ho Hd Hs
                    |ds dfs' sel Ho Hd Hs];
    rewrite Hopen in Ho; try done; inversion Ho; subst ds.
  - rewrite Hdfs in Hd. done.
  - rewrite Hsel in Hs. by inversion Hs.
  - rewrite Hsel in Hs. done.
  - rewrite Hsel in Hs. done.
Qed.

(** X9: a call without any variable.  The selection [ds[[]]] has no
    coordinate left, so once the file is open and every station has its
    column in the request, reading [dataset['time']] at line 60 raises
    [KeyError]: the call returns no list, empty or not.  Through the
    stitcher the call ends there, inside the first file, after the two
    openings of that file; [var_list[0]] is never reached. *)
Theorem no_variable_requested_raises lats lons path rest datearray interpolate
    file first_time last_time dataset :
  fs path = Some file →
  ds_time file !! 0 = Some first_time → last (ds_time file) = Some last_time →
  open_selection nearest fs (np_unique coord_leb coord_eqb lats)
    (np_unique coord_leb coord_eqb lons) path [] = ([EvOpen path], Ret dataset) →
  size datearray ≠ 0 → existsb isnat (concat (rows datearray)) = false →
  wf_ndarray datearray → length lons ≤ ncols datearray →
  extract_dataset lats lons path [] (TimeMatrix datearray) interpolate
    = ([EvOpen path], Raise KeyError) ∧
  extract_dataset_list lats lons (path :: rest) [] datearray interpolate
    = ([EvOpen path; EvOpen path], Raise KeyError).
Proof.
  intros Hfs H0 H1 Hopen Hsize Hnat Hwf Hcols. split.
  { by apply (no_variable_raises lats lons path datearray interpolate dataset). }
  assert (Hf : stitch_file lats lons [] datearray interpolate [] path
               = ([EvOpen path; EvOpen path], Raise KeyError)).
  { unfold stitch_file.
    rewrite (per_file_result_windowed coord_leb coord_eqb nan uninit nearest interp fs
               lats lons [] datearray interpolate path file first_time last_time
               Hfs H0 H1 Hsize Hnat).
    cbn zeta.
    rewrite (no_variable_raises lats lons path _ interpolate dataset Hopen); [done| |done].
    unfold wf_ndarray in *. simpl. apply Forall_fmap.
    eapply Forall_impl; [exact Hwf|]. intros r Hr. simpl. by rewrite length_map. }
  unfold extract_dataset_list, stitch_collect. cbn [foldPy]. rewrite Hf. done.
Qed.

Lemma per_file_result_trace lats lons variables datearray interpolate path tr r :
  per_file_result lats lons variables datearray interpolate path = (tr, Ret r) →
  opened_paths tr = [path; path].
Proof.
  unfold per_file_result. intros H.
  apply Py_bind_Ret in H as (t1 & dataset & t2 & Hopen & H & ->).
  apply Py_bind_Ret in H as (t3 & request & tr' & Hreq & H & ->).
  assert (t1 = [EvOpen path]) as ->.
  { unfold xr_open_dataset in Hopen. simpl in Hopen.
    destruct (fs path); simpl in Hopen; by inversion Hopen. }
  assert (t3 = []) as -> by (unfold lift in Hreq; by inversion Hreq).
  pose proof (extract_dataset_run coord_leb coord_eqb nan uninit nearest interp fs
                lats lons path variables request interpolate) as Hrun.
  rewrite H in Hrun. by inversion Hrun; subst.
Qed.

Lemma runs_of_results {A B C} (P : A → B → C → Prop) (l : list A) (k : list C) :
  Forall2 (λ x z, ∃ y, P x y z) l k →
  ∃ runs : list (B * C), runs.*2 = k ∧ Forall2 (λ x run, P x run.1 run.2) l runs.
Proof.
  induction 1 as [|x z l k [y Hy] Hall (runs & <- & IH)].
  - exists []. split; [done|constructor].
  - exists ((y, z) :: runs). split; [done|]. by constructor.
Qed.

(** X10: every file of the list is opened twice, once by the stitcher for
    its time window and once by [extract_dataset], and the files are
    opened in the order of the list: when all per-file calls return, the
    openings in the trace of [extract_dataset_list] are each path twice in
    a row, in file order. *)
Theorem stitcher_opens_each_file_twice lats lons dataset_path_list variables datearray
    interpolate (results : list pyval) :
  Forall2 (λ path r, ∃ tr,
     per_file_result lats lons variables datearray interpolate path = (tr, Ret r))
    dataset_path_list results →
  opened_paths (extract_dataset_list lats lons dataset_path_list variables datearray
                  interpolate).1
  = concat ((λ path, [path; path]) <$> dataset_path_list).
Proof.
  intros Hall.
  apply (runs_of_results
           (λ path tr r, per_file_result lats lons variables datearray interpolate path
                         = (tr, Ret r))) in Hall as (runs & _ & Hruns).
  unfold extract_dataset_list, stitch_collect.
  rewrite (stitch_collect_traced lats lons variables datearray interpolate
             dataset_path_list runs [] Hruns).
  cbn [mbind Py_bind lift fst snd]. rewrite app_nil_r.
  clear -Hruns. induction Hruns as [|path [tr r] paths runs Hr Hall IH]; [done|].
  rewrite !fmap_cons. cbn [concat fst]. rewrite opened_paths_app, IH.
  simpl in Hr. by rewrite (per_file_result_trace _ _ _ _ _ _ _ _ Hr).
Qed.

(** X11: in interpolation mode the stitched matrices have as many rows as
    the request has rows, times the number of files: every file that
    returns matrices returns them at the full height of the request
    (stations without a valid time in its window as NaN columns), and
    all of them are stacked. *)
Theorem stitched_row_count_interp lats lons dataset_path_list variables datearray
    (vars : list (list (ndarray V))) :
  Forall2 (λ path var, ∃ tr,
     per_file_result lats lons variables datearray true path
       = (tr, Ret (VarList var))) dataset_path_list vars →
  dataset_path_list ≠ [] → variables ≠ [] →
  ∃ tr out,
    extract_dataset_list lats lons dataset_path_list variables datearray true
      = (tr, Ret (VarList out)) ∧
    length out = length variables ∧
    Forall (λ M, nrows M = length dataset_path_list * nrows datearray) out.
Proof.
  intros Hall Hpaths Hv.
  assert (Hshape : Forall (λ var, length var = length variables ∧
                      Forall (λ M, ncols M = out_cols true lats) var) vars).
  { apply Forall_forall. intros var Hvar.
    apply list_elem_of_lookup in Hvar as [i Hi].
    destruct (Forall2_lookup_r _ _ _ _ _ Hall Hi) as (path & _ & tr & Hpath).
    apply (per_file_result_inv coord_leb coord_eqb nan uninit nearest interp fs)
      in Hpath as (dataset & request & tr' & _ & _ & Hrun).
    apply extract_dataset_shape in Hrun as [Hlen Hcols]. split; [done|].
    eapply Forall_impl; [exact Hcols|]. by intros M (? & _). }
  assert (Hall_kept : contributing vars = vars).
  { unfold contributing. clear -Hshape Hv. induction Hshape as [|var vars [Hl _] _ IH].
    - done.
    - rewrite filter_cons_True; [by rewrite IH|].
      intros ->. simpl in Hl. destruct variables; done. }
  assert (Hne : vars ≠ []).
  { intros ->. apply Forall2_nil_inv_r in Hall. done. }
  destruct (stitch_collect_from coord_leb coord_eqb nan uninit nearest interp fs
              lats lons variables datearray true
              dataset_path_list (VarList <$> vars) []) as [tr Htr].
  { apply Forall2_fmap_r. eapply Forall2_impl; [exact Hall|]. done. }
  rewrite filter_VarList, Hall_kept in Htr. simpl in Htr.
  destruct (stitch_concat_stacks variables vars (out_cols true lats) Hne Hshape)
    as (out & Hout & Hlen & Hrows).
  exists (tr ++ []), out. split; [|split; [done|]].
  - unfold extract_dataset_list, stitch_collect. rewrite Htr. simpl. by rewrite Hout.
  - apply Forall_lookup. intros j M HM.
    apply lookup_lt_Some in HM as Hj. rewrite Hlen in Hj.
    specialize (Hrows j). unfold rows_of at 1 in Hrows. rewrite HM in Hrows.
    unfold nrows at 1. rewrite Hrows, stitched_rows_length.
    rewrite (Forall2_length _ _ _ Hall).
    clear -Hall Hj. induction Hall as [|path var paths vars [tr Hr] Hall IH]; [done|].
    cbn [sum_list_with length]. rewrite IH.
    rewrite (per_file_row_count_interp coord_leb coord_eqb nan uninit nearest interp fs
               lats lons variables datearray path tr var j Hr Hj). lia.
Qed.
(** X16: a request of size 0 does not reach [extract_dataset] through
    the stitcher.  The first file is opened, its time axis read, and the
    vectorised validator refuses the empty array: the call raises
    [ValueError] after that one file access, whatever the other files
    are, so the empty-request branch of [extract_dataset] is never taken
    on this path. *)
Theorem stitcher_rejects_empty_request lats lons variables datearray interpolate
    path rest dataset :
  fs path = Some dataset → ds_time dataset ≠ [] → size datearray = 0 →
  extract_dataset_list lats lons (path :: rest) variables datearray interpolate
    = ([EvOpen path], Raise ValueError).
Proof.
  intros Hfs Htime Hsize.
  assert (Hr : restrict_request datearray dataset = Raise ValueError).
  { unfold restrict_request, getitem. destruct (ds_time dataset) as [|t0 l] eqn:E; [done|].
    cbn [lookup list_lookup mbind outcome_bind].
    destruct (last (t0 :: l)) as [t1|] eqn:El.
    - cbn [or_raise mbind outcome_bind]. unfold date_check_vec. by rewrite Hsize.
    - exfalso. by apply last_None in El. }
  assert (Hf : stitch_file lats lons variables datearray interpolate [] path
               = ([EvOpen path], Raise ValueError)).
  { unfold stitch_file, per_file_result, xr_open_dataset.
    rewrite Hfs. cbn [or_raise]. cbn -[extract_dataset]. rewrite Hr. done. }
  unfold extract_dataset_list, stitch_collect. cbn [foldPy]. rewrite Hf. done.
Qed.

End StitcherMore.

(** ** The temporal validator composed with itself *)

(** X12: validating against one window and then against another is
    validating against their intersection; in particular validating twice
    against the same window changes nothing more (the validator is
    idempotent). *)
Theorem date_check_compose (date : datetime64) (s1 e1 s2 e2 : Z) :
  date_check (date_check date s1 e1) s2 e2
    = date_check date (Z.max s1 s2) (Z.min e1 e2) ∧
  date_check (date_check date s1 e1) s1 e1 = date_check date s1 e1.
Proof.
  destruct date as [t|]; [|done]. unfold date_check, le_dt, dt_le. split.
  - destruct (s1 <=? t)%Z eqn:A1; destruct (t <=? e1)%Z eqn:B1; simpl;
      destruct (s2 <=? t)%Z eqn:A2; destruct (t <=? e2)%Z eqn:B2; simpl;
      destruct (Z.max s1 s2 <=? t)%Z eqn:A3; destruct (t <=? Z.min e1 e2)%Z eqn:B3;
      simpl; try done; exfalso;
      repeat match goal with
             | H : (_ <=? _)%Z = true |- _ => apply Z.leb_le in H
             | H : (_ <=? _)%Z = false |- _ => apply Z.leb_gt in H
             end; lia.
  - destruct (s1 <=? t)%Z eqn:A1; destruct (t <=? e1)%Z eqn:B1; simpl; try done.
    by rewrite A1, B1.
Qed.

Lemma date_check_idempotent date s e :
  date_check (date_check date s e) s e = date_check date s e.
Proof.
  destruct date as [t|]; [|done]. unfold date_check, le_dt, dt_le.
  destruct (s <=? t)%Z eqn:A1; destruct (t <=? e)%Z eqn:B1; simpl; try done.
  by rewrite A1, B1.
Qed.

Lemma existsb_isnat_false (l : list datetime64) :
  existsb isnat l = false ↔ NaT ∉ l.
Proof.
  induction l as [|d l IH]; simpl.
  - split; [intros _; apply not_elem_of_nil|done].
  - rewrite not_elem_of_cons, orb_false_iff, IH. destruct d as [t|]; simpl.
    + split; [by intros [_ ?]|by intros [_ ?]].
    + split; [by intros [? _]|by intros [? _]].
Qed.

Lemma existsb_isnat_date_check (l : list (list datetime64)) date_start date_end :
  existsb isnat (concat l) = false →
  existsb isnat (concat (map (map (λ d, date_check d date_start date_end)) l))
  = negb (forallb (λ t, in_window date_start date_end t) (valid_times (concat l))).
Proof.
  induction l as [|r l IH]; [done|]. simpl. unfold valid_times in *.
  rewrite existsb_app, omap_app, forallb_app, negb_andb.
  rewrite existsb_app, orb_false_iff. intros [Hr Hl]. rewrite (IH Hl). f_equal.
  clear IH Hl. induction r as [|d r IH]; [done|]. simpl in *.
  apply orb_false_iff in Hr as [Hd Hr]. destruct d as [t|]; [|done].
  rewrite (IH Hr). simpl. unfold date_check, le_dt, dt_le, in_window.
  by destruct ((date_start <=? t)%Z && (t <=? date_end)%Z).
Qed.

(** X13: the vectorised validator returns only for a request without
    NaT (a NaT cell reaches [date_check] as [None] and the comparison
    raises), and its result has the shape of the request.  Its own result
    can therefore be validated again only when no cell was replaced: with
    every timestamp of the request inside the window the second run gives
    the same array back, with one outside it raises [TypeError]. *)
Theorem date_check_vec_again datearray date_start date_end restricted :
  date_check_vec datearray date_start date_end = Ret restricted →
  (NaT ∉ concat (rows datearray)) ∧
  ncols restricted = ncols datearray ∧ nrows restricted = nrows datearray ∧
  ((∀ t, Some t ∈ concat (rows datearray) → in_window date_start date_end t = true) →
     date_check_vec restricted date_start date_end = Ret restricted) ∧
  ((∃ t, Some t ∈ concat (rows datearray) ∧ in_window date_start date_end t = false) →
     date_check_vec restricted date_start date_end = Raise TypeError).
Proof.
  unfold date_check_vec. destruct (size datearray =? 0) eqn:E; [done|].
  destruct (existsb isnat (concat (rows datearray))) eqn:En; [done|].
  intros H. inversion H; subst. clear H. split; [by apply existsb_isnat_false|].
  unfold size, nrows in *. simpl. rewrite length_map. split; [done|]. split; [done|].
  rewrite E, existsb_isnat_date_check by done. split.
  - intros Hall.
    assert (forallb (λ t, in_window date_start date_end t)
              (valid_times (concat (rows datearray))) = true) as ->.
    { apply forallb_forall. intros t Ht. apply Hall.
      apply valid_times_no_NaT. by apply list_elem_of_In. }
    simpl. do 2 f_equal. rewrite map_map. apply map_ext. intros r. rewrite map_map.
    apply map_ext. intros d. apply date_check_idempotent.
  - intros (t & Ht & Hout).
    assert (forallb (λ t, in_window date_start date_end t)
              (valid_times (concat (rows datearray))) = false) as ->; [|done].
    apply not_true_iff_false. intros Hall.
    rewrite forallb_forall in Hall. rewrite Hall in Hout; [done|].
    apply list_elem_of_In. by apply valid_times_no_NaT.
Qed.

(** ** The union of the requested times *)

Lemma Z_leb_total x y : (x <=? y)%Z = true ∨ (y <=? x)%Z = true.
Proof. destruct (Z.leb_spec x y); [by left|right]. apply Z.leb_le. lia. Qed.

Lemma Z_leb_trans x y z :
  (x <=? y)%Z = true → (y <=? z)%Z = true → (x <=? z)%Z = true.
Proof. rewrite !Z.leb_le. lia. Qed.

Lemma Z_leb_antisym x y : (x <=? y)%Z = true → (y <=? x)%Z = true → x = y.
Proof. rewrite !Z.leb_le. lia. Qed.

(** X14: the timestamps handed to the time selection (line 51) are the
    valid timestamps of the whole request, each once, in strictly
    increasing order: a timestamp is among them exactly when some cell of
    the request holds it, and NaT never is. *)
Theorem datetime_for_interp_sorted (datetime : ndarray datetime64) :
  StronglySorted Z.lt (datetime_for_interp_of datetime) ∧
  ∀ t, t ∈ datetime_for_interp_of datetime ↔ Some t ∈ concat (rows datetime).
Proof.
  split; [|apply datetime_for_interp_elem_of].
  unfold datetime_for_interp_of.
  pose proof (np_unique_sorted Z.leb Z.eqb Z_leb_total Z_leb_trans Z_leb_antisym Z.eqb_eq
                (valid_times (concat (rows datetime)))) as H.
  induction H as [|x l Hl IH Hx]; constructor; [done|].
  eapply Forall_impl; [exact Hx|]. intros y [Hle Hne]. apply Z.leb_le in Hle. lia.
Qed.

(** ** The deduplicated coordinates *)

Section UniqueCoordinates.
Context {A : Type} (leb : A → A → bool) (eqb : A → A → bool).
Hypothesis leb_total : ∀ x y, leb x y = true ∨ leb y x = true.
Hypothesis leb_trans : ∀ x y z, leb x y = true → leb y z = true → leb x z = true.
Hypothesis leb_antisym : ∀ x y, leb x y = true → leb y x = true → x = y.
Hypothesis eqb_eq : ∀ x y, eqb x y = true ↔ x = y.

(** X15: for a total order on the coordinates, the unique coordinates of
    lines 36-37 are strictly increasing, hold no value twice, hold exactly
    the values of the input, and are never more than the input has
    entries. *)
Theorem unique_coordinates_sorted (ar : list A) :
  StronglySorted (λ x y, leb x y = true ∧ x ≠ y) (np_unique leb eqb ar) ∧
  NoDup (np_unique leb eqb ar) ∧
  (∀ x, x ∈ np_unique leb eqb ar ↔ x ∈ ar) ∧
  length (np_unique leb eqb ar) ≤ length ar.
Proof.
  split; [by apply np_unique_sorted|]. split; [by apply np_unique_NoDup|].
  split; [|apply np_unique_length_le].
  intros x. apply np_unique_elem_of. intros a b. apply eqb_eq.
Qed.

End UniqueCoordinates.

(** ** The MERRA-2 pipeline: file classification, failures, post-processing *)

(** X17: the loop of lines 157-163 is two filters of the directory
    listing, the listing order kept and the directory prefixed: the data
    files are the names with ['merra2'] and without ['index'] and
    ['const_2d_asm'], the constants files the names with ['const_2d_asm']
    and without ['index'].  No name goes to both lists. *)
Theorem classify_partitions datadir datadirlist :
  (classify datadir datadirlist).1
  = (λ file, datadir +:+ file) <$>
      List.filter (λ file, negb (contains "index" file) &&
                           negb (contains "const_2d_asm" file) &&
                           contains "merra2" file) datadirlist ∧
  (classify datadir datadirlist).2
  = (λ file, datadir +:+ file) <$>
      List.filter (λ file, negb (contains "index" file) &&
                           contains "const_2d_asm" file) datadirlist.
Proof.
  induction datadirlist as [|file l IH]; [done|].
  cbn [classify List.filter]. destruct (classify datadir l) as [dirlist asmlist].
  cbn [fst snd] in IH. destruct IH as [-> ->].
  destruct (contains "index" file); [done|].
  destruct (contains "const_2d_asm" file); [done|].
  by destruct (contains "merra2" file).
Qed.

Lemma clamp_negative_not_below_zero x : (clamp_negative x <? 0)%float = false.
Proof.
  unfold clamp_negative. destruct (x <? 0)%float eqn:E; [reflexivity|exact E].
Qed.

Lemma cell_nd_map {A B} (g : A → B) (M : ndarray A) i j y :
  cell (nd_map g M) i j = Some y → ∃ x, cell M i j = Some x ∧ y = g x.
Proof.
  unfold cell, nd_map. simpl.
  change (map (map g) (rows M)) with (map g <$> rows M).
  rewrite list_lookup_fmap. destruct (rows M !! i) as [r|]; [|done]. simpl.
  change (map g r) with (g <$> r). rewrite list_lookup_fmap.
  destruct (r !! j) as [x|]; [|done]. simpl. intros H. inversion H. eauto.
Qed.

(** X18: what the post-processing guarantees whenever it returns.  Eight
    matrices come out; the extinction, the albedo and the pressure are the
    extracted matrices untouched (extinction and optical depth swap places,
    and so do albedo and ozone); the Angstrom exponent keeps its shape and
    has no cell below zero left (NaN stays NaN); the last matrix is the
    nitrogen dioxide default, one row per time row and one column per
    station, every cell 0.0002. *)
Theorem postprocess_invariants np_exp AOD_550 tot_aer_ext tot_angst albedo ozone
    water_vapour pressure phis elev ntimes nstations out :
  merra2_postprocess np_exp AOD_550 tot_aer_ext tot_angst albedo ozone water_vapour
    pressure phis elev ntimes nstations = Ret out →
  length out = 8 ∧
  out !! 0 = Some tot_aer_ext ∧ out !! 4 = Some albedo ∧ out !! 6 = Some pressure ∧
  (∃ angst, out !! 2 = Some angst ∧
     ncols angst = ncols tot_angst ∧ nrows angst = nrows tot_angst ∧
     ∀ i j a, cell angst i j = Some a → (a <? 0)%float = false) ∧
  (∃ no2, out !! 7 = Some no2 ∧ ncols no2 = nstations ∧ nrows no2 = ntimes ∧
     ∀ i j, i < ntimes → j < nstations → cell no2 i j = Some 0.0002%float).
Proof.
  unfold merra2_postprocess. intros H.
  apply outcome_bind_Ret in H as (d & _ & H).
  apply outcome_bind_Ret in H as (aod & _ & H).
  apply outcome_bind_Ret in H as (wv & _ & H).
  inversion H; subst out. clear H.
  split; [done|]. split; [done|]. split; [done|]. split; [done|]. split.
  - eexists. split; [done|]. split; [done|]. split.
    { unfold nrows, nd_map. simpl. by rewrite length_map. }
    intros i j a Hc. apply cell_nd_map in Hc as (x & _ & ->).
    apply clamp_negative_not_below_zero.
  - eexists. split; [done|]. split; [done|]. split.
    { unfold nrows. simpl. by rewrite length_replicate. }
    intros i j Hi Hj. unfold cell. simpl.
    rewrite lookup_replicate_2 by done. simpl. by rewrite lookup_replicate_2.
Qed.

Lemma bcast_dim_mismatch n1 n2 :
  n1 ≠ n2 → n1 ≠ 1 → n2 ≠ 1 → bcast_dim n1 n2 = Raise ValueError.
Proof.
  intros H12 H1 H2. unfold bcast_dim.
  apply Nat.eqb_neq in H12, H1, H2. by rewrite H12, H1, H2.
Qed.


Section Merra2More.
Context {coord : Type} (coord_leb coord_eqb : coord → coord → bool).
Context (uninit : nat → nat → float).
Context (nearest : list coord → coord → option nat).
Context (interp : list Z → list float → Z → float).
Context (fs : string → option (@Dataset coord float)).
Context (listdir : string → list string).
Context (np_exp : float → float).

Local Abbreviation extract_dataset :=
  (extract_dataset coord_leb coord_eqb PrimFloat.nan uninit nearest interp fs).
Local Abbreviation extract_dataset_list :=
  (extract_dataset_list coord_leb coord_eqb PrimFloat.nan uninit nearest interp fs).
Local Abbreviation extract_for_MERRA2 :=
  (extract_for_MERRA2 coord_leb coord_eqb uninit nearest interp fs listdir np_exp).

(** X20: a directory without a data file.  When every name of the
    listing is an index file, a constants file or a name without
    ['merra2'], the stitcher gets the empty file list and the call raises
    [IndexError] without a single file access: the constants file is not
    opened either. *)
Theorem merra2_without_data_file lats lons times elev datadir :
  Forall (λ file, contains "index" file = true ∨
                  contains "const_2d_asm" file = true ∨
                  contains "merra2" file = false) (listdir datadir) →
  extract_for_MERRA2 lats lons times elev datadir = ([], Raise IndexError).
Proof.
  intros Hall. unfold extract_for_MERRA2.
  assert (Hd : (classify datadir (listdir datadir)).1 = []).
  { induction Hall as [|file l Hf _ IH]; [done|]. cbn [classify].
    destruct (classify datadir l) as [d a]. cbn [fst] in IH. subst d.
    destruct Hf as [->| [->| ->]]; [done| |].
    - by destruct (contains "index" file).
    - destruct (contains "index" file); [done|].
      by destruct (contains "const_2d_asm" file). }
  destruct (classify datadir (listdir datadir)) as [dirlist asmlist].
  cbn [fst] in Hd. subst dirlist. done.
Qed.

(** X21: a directory without a constants file.  When the stitcher has
    returned the seven matrices and no name of the listing qualifies as a
    constants file, the call raises [IndexError] at [asmlist[0]]: the
    failure shows only after all the data files have been processed. *)
Theorem merra2_without_constants_file lats lons times elev datadir tr vars :
  (classify datadir (listdir datadir)).2 = [] →
  extract_dataset_list lats lons (classify datadir (listdir datadir)).1
    merra2_variables times true = (tr, Ret (VarList vars)) →
  length vars = 7 →
  extract_for_MERRA2 lats lons times elev datadir = (tr, Raise IndexError).
Proof.
  intros Hasm Hst Hlen. unfold extract_for_MERRA2.
  destruct (classify datadir (listdir datadir)) as [dirlist asmlist].
  simpl in Hasm, Hst. subst asmlist. rewrite Hst.
  do 8 (destruct vars as [|? vars]; try done).
  simpl. by rewrite app_nil_r.
Qed.

(** X22: the integer sentinels are not handled.  When the stitcher hands
    back an integer (-1 or -2 of a single data file), unpacking it into the
    seven names raises [TypeError] before the constants file is touched;
    when the stitcher has returned the seven matrices and the extraction
    of the geopotential hands back an integer, unpacking that raises
    [TypeError] as well. *)
Theorem merra2_sentinel_raises lats lons times elev datadir tr z :
  extract_dataset_list lats lons (classify datadir (listdir datadir)).1
    merra2_variables times true = (tr, Ret (PyInt z)) ∨
  (∃ tr1 tr2 vars asm,
     extract_dataset_list lats lons (classify datadir (listdir datadir)).1
       merra2_variables times true = (tr1, Ret (VarList vars)) ∧
     length vars = 7 ∧
     (classify datadir (listdir datadir)).2 !! 0 = Some asm ∧
     extract_dataset lats lons asm ["PHIS"] (TimeMatrix times) false
       = (tr2, Ret (PyInt z)) ∧
     tr = tr1 ++ tr2) →
  extract_for_MERRA2 lats lons times elev datadir = (tr, Raise TypeError).
Proof.
  intros H. unfold extract_for_MERRA2.
  destruct (classify datadir (listdir datadir)) as [dirlist asmlist].
  cbn [fst snd] in H. destruct H as [Hst|(tr1 & tr2 & vars & asm & Hst & Hlen & Hasm & Hstat & ->)].
  - rewrite Hst. simpl. by rewrite app_nil_r.
  - rewrite Hst. do 8 (destruct vars as [|? vars]; try done).
    destruct asmlist as [|asm' asmlist]; [done|]. simpl in Hasm. inversion Hasm; subst asm'.
    cbn -[extract_dataset]. rewrite Hstat. simpl. by rewrite !app_nil_r.
Qed.

Hypothesis leb_total : ∀ x y, coord_leb x y = true ∨ coord_leb y x = true.
Hypothesis leb_trans :
  ∀ x y z, coord_leb x y = true → coord_leb y z = true → coord_leb x z = true.
Hypothesis leb_antisym : ∀ x y, coord_leb x y = true → coord_leb y x = true → x = y.
Hypothesis eqb_eq : ∀ x y, coord_eqb x y = true ↔ x = y.

(** X23: two stations on the same longitude make the whole pipeline
    fail.  The geopotential is extracted in static mode for all stations
    at once, and that extraction returns no matrices when a longitude is
    repeated; whatever the files hold, the call ends in an exception. *)
Theorem merra2_repeated_longitude lats lons times elev datadir i j x :
  lons !! i = Some x → lons !! j = Some x → i ≠ j →
  ∃ tr e, extract_for_MERRA2 lats lons times elev datadir = (tr, Raise e).
Proof.
  intros Hi Hj Hne.
  destruct (extract_for_MERRA2 lats lons times elev datadir) as [tr [out|e]] eqn:E;
    [exfalso|by eauto].
  unfold extract_for_MERRA2 in E.
  destruct (classify datadir (listdir datadir)) as [dirlist asmlist].
  apply Py_bind_Ret in E as (t1 & stitched & t2 & _ & E & _). cbn beta in E.
  apply Py_bind_Ret in E as (t3 & vars & t4 & _ & E & _). cbn beta in E.
  apply Py_bind_Ret in E as (t5 & asm & t6 & _ & E & _). cbn beta in E.
  apply Py_bind_Ret in E as (t7 & static & t8 & Hstat & E & _). cbn beta in E.
  apply Py_bind_Ret in E as (t9 & phis & t10 & Hun & _ & _).
  destruct static as [var|z]; [|done].
  by eapply (static_matrices_need_distinct_longitudes coord_leb coord_eqb PrimFloat.nan uninit
               nearest interp fs leb_total leb_trans leb_antisym eqb_eq
               lats lons asm ["PHIS"] times t7 var i j x).
Qed.
End Merra2More.

(** ** The theorems at the concrete instance *)

Lemma missing_variable_returns_minus_one_witness :
  Sample.extract_dataset Sample.lats Sample.lons "a.nc" ["TQV"; "NOPE"]
    (TimeMatrix Sample.times) true
  = ([EvOpen "a.nc"; EvPrint msg_missing_variable], Ret (PyInt (-1))).
Proof.
  apply (missing_variable_returns_minus_one Z.leb Z.eqb None Sample.uninit
           Sample.nearest Sample.interp Sample.fs Sample.lats Sample.lons "a.nc"
           ["TQV"; "NOPE"] Sample.times true Sample.file_a "NOPE").
  - reflexivity.
  - right. left.
  - reflexivity.
Defined.

Lemma coordinate_dedup_roundtrip_witness :
  ∃ lat lon lats_index_i lons_index_i,
    [12; 1; 12]%Z !! 2 = Some lat ∧ [19; 2; 2]%Z !! 2 = Some lon ∧
    (np_unique_inverse Z.leb Z.eqb [12; 1; 12]%Z).2 !! 2 = Some lats_index_i ∧
    np_unique Z.leb Z.eqb [12; 1; 12]%Z !! lats_index_i = Some lat ∧
    (np_unique_inverse Z.leb Z.eqb [19; 2; 2]%Z).2 !! 2 = Some lons_index_i ∧
    np_unique Z.leb Z.eqb [19; 2; 2]%Z !! lons_index_i = Some lon.
Proof.
  apply (coordinate_dedup_roundtrip Z.leb Z.eqb).
  - intros x y. apply Z.eqb_eq.
  - reflexivity.
  - simpl. lia.
Defined.

Lemma temporal_validator_filters_witness :
  (∀ t date_start date_end,
     ((date_start ≤ t ≤ date_end)%Z → date_check (Some t) date_start date_end = Some t) ∧
     (¬ (date_start ≤ t ≤ date_end)%Z → date_check (Some t) date_start date_end = NaT) ∧
     date_check NaT date_start date_end = NaT) ∧
  ∃ first_time last_time,
    ds_time Sample.file_a !! 0 = Some first_time ∧
    last (ds_time Sample.file_a) = Some last_time ∧
    length [[600; 4200]; []]%Z = 2 ∧
    ∀ s, s < 2 →
      ∃ requested,
        column Sample.times s = Ret requested ∧
        [[600; 4200]; []]%Z !! s =
          Some (base.filter
                  (λ t, in_window (first_time - 1800) (last_time + 1800) t = true)
                  (valid_times requested)).
Proof.
  apply (temporal_validator_filters Sample.times Sample.file_a
           (NdArray 2 [[Some 600; NaT]; [Some 4200; NaT]]%Z) 2 [[600; 4200]; []]%Z).
  - reflexivity.
  - reflexivity.
Defined.

Lemma exact_mode_time_mismatch_witness :
  Sample.extract_dataset Sample.lats Sample.lons "a.nc" ["TQV"]
    (TimeMatrix Sample.times) false
  = ([EvOpen "a.nc"; EvPrint msg_time_mismatch], Ret (PyInt (-2))).
Proof.
  eapply (exact_mode_time_mismatch Z.leb Z.eqb None Sample.uninit Sample.nearest
            Sample.interp Sample.fs Sample.lats Sample.lons "a.nc" ["TQV"]
            Sample.times).
  - reflexivity.
  - discriminate.
  - reflexivity.
  - simpl. lia.
  - exists 600%Z. split.
    + left.
    + simpl. intros H. repeat (apply elem_of_cons in H as [H|H]; [lia|]).
      by apply elem_of_nil in H.
Defined.

Lemma static_extraction_shape_witness :
  Forall (λ M, ncols M = 1 ∧
               nrows M = length (np_unique Z.leb Z.eqb Sample.lons) ∧
               wf_ndarray M ∧ nrows M = length Sample.lons)
    [NdArray 1 [[Some 500]; [Some 512]]%Z] ∧
  ∀ request, TimeMatrix Sample.times = TimeMatrix request →
    ∃ dataset dataset_interpolation,
      open_selection Sample.nearest Sample.fs
        (np_unique Z.leb Z.eqb Sample.lats) (np_unique Z.leb Z.eqb Sample.lons)
        "const.nc" ["PHIS"] = ([EvOpen "const.nc"], Ret dataset) ∧
      select_times None Sample.interp dataset (datetime_for_interp_of request) false
        = ([], Ret (Some dataset_interpolation)) ∧
      Forall2 (λ name M,
          ∀ s, s < length Sample.lons →
            ∃ lat lon da x,
              Sample.lats !! s = Some lat ∧ Sample.lons !! s = Some lon ∧
              da_sel_point Sample.nearest dataset_interpolation name lat lon = Ret da ∧
              da.2 !! 0 = Some x ∧ rows M !! s = Some [x])
        ["PHIS"] [NdArray 1 [[Some 500]; [Some 512]]%Z].
Proof.
  apply (static_extraction_shape Z.leb Z.eqb None Sample.uninit Sample.nearest
           Sample.interp Sample.fs Sample.lats Sample.lons "const.nc" ["PHIS"]
           (TimeMatrix Sample.times) [EvOpen "const.nc"]).
  reflexivity.
Defined.



Lemma sentinel_flows_into_concatenation_witness :
  ∃ tr var_list,
    var_list = base.filter (λ r, is_empty_list r = false)
                 [PyInt (-1); PyInt (V:=option Z) (-1)] ∧
    stitch_collect Z.leb Z.eqb None Sample.uninit Sample.nearest Sample.interp
      Sample.fs Sample.lats Sample.lons ["a.nc"; "b.nc"] ["TQV"; "NOPE"]
      Sample.times true = (tr, Ret var_list) ∧
    Sample.extract_dataset_list Sample.lats Sample.lons ["a.nc"; "b.nc"]
      ["TQV"; "NOPE"] Sample.times true
      = (tr, stitch_concat ["TQV"; "NOPE"] var_list) ∧
    (∀ z, PyInt z ∈ [PyInt (-1); PyInt (V:=option Z) (-1)] → PyInt z ∈ var_list) ∧
    (∀ z, var_list = [PyInt z] →
       stitch_concat ["TQV"; "NOPE"] var_list = Ret (PyInt z)) ∧
    (∀ z, PyInt z ∈ var_list → 2 ≤ length var_list → ["TQV"; "NOPE"] ≠ [] →
       ∃ e, stitch_concat ["TQV"; "NOPE"] var_list = Raise e).
Proof.
  apply (sentinel_flows_into_concatenation Z.leb Z.eqb None Sample.uninit
           Sample.nearest Sample.interp Sample.fs Sample.lats Sample.lons
           ["a.nc"; "b.nc"] ["TQV"; "NOPE"] Sample.times true
           [PyInt (-1); PyInt (-1)]).
  repeat constructor; eexists; reflexivity.
Defined.

Lemma length_mismatch_counterexample :
  length [1; 12; 25]%Z ≠ length [2]%Z ∧
  Sample.extract_dataset [1; 12; 25]%Z [2]%Z "a.nc" ["TQV"]
    (TimeMatrix (NdArray 1 [[Some 600%Z]])) true
  = ([EvOpen "a.nc"],
     Ret (VarList [NdArray 3 [[Some 600%Z; Sample.uninit 0 1; Sample.uninit 0 2]]])) ∧
  ¬ ∃ e, Sample.extract_dataset [1; 12; 25]%Z [2]%Z "a.nc" ["TQV"]
           (TimeMatrix (NdArray 1 [[Some 600%Z]])) true = ([], Raise e).
Proof.
  split; [simpl; lia|]. split; [reflexivity|].
  intros [e He]. vm_compute in He. discriminate He.
Qed.

Lemma length_mismatch_not_checked_witness :
  (∃ tr o, Sample.extract_dataset [1; 12; 25]%Z [2]%Z "a.nc" ["TQV"]
             (TimeMatrix (NdArray 1 [[Some 600%Z]])) true = (EvOpen "a.nc" :: tr, o)) ∧
  (∃ tr o, Sample.extract_dataset_list [1; 12; 25]%Z [2]%Z ("a.nc" :: ["b.nc"]) ["TQV"]
             (NdArray 1 [[Some 600%Z]]) true = (EvOpen "a.nc" :: tr, o)) ∧
  Sample.extract_dataset [1; 12; 25]%Z [2]%Z "a.nc" ["TQV"] EmptyList true
    = ([], Ret (VarList [])).
Proof.
  apply (length_mismatch_not_checked Z.leb Z.eqb None Sample.uninit Sample.nearest
           Sample.interp Sample.fs [1; 12; 25]%Z [2]%Z "a.nc" ["b.nc"] ["TQV"]
           (NdArray 1 [[Some 600%Z]]) true).
  simpl. lia.
Defined.



(** ** The further properties at the concrete instances *)

Lemma interpolation_assembly_witness :
  ∃ dataset dataset_interpolation datetime_for_station,
    open_selection Sample.nearest Sample.fs
      (np_unique Z.leb Z.eqb Sample.lats) (np_unique Z.leb Z.eqb Sample.lons)
      "a.nc" ["TQV"; "PS"] = ([EvOpen "a.nc"], Ret dataset) ∧
    select_times None Sample.interp dataset (datetime_for_interp_of Sample.times) true
      = ([], Ret (Some dataset_interpolation)) ∧
    datetime_for_station_of Sample.times (length Sample.lons)
      = Ret datetime_for_station ∧
    length Sample.var_a = length ["TQV"; "PS"] ∧
    Forall2 (λ name M,
       interp_cols_inv None Sample.uninit Sample.nearest dataset_interpolation name
         Sample.lats Sample.lons Sample.times datetime_for_station
         (length Sample.lons) M) ["TQV"; "PS"] Sample.var_a.
Proof.
  apply (interpolation_assembly Z.leb Z.eqb None Sample.uninit Sample.nearest
           Sample.interp Sample.fs Sample.lats Sample.lons "a.nc" ["TQV"; "PS"]
           Sample.times [EvOpen "a.nc"] Sample.var_a).
  reflexivity.
Defined.

Lemma more_longitudes_than_latitudes_witness :
  (∃ z, (Sample.extract_dataset [1]%Z Sample.lons "a.nc" ["TQV"]
           (TimeMatrix Sample.times) true).2 = Ret (PyInt z)) ∨
  (∃ e, (Sample.extract_dataset [1]%Z Sample.lons "a.nc" ["TQV"]
           (TimeMatrix Sample.times) true).2 = Raise e).
Proof.
  apply (more_longitudes_than_latitudes Z.leb Z.eqb None Sample.uninit Sample.nearest
           Sample.interp Sample.fs [1]%Z Sample.lons "a.nc" ["TQV"] Sample.times true).
  - simpl. lia.
  - discriminate.
Defined.

Lemma single_step_file_needs_its_own_time_witness :
  ∃ e, Sample.extract_dataset Sample.lats Sample.lons "const.nc" ["PHIS"]
         (TimeMatrix Sample.times) true = ([EvOpen "const.nc"], Raise e).
Proof.
  eapply (single_step_file_needs_its_own_time Z.leb Z.eqb None Sample.uninit
            Sample.nearest Sample.interp Sample.fs Sample.lats Sample.lons "const.nc"
            ["PHIS"] Sample.times _ 0 [Some 600; Some 4200]%Z 600%Z).
  - reflexivity.
  - simpl. lia.
  - simpl. lia.
  - reflexivity.
  - left.
  - simpl. intros H. repeat (apply elem_of_cons in H as [H|H]; [lia|]).
    by apply elem_of_nil in H.
  - discriminate.
Defined.

Lemma unopenable_file_returns_minus_one_witness :
  Sample.extract_dataset Sample.lats Sample.lons "missing.nc" ["TQV"]
    (TimeMatrix Sample.times) true
  = ([EvOpen "missing.nc"; EvPrint msg_missing_variable], Ret (PyInt (-1))).
Proof.
  apply (unopenable_file_returns_minus_one Z.leb Z.eqb None Sample.uninit
           Sample.nearest Sample.interp Sample.fs Sample.lats Sample.lons "missing.nc"
           ["TQV"] Sample.times true).
  reflexivity.
Defined.

Lemma request_with_too_few_columns_witness :
  Sample.extract_dataset Sample.lats Sample.lons "a.nc" ["TQV"]
    (TimeMatrix (NdArray 1 [[Some 600%Z]])) true
  = ([EvOpen "a.nc"], Raise IndexError).
Proof.
  eapply (request_with_too_few_columns Z.leb Z.eqb None Sample.uninit
            Sample.nearest Sample.interp Sample.fs Sample.lats Sample.lons "a.nc"
            ["TQV"] (NdArray 1 [[Some 600%Z]]) true).
  - reflexivity.
  - simpl. lia.
Defined.

Lemma repeated_longitude_no_static_result_witness :
  (∃ z, (Sample.extract_dataset [1; 12]%Z [2; 2]%Z "const.nc" ["PHIS"]
           (TimeMatrix Sample.times) false).2 = Ret (PyInt z)) ∨
  (∃ e, (Sample.extract_dataset [1; 12]%Z [2; 2]%Z "const.nc" ["PHIS"]
           (TimeMatrix Sample.times) false).2 = Raise e).
Proof.
  apply (repeated_longitude_no_static_result Z.leb Z.eqb None Sample.uninit
           Sample.nearest Sample.interp Sample.fs Z_leb_total Z_leb_trans
           Z_leb_antisym Z.eqb_eq [1; 12]%Z [2; 2]%Z "const.nc" ["PHIS"]
           Sample.times 0 1 2%Z).
  - reflexivity.
  - reflexivity.
  - lia.
  - discriminate.
Defined.

Lemma stitcher_unopenable_file_witness :
  ∃ tr, Sample.extract_dataset_list Sample.lats Sample.lons
          (["a.nc"] ++ "missing.nc" :: ["b.nc"]) ["TQV"; "PS"] Sample.times true
        = (tr ++ [EvOpen "missing.nc"], Raise OSError).
Proof.
  apply (stitcher_unopenable_file Z.leb Z.eqb None Sample.uninit Sample.nearest
           Sample.interp Sample.fs Sample.lats Sample.lons ["TQV"; "PS"] Sample.times
           true ["a.nc"] "missing.nc" ["b.nc"] [VarList Sample.var_a]).
  - repeat constructor; eexists; reflexivity.
  - reflexivity.
Defined.

Lemma no_variable_requested_raises_witness :
  Sample.extract_dataset Sample.lats Sample.lons "a.nc" [] (TimeMatrix Sample.times) true
    = ([EvOpen "a.nc"], Raise KeyError) ∧
  Sample.extract_dataset_list Sample.lats Sample.lons ("a.nc" :: ["b.nc"]) []
    Sample.times true
    = ([EvOpen "a.nc"; EvOpen "a.nc"], Raise KeyError).
Proof.
  eapply (no_variable_requested_raises Z.leb Z.eqb None Sample.uninit Sample.nearest
            Sample.interp Sample.fs Sample.lats Sample.lons "a.nc" ["b.nc"]
            Sample.times true Sample.file_a 0%Z 7200%Z).
  - reflexivity.
  - reflexivity.
  - reflexivity.
  - reflexivity.
  - vm_compute. lia.
  - reflexivity.
  - repeat constructor.
  - simpl. lia.
Defined.

Lemma stitcher_opens_each_file_twice_witness :
  opened_paths (Sample.extract_dataset_list Sample.lats Sample.lons ["a.nc"; "b.nc"]
                  ["TQV"; "PS"] Sample.times true).1
  = concat ((λ path, [path; path]) <$> ["a.nc"; "b.nc"]).
Proof.
  apply (stitcher_opens_each_file_twice Z.leb Z.eqb None Sample.uninit Sample.nearest
           Sample.interp Sample.fs Sample.lats Sample.lons ["a.nc"; "b.nc"]
           ["TQV"; "PS"] Sample.times true
           [VarList Sample.var_a; VarList Sample.var_b]).
  repeat constructor; eexists; reflexivity.
Defined.

Lemma stitched_row_count_interp_witness :
  ∃ tr out,
    Sample.extract_dataset_list Sample.lats Sample.lons ["a.nc"; "b.nc"]
      ["TQV"; "PS"] Sample.times true = (tr, Ret (VarList out)) ∧
    length out = length ["TQV"; "PS"] ∧
    Forall (λ M, nrows M = length ["a.nc"; "b.nc"] * nrows Sample.times) out.
Proof.
  apply (stitched_row_count_interp Z.leb Z.eqb None Sample.uninit Sample.nearest
           Sample.interp Sample.fs Sample.lats Sample.lons ["a.nc"; "b.nc"]
           ["TQV"; "PS"] Sample.times [Sample.var_a; Sample.var_b]).
  - repeat constructor; eexists; reflexivity.
  - discriminate.
  - discriminate.
Defined.

Lemma date_check_vec_again_witness :
  (NaT ∉ concat (rows Sample.times)) ∧
  ncols (NdArray 2 [[Some 600; NaT]; [Some 4200; NaT]]%Z) = ncols Sample.times ∧
  nrows (NdArray 2 [[Some 600; NaT]; [Some 4200; NaT]]%Z) = nrows Sample.times ∧
  ((∀ t, Some t ∈ concat (rows Sample.times) → in_window (-1800) 9000 t = true) →
     date_check_vec (NdArray 2 [[Some 600; NaT]; [Some 4200; NaT]]%Z) (-1800) 9000
     = Ret (NdArray 2 [[Some 600; NaT]; [Some 4200; NaT]]%Z)) ∧
  ((∃ t, Some t ∈ concat (rows Sample.times) ∧ in_window (-1800) 9000 t = false) →
     date_check_vec (NdArray 2 [[Some 600; NaT]; [Some 4200; NaT]]%Z) (-1800) 9000
     = Raise TypeError).
Proof.
  apply (date_check_vec_again Sample.times (-1800) 9000
           (NdArray 2 [[Some 600; NaT]; [Some 4200; NaT]]%Z)).
  reflexivity.
Defined.

Lemma unique_coordinates_sorted_witness :
  StronglySorted (λ x y, (x <=? y)%Z = true ∧ x ≠ y)
    (np_unique Z.leb Z.eqb [19; 2; 2]%Z) ∧
  NoDup (np_unique Z.leb Z.eqb [19; 2; 2]%Z) ∧
  (∀ x, x ∈ np_unique Z.leb Z.eqb [19; 2; 2]%Z ↔ x ∈ [19; 2; 2]%Z) ∧
  length (np_unique Z.leb Z.eqb [19; 2; 2]%Z) ≤ length [19; 2; 2]%Z.
Proof.
  apply (unique_coordinates_sorted Z.leb Z.eqb Z_leb_total Z_leb_trans Z_leb_antisym
           Z.eqb_eq [19; 2; 2]%Z).
Defined.

Lemma stitcher_rejects_empty_request_witness :
  Sample.extract_dataset_list Sample.lats Sample.lons ("a.nc" :: ["b.nc"]) ["TQV"]
    (NdArray 2 []) true
  = ([EvOpen "a.nc"], Raise ValueError).
Proof.
  apply (stitcher_rejects_empty_request Z.leb Z.eqb None Sample.uninit Sample.nearest
           Sample.interp Sample.fs Sample.lats Sample.lons ["TQV"] (NdArray 2 []) true
           "a.nc" ["b.nc"] Sample.file_a).
  - reflexivity.
  - discriminate.
  - reflexivity.
Defined.

Lemma postprocess_invariants_witness :
  ∃ out,
    merra2_postprocess SampleMerra2.np_exp Sample.aod Sample.other Sample.other
      Sample.other Sample.other Sample.tqv Sample.other
      (col_vec Sample.phis_cells) (col_vec Sample.elev_cells) 1 2 = Ret out ∧
    length out = 8 ∧
    out !! 0 = Some Sample.other ∧ out !! 4 = Some Sample.other ∧
    out !! 6 = Some Sample.other ∧
    (∃ angst, out !! 2 = Some angst ∧
       ncols angst = ncols Sample.other ∧ nrows angst = nrows Sample.other ∧
       ∀ i j a, cell angst i j = Some a → (a <? 0)%float = false) ∧
    (∃ no2, out !! 7 = Some no2 ∧ ncols no2 = 2 ∧ nrows no2 = 1 ∧
       ∀ i j, i < 1 → j < 2 → cell no2 i j = Some 0.0002%float).
Proof.
  eexists. split; [reflexivity|].
  apply (postprocess_invariants SampleMerra2.np_exp Sample.aod Sample.other
           Sample.other Sample.other Sample.other Sample.tqv Sample.other
           (col_vec Sample.phis_cells) (col_vec Sample.elev_cells) 1 2).
  reflexivity.
Defined.


Lemma merra2_without_data_file_witness :
  SampleMerra2.extract_for_MERRA2 Sample.lats Sample.lons SampleMerra2.times
    SampleMerra2.elev "nodata/" = ([], Raise IndexError).
Proof.
  apply (merra2_without_data_file Z.leb Z.eqb SampleMerra2.uninit Sample.nearest
           SampleMerra2.interp SampleMerra2.fs SampleMerra2.listdir SampleMerra2.np_exp
           Sample.lats
           Sample.lons SampleMerra2.times SampleMerra2.elev "nodata/").
  apply Forall_cons_2; [left; reflexivity|].
  apply Forall_cons_2; [right; left; reflexivity|].
  apply Forall_cons_2; [right; right; reflexivity|].
  apply Forall_nil_2.
Defined.

Lemma merra2_without_constants_file_witness :
  ∃ tr, SampleMerra2.extract_for_MERRA2 Sample.lats Sample.lons SampleMerra2.times
          SampleMerra2.elev "noconst/" = (tr, Raise IndexError).
Proof.
  eexists.
  eapply (merra2_without_constants_file Z.leb Z.eqb SampleMerra2.uninit Sample.nearest
            SampleMerra2.interp SampleMerra2.fs SampleMerra2.listdir SampleMerra2.np_exp
           Sample.lats
            Sample.lons SampleMerra2.times SampleMerra2.elev "noconst/").
  - reflexivity.
  - reflexivity.
  - reflexivity.
Defined.

Lemma merra2_sentinel_raises_witness :
  ∃ tr, SampleMerra2.extract_for_MERRA2 Sample.lats Sample.lons SampleMerra2.times
          SampleMerra2.elev "bad/" = (tr, Raise TypeError).
Proof.
  eexists.
  eapply (merra2_sentinel_raises Z.leb Z.eqb SampleMerra2.uninit Sample.nearest
            SampleMerra2.interp SampleMerra2.fs SampleMerra2.listdir SampleMerra2.np_exp
           Sample.lats
            Sample.lons SampleMerra2.times SampleMerra2.elev "bad/" _ (-1)%Z).
  left. reflexivity.
Defined.

Lemma merra2_repeated_longitude_witness :
  ∃ tr e, SampleMerra2.extract_for_MERRA2 [1; 12]%Z [2; 2]%Z SampleMerra2.times
            SampleMerra2.elev "data/" = (tr, Raise e).
Proof.
  apply (merra2_repeated_longitude Z.leb Z.eqb SampleMerra2.uninit Sample.nearest
           SampleMerra2.interp SampleMerra2.fs SampleMerra2.listdir SampleMerra2.np_exp
           Z_leb_total
           Z_leb_trans Z_leb_antisym Z.eqb_eq [1; 12]%Z [2; 2]%Z SampleMerra2.times
           SampleMerra2.elev "data/" 0 1 2%Z).
  - reflexivity.
  - reflexivity.
  - lia.
Defined.

Lemma static_extraction_returns_witness :
  ∃ var, Sample.extract_dataset Sample.lats Sample.lons "const.nc" ["PHIS"]
           (TimeMatrix Sample.times) false
         = ([EvOpen "const.nc"], Ret (VarList var)).
Proof.
  eapply (static_extraction_returns Z.leb Z.eqb None Sample.uninit Sample.nearest
            Sample.interp Sample.fs Sample.lats Sample.lons "const.nc" ["PHIS"]
            Sample.times).
  - reflexivity.
  - repeat constructor.
  - simpl. lia.
  - reflexivity.
  - discriminate.
  - simpl. lia.
  - vm_compute. lia.
  - intros s lat lon _ _. split; eexists; reflexivity.
Defined.

Lemma interp_extraction_returns_witness :
  ∃ var, Sample.extract_dataset Sample.lats Sample.lons "a.nc" ["TQV"; "PS"]
           (TimeMatrix Sample.times) true
         = ([EvOpen "a.nc"], Ret (VarList var)).
Proof.
  eapply (interp_extraction_returns Z.leb Z.eqb None Sample.uninit Sample.nearest
            Sample.interp Sample.fs Sample.lats Sample.lons "a.nc" ["TQV"; "PS"]
            Sample.times).
  - reflexivity.
  - discriminate.
  - repeat constructor.
  - simpl. lia.
  - simpl. lia.
  - intros _. exists 600%Z. left.
  - intros s col Hs Hcol. right. left.
    destruct s as [|[|s]]; [| |simpl in Hs; lia];
      vm_compute in Hcol; inversion Hcol; reflexivity.
  - intros H. simpl in H. lia.
  - intros s lat lon _ _. split; eexists; reflexivity.
Defined.

Lemma partly_valid_column_no_result_witness :
  (∃ z, (Sample.extract_dataset Sample.lats Sample.lons "a.nc" ["TQV"]
           (TimeMatrix (NdArray 2 [[Some 600; Some 600]; [Some 4200; NaT];
                                   [Some 6000; Some 6000]]%Z)) true).2
        = Ret (PyInt z)) ∨
  (∃ e, (Sample.extract_dataset Sample.lats Sample.lons "a.nc" ["TQV"]
           (TimeMatrix (NdArray 2 [[Some 600; Some 600]; [Some 4200; NaT];
                                   [Some 6000; Some 6000]]%Z)) true).2
        = Raise e).
Proof.
  apply (partly_valid_column_no_result Z.leb Z.eqb None Sample.uninit Sample.nearest
           Sample.interp Sample.fs Sample.lats Sample.lons "a.nc" ["TQV"]
           (NdArray 2 [[Some 600; Some 600]; [Some 4200; NaT];
                       [Some 6000; Some 6000]]%Z)
           1 [Some 600; NaT; Some 6000]%Z).
  - simpl. lia.
  - reflexivity.
  - vm_compute. lia.
  - vm_compute. lia.
  - vm_compute. lia.
  - discriminate.
Defined.
